(** * Shallow embedding of [models/model_layers.py]

    The layers of the graph network are embedded over a small model of the
    numeric substrate: a tensor is a shape together with its row-major data,
    and Python exceptions are a [result] monad.  Real arithmetic stands for
    the floating-point arithmetic wherever finite inputs give finite
    results: rounding is not modelled.  Where an ordinary input gives an
    infinity or a NaN (the exponentials of the pooling layers, the inverse
    square root of the Laplacian) the values are floats with the special
    values of IEEE 754.  A pass of the network also depends on the state of
    autograd and on the placement of the tensors, which are arguments of
    the model. *)

From Stdlib Require Import Reals Lra Lia List ZArith QArith Qminmax.
From stdpp Require Import gmap strings list pretty.
Import ListNotations.

Local Open Scope nat_scope.

(** ** Exceptions *)

Inductive exn : Set :=
| ValueError
| RuntimeError
| AttributeError
| TypeError
| IndexError
| AssertionError.

Inductive result (A : Type) : Type :=
| Ok (a : A)
| Raise (e : exn).

Arguments Ok {A} a.
Arguments Raise {A} e.

Definition bind {A B : Type} (r : result A) (k : A -> result B) : result B :=
  match r with
  | Ok a => k a
  | Raise e => Raise e
  end.

Notation "'let*' x ':=' r 'in' k" := (bind r (fun x => k))
  (at level 10, x name, r at level 100, k at level 200).
Notation "'let*' ' p ':=' r 'in' k" := (bind r (fun p => k))
  (at level 10, p strict pattern, r at level 100, k at level 200).

Definition is_ok {A : Type} (r : result A) : bool :=
  match r with Ok _ => true | Raise _ => false end.

(** ** Tensors: a shape and the row-major data *)

Module Torch.

Record tensor : Type := mkTensor { shape : list nat; data : list R }.

Definition numel (s : list nat) : nat := fold_right Nat.mul 1 s.

Definition wf (t : tensor) : Prop := length (data t) = numel (shape t).

(** Row-major offset of a multi-index. *)
Fixpoint ravel (s idx : list nat) : nat :=
  match s, idx with
  | _ :: s', i :: idx' => i * numel s' + ravel s' idx'
  | _, _ => 0
  end.

Definition get (t : tensor) (idx : list nat) : R :=
  nth (ravel (shape t) idx) (data t) 0%R.

(** All the multi-indices of a shape, in row-major order. *)
Fixpoint indices (s : list nat) : list (list nat) :=
  match s with
  | [] => [[]]
  | n :: s' => flat_map (fun i => map (cons i) (indices s')) (seq 0 n)
  end.

Definition tabulate (s : list nat) (f : list nat -> R) : tensor :=
  mkTensor s (map f (indices s)).

Definition in_bounds (s idx : list nat) : Prop := Forall2 lt idx s.

Definition Rsum (n : nat) (f : nat -> R) : R :=
  fold_right Rplus 0%R (map f (seq 0 n)).

(** [x.size()] unpacked into three names. *)
Definition size3 (t : tensor) : result (nat * nat * nat) :=
  match shape t with
  | [a; b; c] => Ok (a, b, c)
  | _ => Raise ValueError
  end.

(** [x.view(spec)]: at most one entry may be [-1]; it is inferred from the
    number of elements, which fails when the other entries multiply to zero
    or do not divide the number of elements. *)
Definition zprod (spec : list Z) : Z := fold_right Z.mul 1%Z spec.

Definition view_shape (n : nat) (spec : list Z) : result (list nat) :=
  if forallb (fun d => (-1 <=? d)%Z) spec then
    match List.filter (fun d => (d =? -1)%Z) spec with
    | [] =>
        if (zprod spec =? Z.of_nat n)%Z then Ok (map Z.to_nat spec)
        else Raise RuntimeError
    | [_] =>
        let known := zprod (List.filter (fun d => negb (d =? -1)%Z) spec) in
        if (known =? 0)%Z then Raise RuntimeError
        else if (Z.of_nat n mod known =? 0)%Z then
          Ok (map (fun d => if (d =? -1)%Z then Z.to_nat (Z.of_nat n / known)
                            else Z.to_nat d) spec)
        else Raise RuntimeError
    | _ => Raise RuntimeError
    end
  else Raise RuntimeError.

Definition view (t : tensor) (spec : list Z) : result tensor :=
  let* s := view_shape (numel (shape t)) spec in
  Ok (mkTensor s (data t)).

(** [x.unsqueeze(d)], a negative [d] counting from the end. *)
Definition insert_at {A : Type} (d : nat) (a : A) (l : list A) : list A :=
  firstn d l ++ a :: skipn d l.

Definition remove_at {A : Type} (d : nat) (l : list A) : list A :=
  firstn d l ++ skipn (S d) l.

Definition unsqueeze (t : tensor) (d : Z) : result tensor :=
  let r := Z.of_nat (length (shape t)) in
  let d' := if (d <? 0)%Z then (d + r + 1)%Z else d in
  if ((0 <=? d') && (d' <=? r))%Z
  then Ok (mkTensor (insert_at (Z.to_nat d') 1 (shape t)) (data t))
  else Raise IndexError.

(** [x.sum(dim=d)] *)
Definition sum_dim (t : tensor) (d : nat) : result tensor :=
  if d <? length (shape t) then
    Ok (tabulate (remove_at d (shape t))
          (fun idx => Rsum (nth d (shape t) 0)
                        (fun k => get t (insert_at d k idx))))
  else Raise IndexError.

(** Broadcasting of two shapes, aligned on the trailing dimensions. *)
Fixpoint bshape_rev (a b : list nat) : option (list nat) :=
  match a, b with
  | [], _ => Some b
  | _, [] => Some a
  | x :: a', y :: b' =>
      if x =? y then cons x <$> bshape_rev a' b'
      else if x =? 1 then cons y <$> bshape_rev a' b'
      else if y =? 1 then cons x <$> bshape_rev a' b'
      else None
  end.

Definition broadcast_shapes (a b : list nat) : result (list nat) :=
  match bshape_rev (rev a) (rev b) with
  | Some s => Ok (rev s)
  | None => Raise RuntimeError
  end.

(** The index into an operand of shape [s] for the index [idx] of the
    broadcast result: leading dimensions are dropped, a dimension of size
    one is read at zero. *)
Fixpoint bidx_aligned (s idx : list nat) : list nat :=
  match s, idx with
  | n :: s', i :: idx' => (if n =? 1 then 0 else i) :: bidx_aligned s' idx'
  | _, _ => []
  end.

Definition bidx (s idx : list nat) : list nat :=
  bidx_aligned s (skipn (length idx - length s) idx).

Definition binop (f : R -> R -> R) (a b : tensor) : result tensor :=
  let* s := broadcast_shapes (shape a) (shape b) in
  Ok (tabulate s (fun idx => f (get a (bidx (shape a) idx))
                               (get b (bidx (shape b) idx)))).

Definition mul := binop Rmult.
Definition div := binop Rdiv.

Definition map_t (f : R -> R) (t : tensor) : tensor :=
  mkTensor (shape t) (map f (data t)).

Definition sigmoid (x : R) : R := (1 / (1 + exp (- x)))%R.
Definition relu (x : R) : R := Rmax 0 x.

(** [nn.Linear]: the weight has shape [(out_features, in_features)]. *)
Record Linear : Type := mkLinear {
  in_features : nat;
  out_features : nat;
  weight : tensor;
  bias : tensor
}.

(** Parameters are drawn by the initialiser [init]; only their shapes are
    fixed by the layer. *)
Definition nn_Linear (init : list nat -> R) (n_in n_out : nat) : Linear :=
  mkLinear n_in n_out (tabulate [n_out; n_in] init)
           (tabulate [n_out] (fun idx => init (idx ++ [n_in]))).

(** The entry of [x W^T + b] at [idx]: the row of [x] is all of [idx] but
    its last component, which selects the output feature. *)
Definition Linear_entry (l : Linear) (x : tensor) (idx : list nat) : R :=
  let o := List.last idx 0 in
  (Rsum (in_features l)
     (fun k => get x (removelast idx ++ [k]) * get (weight l) [o; k])
   + get (bias l) [o])%R.

Definition Linear_forward (l : Linear) (x : tensor) : result tensor :=
  match rev (shape x) with
  | [] => Raise RuntimeError
  | c :: _ =>
      if c =? in_features l then
        Ok (tabulate (removelast (shape x) ++ [out_features l])
              (Linear_entry l x))
      else Raise RuntimeError
  end.

(** The size of a broadcast dimension. *)
Definition bdim (x y : nat) : nat := if x =? 1 then y else x.

End Torch.

Import Torch.

(** ** Floating-point values

    Some operations of the layers turn ordinary numbers into an infinity or
    a NaN: an exponential beyond the range of the format, a division by
    zero, a negative number under a root.  Their results are floats: a real
    number or one of the special values of IEEE 754, which propagate as the
    standard says.  On finite values the four operations are exact, as in
    the rest of the model: their rounding and their overflow are not
    modelled, and zero has no sign. *)

Module Float.

Inductive float : Type :=
| Fin (r : R)
| PInf
| NInf
| NaN.

(** The range of a binary format: its largest finite value, and half of its
    smallest positive one, at and below which a positive number rounds to
    zero. *)
Record format : Type := mkFormat { max_finite : R; half_min : R }.

(** Single precision, the default element type of the tensors. *)
Definition binary32 : format :=
  mkFormat ((2 - / 2 ^ 23) * 2 ^ 127)%R (/ 2 ^ 150)%R.

Definition add (a b : float) : float :=
  match a, b with
  | NaN, _ | _, NaN => NaN
  | PInf, NInf | NInf, PInf => NaN
  | PInf, _ | _, PInf => PInf
  | NInf, _ | _, NInf => NInf
  | Fin x, Fin y => Fin (x + y)
  end.

Definition opp (a : float) : float :=
  match a with
  | Fin x => Fin (- x)
  | PInf => NInf
  | NInf => PInf
  | NaN => NaN
  end.

Definition sub (a b : float) : float := add a (opp b).

(** An infinity times the finite [x]. *)
Definition scale_inf (negative : bool) (x : R) : float :=
  if Req_dec_T x 0 then NaN
  else if xorb negative (if Rlt_dec x 0 then true else false) then NInf
  else PInf.

Definition mul (a b : float) : float :=
  match a, b with
  | NaN, _ | _, NaN => NaN
  | Fin x, Fin y => Fin (x * y)
  | Fin x, PInf | PInf, Fin x => scale_inf false x
  | Fin x, NInf | NInf, Fin x => scale_inf true x
  | PInf, PInf | NInf, NInf => PInf
  | PInf, NInf | NInf, PInf => NInf
  end.

Definition div (a b : float) : float :=
  match a, b with
  | NaN, _ | _, NaN => NaN
  | Fin x, Fin y =>
      if Req_dec_T y 0 then
        if Req_dec_T x 0 then NaN
        else if Rlt_dec x 0 then NInf else PInf
      else Fin (x / y)
  | Fin _, PInf | Fin _, NInf => Fin 0
  | PInf, Fin y => if Rlt_dec y 0 then NInf else PInf
  | NInf, Fin y => if Rlt_dec y 0 then PInf else NInf
  | PInf, PInf | PInf, NInf | NInf, PInf | NInf, NInf => NaN
  end.

(** [exp] in the format [fmt]: beyond the largest finite value the result is
    an infinity, at and below half of the smallest positive one it is
    zero. *)
Definition exp (fmt : format) (a : float) : float :=
  match a with
  | Fin x =>
      if Rlt_dec (max_finite fmt) (Rtrigo_def.exp x) then PInf
      else if Rle_dec (Rtrigo_def.exp x) (half_min fmt) then Fin 0
      else Fin (Rtrigo_def.exp x)
  | PInf => PInf
  | NInf => Fin 0
  | NaN => NaN
  end.

(** [a ** -0.5]: the power of a negative number is a NaN, that of zero an
    infinity. *)
Definition pow_minus_half (a : float) : float :=
  match a with
  | Fin x =>
      if Rlt_dec x 0 then NaN
      else if Req_dec_T x 0 then PInf
      else Fin (/ sqrt x)
  | PInf => Fin 0
  | NInf | NaN => NaN
  end.

Definition sum (n : nat) (f : nat -> float) : float :=
  fold_right add (Fin 0) (map f (seq 0 n)).

(** A finite value: neither an infinity nor a NaN. *)
Definition finite (a : float) : Prop := exists r, a = Fin r.

End Float.

Export Float(float, Fin, PInf, NInf, NaN, format, max_finite, half_min).

(** ** Tensors of floats

    The tensors of [Torch] with floats for entries; shapes, indices and
    broadcasting are the same. *)

Module FTorch.

Record tensor : Type := mkTensor { shape : list nat; data : list float }.

Definition wf (t : tensor) : Prop := length (data t) = numel (shape t).

Definition get (t : tensor) (idx : list nat) : float :=
  nth (ravel (shape t) idx) (data t) (Fin 0).

Definition tabulate (s : list nat) (f : list nat -> float) : tensor :=
  mkTensor s (map f (indices s)).

(** A tensor of reals seen as a tensor of floats, and a function applied to
    every entry of a tensor of reals. *)
Definition map_real (f : R -> float) (t : Torch.tensor) : tensor :=
  mkTensor (Torch.shape t) (map f (Torch.data t)).

Definition of_real : Torch.tensor -> tensor := map_real Fin.

Definition view (t : tensor) (spec : list Z) : result tensor :=
  let* s := view_shape (numel (shape t)) spec in
  Ok (mkTensor s (data t)).

Definition unsqueeze (t : tensor) (d : Z) : result tensor :=
  let r := Z.of_nat (length (shape t)) in
  let d' := if (d <? 0)%Z then (d + r + 1)%Z else d in
  if ((0 <=? d') && (d' <=? r))%Z
  then Ok (mkTensor (insert_at (Z.to_nat d') 1 (shape t)) (data t))
  else Raise IndexError.

Definition sum_dim (t : tensor) (d : nat) : result tensor :=
  if d <? length (shape t) then
    Ok (tabulate (remove_at d (shape t))
          (fun idx => Float.sum (nth d (shape t) 0)
                        (fun k => get t (insert_at d k idx))))
  else Raise IndexError.

Definition binop (f : float -> float -> float) (a b : tensor) : result tensor :=
  let* s := broadcast_shapes (shape a) (shape b) in
  Ok (tabulate s (fun idx => f (get a (bidx (shape a) idx))
                               (get b (bidx (shape b) idx)))).

Definition mul := binop Float.mul.
Definition div := binop Float.div.
Definition sub := binop Float.sub.

(** A linear layer, whose parameters are reals, applied to floats. *)
Definition Linear_entry (l : Linear) (x : tensor) (idx : list nat) : float :=
  let o := List.last idx 0 in
  Float.add
    (Float.sum (in_features l)
       (fun k => Float.mul (get x (removelast idx ++ [k]))
                   (Fin (Torch.get (weight l) [o; k]))))
    (Fin (Torch.get (bias l) [o])).

Definition Linear_forward (l : Linear) (x : tensor) : result tensor :=
  match rev (shape x) with
  | [] => Raise RuntimeError
  | c :: _ =>
      if c =? in_features l then
        Ok (tabulate (removelast (shape x) ++ [out_features l])
              (Linear_entry l x))
      else Raise RuntimeError
  end.

(** [a.mm(b)] of two matrices. *)
Definition mm (a b : tensor) : result tensor :=
  match shape a, shape b with
  | [r; k], [k'; c] =>
      if k =? k' then
        Ok (tabulate [r; c]
              (fun idx => match idx with
                          | [i; j] =>
                              Float.sum k (fun l => Float.mul (get a [i; l])
                                                      (get b [l; j]))
                          | _ => Fin 0
                          end))
      else Raise RuntimeError
  | _, _ => Raise RuntimeError
  end.

(** [t.sum()] *)
Definition sum_all (t : tensor) : float := fold_right Float.add (Fin 0) (data t).

End FTorch.

(** ** The layers of [model_layers.py] *)

(** *** EmbeddingLayer *)

Record EmbeddingLayer : Type := mkEmbeddingLayer {
  emb_size : nat;
  emb_table : tensor
}.

Definition EmbeddingLayer_init (init : list nat -> R) (nb_emb emb_size : nat)
  : EmbeddingLayer :=
  mkEmbeddingLayer emb_size (tabulate [nb_emb; emb_size] init).

Definition EmbeddingLayer_forward (self : EmbeddingLayer) (x : tensor)
  : result tensor :=
  mul x (emb_table self).

(** *** AttentionLayer *)

Record AttentionLayer : Type := mkAttentionLayer {
  att_in_dim : nat;
  nb_attention_head : nat;
  att_attn : Linear;
  temperature : R
}.

Definition AttentionLayer_init (init : list nat -> R)
  (in_dim nb_attention_head : nat) : AttentionLayer :=
  mkAttentionLayer in_dim nb_attention_head
    (nn_Linear init in_dim nb_attention_head) 1%R.

(** Lines 45-58, on tensors of the format [fmt]; returns the pair
    [(attn_applied, attn_weights)].  The scores are finite; their
    exponentials, and what is computed from them, are floats. *)
Definition AttentionLayer_forward (fmt : format) (self : AttentionLayer)
  (x : tensor) : result (FTorch.tensor * FTorch.tensor) :=
  let* '(nb_examples, nb_nodes, nb_channels) := size3 x in
  let* x := view x [-1; Z.of_nat nb_channels]%Z in
  let* scores := Linear_forward (att_attn self) x in
  let attn_weights :=
    FTorch.map_real (fun v => Float.exp fmt (Fin (v * temperature self))) scores in
  let* attn_weights :=
    FTorch.view attn_weights [Z.of_nat nb_examples; Z.of_nat nb_nodes;
                              Z.of_nat (nb_attention_head self)] in
  let* total := FTorch.sum_dim attn_weights 1 in
  let* total := FTorch.unsqueeze total 1 in
  let* attn_weights := FTorch.div attn_weights total in
  let* x := view x [Z.of_nat nb_examples; Z.of_nat nb_nodes;
                    Z.of_nat nb_channels] in
  let* xu := unsqueeze x (-1) in
  let* wu := FTorch.unsqueeze attn_weights (-2) in
  let* attn_applied := FTorch.mul (FTorch.of_real xu) wu in
  let* attn_applied := FTorch.sum_dim attn_applied 1 in
  let* attn_applied := FTorch.view attn_applied [Z.of_nat nb_examples; -1]%Z in
  Ok (attn_applied, attn_weights).

(** *** ElementwiseGateLayer *)

Record ElementwiseGateLayer : Type := mkElementwiseGateLayer {
  gate_in_dim : nat;
  gate_attn : Linear
}.

Definition ElementwiseGateLayer_init (init : list nat -> R) (id_dim : nat)
  : ElementwiseGateLayer :=
  mkElementwiseGateLayer id_dim (nn_Linear init id_dim 1).

Definition ElementwiseGateLayer_forward (self : ElementwiseGateLayer)
  (x : tensor) : result tensor :=
  let* '(nb_examples, nb_nodes, nb_channels) := size3 x in
  let* x := view x [-1; Z.of_nat nb_channels]%Z in
  let* scores := Linear_forward (gate_attn self) x in
  let gate_weights := map_t sigmoid scores in
  view gate_weights [Z.of_nat nb_examples; Z.of_nat nb_nodes; 1]%Z.

(** *** StaticElementwiseGateLayer *)

Record StaticElementwiseGateLayer : Type := mkStaticElementwiseGateLayer {
  sgate_in_dim : nat;
  sgate_attn : tensor
}.

(** [torch.zeros(50) + 1.] *)
Definition StaticElementwiseGateLayer_init (id_dim : nat)
  : StaticElementwiseGateLayer :=
  mkStaticElementwiseGateLayer id_dim
    (map_t (fun v => (v + 1)%R) (tabulate [50] (fun _ => 0%R))).

Definition StaticElementwiseGateLayer_forward
  (self : StaticElementwiseGateLayer) (x : tensor) : result tensor :=
  let* '(nb_examples, nb_nodes, nb_channels) := size3 x in
  let gate_weights := map_t sigmoid (sgate_attn self) in
  view gate_weights [Z.of_nat nb_nodes; 1]%Z.

(** *** The array operations used by the classifier heads

    Arrays share the representation of tensors.  The adjacency is a matrix:
    the operations below are modelled on arrays of rank one and two, the
    ranks they are applied to. *)

Module Numpy.

(** [np.cumprod] of a list of sizes. *)
Fixpoint cumprod_from (acc : nat) (l : list nat) : list nat :=
  match l with
  | [] => []
  | x :: l' => acc * x :: cumprod_from (acc * x) l'
  end.

Definition cumprod (l : list nat) : list nat := cumprod_from 1 l.

(** [np.fill_diagonal(a, val)] on a matrix writes [a.flat[:end:step]] with
    [step = cols + 1] and [end = cols * cols]; on an array of higher rank,
    whose dimensions must be equal, it writes [a.flat[::step]] with
    [step = 1 + cumprod(shape[:-1]).sum()]; it rejects the other arrays. *)
Definition fill_diagonal (a : tensor) (val : R) : result tensor :=
  match shape a with
  | [_; cols] =>
      Ok (mkTensor (shape a)
            (imap (fun p v =>
                     if (p <? cols * cols) && (p mod (cols + 1) =? 0)
                     then val else v) (data a)))
  | n :: _ :: _ :: _ =>
      if forallb (Nat.eqb n) (shape a) then
        let step := 1 + list_sum (cumprod (removelast (shape a))) in
        Ok (mkTensor (shape a)
              (imap (fun p v => if p mod step =? 0 then val else v) (data a)))
      else Raise ValueError
  | _ => Raise ValueError
  end.

Definition add_scalar (a : tensor) (c : R) : tensor :=
  map_t (fun v => (v + c)%R) a.

(** [a ** -0.5], entry by entry: the results are floats. *)
Definition pow_minus_half (a : tensor) : FTorch.tensor :=
  FTorch.map_real (fun v => Float.pow_minus_half (Fin v)) a.

(** [np.diag]: a vector becomes a diagonal matrix, a matrix gives its
    diagonal. *)
Definition diag (v : FTorch.tensor) : result FTorch.tensor :=
  match FTorch.shape v with
  | [n] =>
      Ok (FTorch.tabulate [n; n]
            (fun idx => match idx with
                        | [i; j] => if i =? j then FTorch.get v [i] else Fin 0
                        | _ => Fin 0
                        end))
  | [r; c] => Ok (FTorch.tabulate [Nat.min r c]
                    (fun idx => match idx with
                                | [i] => FTorch.get v [i; i]
                                | _ => Fin 0
                                end))
  | _ => Raise ValueError
  end.

Definition eye (n : nat) : FTorch.tensor :=
  FTorch.tabulate [n; n]
    (fun idx => match idx with
                | [i; j] => if i =? j then Fin 1 else Fin 0
                | _ => Fin 0
                end).

(** [a.dot(b)] of two matrices. *)
Definition dot (a b : FTorch.tensor) : result FTorch.tensor :=
  match FTorch.shape a, FTorch.shape b with
  | [r; k], [k'; c] =>
      if k =? k' then
        Ok (FTorch.tabulate [r; c]
              (fun idx => match idx with
                          | [i; j] =>
                              Float.sum k (fun l => Float.mul (FTorch.get a [i; l])
                                                      (FTorch.get b [l; j]))
                          | _ => Fin 0
                          end))
      else Raise ValueError
  | _, _ => Raise ValueError
  end.

Definition sub := FTorch.sub.

End Numpy.

(** *** SparseLogisticRegression *)

Record SparseLogisticRegression : Type := mkSparseLogisticRegression {
  slr_nb_nodes : nat;
  slr_input_dim : nat;
  slr_laplacian : FTorch.tensor;
  slr_out_dim : nat;
  slr_cuda : bool;
  slr_my_logistic_layers : list Linear
}.

Definition epsilon : R := (1 / 100000)%R.

(** Line 119: [D = adj.sum(0) + 1e-5]. *)
Definition degree_vector (adj : tensor) : result tensor :=
  let* colsum := sum_dim adj 0 in
  Ok (Numpy.add_scalar colsum epsilon).

(** The Laplacian of lines 119-120, from the adjacency whose diagonal has
    been zeroed.  The adjacency and its degrees are finite; the inverse
    square roots, and the products with them, are floats. *)
Definition laplacian_of (adj : tensor) : result FTorch.tensor :=
  let* D := degree_vector adj in
  let* n := match shape D with
            | n :: _ => Ok n
            | [] => Raise IndexError
            end in
  let* dm := Numpy.diag (Numpy.pow_minus_half D) in
  let* left := Numpy.dot dm (FTorch.of_real adj) in
  let* dm' := Numpy.diag (Numpy.pow_minus_half D) in
  let* prod := Numpy.dot left dm' in
  Numpy.sub (Numpy.eye n) prod.

(** The constructor receives a reference [adj] to the caller's array in the
    store [heap] and returns the store it leaves behind together with the
    object, or the exception. *)
Definition SparseLogisticRegression_init (init : list nat -> R)
  (heap : gmap nat tensor) (nb_nodes input_dim : nat) (adj : nat)
  (out_dim : option nat) (cuda : bool)
  : gmap nat tensor * result SparseLogisticRegression :=
  let out_dim := match out_dim with Some d => d | None => 2 end in
  match heap !! adj with
  | None => (heap, Raise TypeError)
  | Some a =>
      match Numpy.fill_diagonal a 0%R with
      | Raise e => (heap, Raise e)
      | Ok a' =>
          (<[adj := a']> heap,
           let* laplacian := laplacian_of a' in
           let logistic_in_dim := nb_nodes * input_dim in
           let logistic_layer := nn_Linear init logistic_in_dim out_dim in
           Ok (mkSparseLogisticRegression nb_nodes input_dim laplacian
                 out_dim cuda [logistic_layer]))
      end
  end.

(** *** GraphNetwork *)

(** The adjacency transforms handed through to the graph layers. *)
Inductive adj_hook : Type := AdjHook (name : string).

(** A graph layer as the network holds it: the arguments its constructor
    was called with, and whether [save_computations] was registered on it. *)
Record GraphLayer : Type := mkGraphLayer {
  gl_adj : tensor;
  gl_c_in : nat;
  gl_c_out : nat;
  gl_cuda : bool;
  gl_id : nat;
  gl_transform_adj : option (list adj_hook);
  gl_aggregate_adj : option adj_hook;
  gl_hooked : bool
}.

(** The injected layer type: what a layer built from these arguments
    computes. *)
Definition layer_type : Type := GraphLayer -> tensor -> result tensor.

(** What [save_computations] leaves on a module: [input] and [output]. *)
Inductive pyout : Type :=
| OutTensor (t : FTorch.tensor)
| OutPair (a b : FTorch.tensor).

Record capture : Type :=
  mkCapture { cap_input : FTorch.tensor; cap_output : pyout }.

Record GraphNetwork : Type := mkGraphNetwork {
  out_dim : nat;
  cuda : bool;
  adj : tensor;
  nb_nodes : nat;
  channels : list nat;
  embedding : option nat;
  graph_layer_type : layer_type;
  aggregate_adj : option adj_hook;
  transform_adj : list adj_hook;
  dropout : bool;
  attention_head : Z;
  master_nodes : Z;
  prepool_extralayers : Z;
  input_dim : nat;
  gating : Q;
  emb : option EmbeddingLayer;
  dims : list nat;
  conv_layers : list GraphLayer;
  my_logistic_layers : list Linear;
  gating_layers : list (option ElementwiseGateLayer);
  dropout_layers : list (option Q);
  attention_layer : option AttentionLayer
}.

(** The keyword arguments of the constructor. *)
Record GraphNetwork_args : Type := mkArgs {
  a_input_dim : nat;
  a_channels : list nat;
  a_adj : tensor;
  a_out_dim : option nat;
  a_cuda : bool;
  a_embedding : option nat;
  a_transform_adj : option (list adj_hook);
  a_aggregate_adj : option adj_hook;
  a_prepool_extralayers : Z;
  a_graph_layer_type : layer_type;
  a_gating : Q;
  a_dropout : bool;
  a_attention_head : Z;
  a_master_nodes : Z
}.

Definition enumerate {A : Type} (l : list A) : list (nat * A) :=
  combine (seq 0 (length l)) l.

Definition range (n : Z) : list nat := seq 0 (Z.to_nat n).

Definition Qpositive (q : Q) : bool := negb (Qle_bool q 0).

(** Python truth of an optional size. *)
Definition truthy_size (o : option nat) : bool :=
  match o with
  | Some (S _) => true
  | _ => false
  end.

Definition add_embedding_layer (init : string -> list nat -> R)
  (nb_nodes embedding : nat) : EmbeddingLayer :=
  EmbeddingLayer_init (init "emb") nb_nodes embedding.

(** Lines 230-233.  An absent stage is [None]; [torch.nn.Dropout p] is held
    by its probability, which must lie in [0, 1]. *)
Definition nn_Dropout (p : Q) : result Q :=
  if Qle_bool 0 p && Qle_bool p 1 then Ok p else Raise ValueError.

Definition int_of_bool (b : bool) : Q := inject_Z (Z.b2z b).

Definition dropout_p (dropout : bool) (id_layer : nat) : Q :=
  int_of_bool dropout * Qmin ((Z.of_nat id_layer + 1) # 10) (4 # 10).

Fixpoint collect {A : Type} (l : list (result A)) : result (list A) :=
  match l with
  | [] => Ok []
  | r :: l' => let* a := r in let* l'' := collect l' in Ok (a :: l'')
  end.

Definition add_dropout_layers (dims : list nat) (dropout : bool)
  : result (list (option Q)) :=
  let dropout_layers := repeat None (length dims - 1) in
  if dropout then
    let* ps := collect (map (fun id_layer => nn_Dropout (dropout_p dropout id_layer))
                          (seq 0 (length dims - 1))) in
    Ok (map Some ps)
  else Ok dropout_layers.

(** Lines 235-247. *)
Definition add_graph_convolutional_layers (adj : tensor) (dims : list nat)
  (cuda : bool) (transform_adj : list adj_hook)
  (aggregate_adj : option adj_hook) (prepool_extralayers : Z)
  : list GraphLayer :=
  fold_left
    (fun convs '(i, (c_in, c_out)) =>
       let convs :=
         match aggregate_adj with
         | Some _ =>
             fold_left
               (fun convs extra_layer =>
                  convs ++ [mkGraphLayer adj c_in c_in cuda i None None false])
               (range prepool_extralayers) convs
         | None => convs
         end in
       convs ++ [mkGraphLayer adj c_in c_out cuda i (Some transform_adj)
                   aggregate_adj true])
    (enumerate (combine (removelast dims) (tl dims))) [].

(** Lines 249-258. *)
Definition add_gating_layers (init : string -> list nat -> R) (gating : Q)
  (channels dims : list nat) : list (option ElementwiseGateLayer) :=
  if Qpositive gating then
    map (fun '(i, c_in) =>
           Some (ElementwiseGateLayer_init (init ("gate_" +:+ pretty i)) c_in))
        (enumerate channels)
  else repeat None (length dims - 1).

(** Lines 260-272. *)
Definition add_logistic_layer (init : string -> list nat -> R)
  (attention_head : Z) (nb_nodes : nat) (dims : list nat) (out_dim : nat)
  : list Linear :=
  let logistic_in_dim :=
    if (0 <? attention_head)%Z
    then [Z.to_nat (attention_head * Z.of_nat (List.last dims 0))]
    else [nb_nodes * List.last dims 0] in
  map (fun d => nn_Linear (init "logistic") d out_dim) logistic_in_dim.

(** Lines 173-224. *)
Definition GraphNetwork_init (init : string -> list nat -> R)
  (args : GraphNetwork_args) : result GraphNetwork :=
  let transform_adj :=
    match a_transform_adj args with Some l => l | None => [] end in
  let out_dim := match a_out_dim args with Some d => d | None => 2 end in
  let* nb_nodes := match shape (a_adj args) with
                   | n :: _ => Ok n
                   | [] => Raise IndexError
                   end in
  let emb :=
    if truthy_size (a_embedding args)
    then Some (add_embedding_layer init nb_nodes
                 (default 0 (a_embedding args)))
    else None in
  let input_dim :=
    match emb with Some e => emb_size e | None => a_input_dim args end in
  let dims := input_dim :: a_channels args in
  let conv_layers :=
    add_graph_convolutional_layers (a_adj args) dims (a_cuda args)
      transform_adj (a_aggregate_adj args) (a_prepool_extralayers args) in
  let my_logistic_layers :=
    add_logistic_layer init (a_attention_head args) nb_nodes dims out_dim in
  let gating_layers :=
    add_gating_layers init (a_gating args) (a_channels args) dims in
  let* dropout_layers := add_dropout_layers dims (a_dropout args) in
  let* attention_layer :=
    if (a_attention_head args =? 0)%Z then Ok None
    else
      match rev (a_channels args) with
      | [] => Raise IndexError
      | c :: _ =>
          if (a_attention_head args <? 0)%Z then Raise RuntimeError
          else Ok (Some (AttentionLayer_init (init "attention") c
                           (Z.to_nat (a_attention_head args))))
      end in
  Ok (mkGraphNetwork out_dim (a_cuda args) (a_adj args) nb_nodes
        (a_channels args) (a_embedding args) (a_graph_layer_type args)
        (a_aggregate_adj args) transform_adj (a_dropout args)
        (a_attention_head args) (a_master_nodes args)
        (a_prepool_extralayers args) input_dim (a_gating args) emb dims
        conv_layers my_logistic_layers gating_layers dropout_layers
        attention_layer).

(** A call of a module: the forward hook [save_computations], when one is
    registered, records the input and the output under the module's path in
    the store of captures. *)
Definition call_module (name : string) (hooked : bool)
  (f : tensor -> result tensor) (x : tensor) (st : gmap string capture)
  : result (tensor * gmap string capture) :=
  let* y := f x in
  Ok (y, if hooked
         then <[name := mkCapture (FTorch.of_real x)
                          (OutTensor (FTorch.of_real y))]> st
         else st).

Definition ones (s : list nat) : tensor := tabulate s (fun _ => 1%R).

(** [torch.nn.Dropout(p)] applied to [t]: in training mode the entries the
    Bernoulli draw [keep] retains are scaled by [1 / (1 - p)], the others are
    zeroed; in evaluation mode the module is the identity. *)
Definition Dropout_forward (p : Q) (training : bool) (keep : list nat -> bool)
  (t : tensor) : tensor :=
  if training then
    tabulate (shape t)
      (fun idx => if keep idx then (get t idx / (1 - Q2R p))%R else 0%R)
  else t.

(** Where the tensors live: on a machine without a usable GPU, where
    [.cuda()] raises [e], or with the input and the parameters of the
    network together on the CPU or on the GPU. *)
Inductive placement : Type :=
| NoCuda (e : exn)
| OnCpu
| OnGpu.

(** What a pass depends on besides the network, its mode and its input:
    whether gradients are being recorded ([torch.is_grad_enabled()]),
    whether the input requires grad, whether a parameter of the module of a
    given path does, the format of the tensors and their placement. *)
Record runtime : Type := mkRuntime {
  grad_enabled : bool;
  input_requires_grad : bool;
  trainable : string -> bool;
  fmt : format;
  device : placement
}.

(** [requires_grad] of the result of an operation, from that of its
    arguments. *)
Definition tracked (rt : runtime) (arguments : bool) : bool :=
  grad_enabled rt && arguments.

(** [x.register_hook(...)] raises on a tensor that does not require grad. *)
Definition register_hook (requires_grad : bool) : result unit :=
  if requires_grad then Ok tt else Raise RuntimeError.

(** Line 297: [id_to_keep.cuda()]. *)
Definition to_cuda (p : placement) : result unit :=
  match p with
  | NoCuda e => Raise e
  | OnCpu | OnGpu => Ok tt
  end.

(** Line 299: the product of the stage's tensor with a mask that is on the
    GPU or not. *)
Definition same_device (p : placement) (mask_on_gpu : bool) : result unit :=
  match p, mask_on_gpu with
  | OnGpu, true | OnCpu, false | NoCuda _, false => Ok tt
  | _, _ => Raise RuntimeError
  end.

(** One iteration of the loop of lines 281-299: the tensor, whether it
    requires grad, and the captures. *)
Definition forward_stage (self : GraphNetwork) (rt : runtime)
  (training : bool) (keep : nat -> list nat -> bool)
  (acc : result (tensor * bool * gmap string capture))
  (item : nat * (GraphLayer * (option ElementwiseGateLayer * option Q)))
  : result (tensor * bool * gmap string capture) :=
  let* '(x, rg, st) := acc in
  let '(i, (layer, (gate, dropout))) := item in
  let conv := "conv_layers." +:+ pretty i in
  let* '(x, rg, st) :=
    if Qpositive (gating self) then
      let* '(x, st) :=
        call_module conv (gl_hooked layer) (graph_layer_type self layer) x st in
      let rg := tracked rt (rg || trainable rt conv) in
      match gate with
      | None => Raise TypeError
      | Some gate =>
          let gating := "gating_layers." +:+ pretty i in
          let* '(g, st) :=
            call_module gating true (ElementwiseGateLayer_forward gate) x st in
          let rg_g := tracked rt (rg || trainable rt gating) in
          let* x := mul g x in
          Ok (x, tracked rt (rg_g || rg), st)
      end
    else
      let* '(x, st) :=
        call_module conv (gl_hooked layer) (graph_layer_type self layer) x st in
      Ok (x, tracked rt (rg || trainable rt conv), st) in
  let x := map_t relu x in
  let rg := tracked rt rg in
  let* _ := register_hook rg in
  match dropout with
  | Some p =>
      let* '(n0, n1) := match shape x with
                        | n0 :: n1 :: _ => Ok (n0, n1)
                        | _ => Raise IndexError
                        end in
      let* id_to_keep :=
        unsqueeze (Dropout_forward p training (keep i) (ones [n0; n1])) 2 in
      let* _ := if cuda self then to_cuda (device rt) else Ok tt in
      let* _ := same_device (device rt) (cuda self) in
      let* x := mul x id_to_keep in
      Ok (x, tracked rt rg, st)
  | None => Ok (x, rg, st)
  end.

Definition logistic_name (self : GraphNetwork) : string :=
  "my_logistic_layers." +:+ pretty (length (my_logistic_layers self) - 1).

(** Lines 274-307.  [rt] is the state of the run, [training] the mode of
    the module, [keep] the Bernoulli draws of the dropout stages, [st] the
    captures so far.  Attention pooling leaves floats, which the classifier
    takes. *)
Definition forward (self : GraphNetwork) (rt : runtime) (training : bool)
  (keep : nat -> list nat -> bool) (st : gmap string capture) (x : tensor)
  : result (FTorch.tensor * gmap string capture) :=
  let* '(nb_examples, nb_nodes, nb_channels) := size3 x in
  let* '(x, rg, st) :=
    if truthy_size (embedding self) then
      match emb self with
      | Some e =>
          let* '(x, st) := call_module "emb" true (EmbeddingLayer_forward e) x st in
          let rg := tracked rt (input_requires_grad rt || trainable rt "emb") in
          let* _ := register_hook rg in
          Ok (x, rg, st)
      | None => Raise AttributeError
      end
    else Ok (x, input_requires_grad rt, st) in
  let* '(x, rg, st) :=
    fold_left (forward_stage self rt training keep)
      (enumerate (combine (conv_layers self)
                    (combine (gating_layers self) (dropout_layers self))))
      (Ok (x, rg, st)) in
  let* '(x, rg, st) :=
    if negb (attention_head self =? 0)%Z then
      match attention_layer self with
      | Some a =>
          let* '(attn_applied, attn_weights) :=
            AttentionLayer_forward (fmt rt) a x in
          Ok (attn_applied,
              tracked rt (rg || trainable rt "attention_layer"),
              <["attention_layer" :=
                  mkCapture (FTorch.of_real x)
                    (OutPair attn_applied attn_weights)]> st)
      | None => Raise AttributeError
      end
    else Ok (FTorch.of_real x, rg, st) in
  match rev (my_logistic_layers self) with
  | [] => Raise IndexError
  | l :: _ =>
      let* flat := FTorch.view x [Z.of_nat nb_examples; -1]%Z in
      let* y := FTorch.Linear_forward l flat in
      let st := <[logistic_name self := mkCapture flat (OutTensor y)]> st in
      let* _ :=
        register_hook (tracked rt (tracked rt rg || trainable rt (logistic_name self))) in
      Ok (y, st)
  end.

(** *** Attribute lookup on a network *)

Inductive pyval : Type :=
| PyNone
| PyBool (b : bool)
| PyInt (z : Z)
| PyFloat (q : Q)
| PyObject (truth : bool).

Definition truthy (v : pyval) : bool :=
  match v with
  | PyNone => false
  | PyBool b => b
  | PyInt z => negb (z =? 0)%Z
  | PyFloat q => negb (Qeq_bool q 0)
  | PyObject b => b
  end.

Definition py_size (o : option nat) : pyval :=
  match o with Some n => PyInt (Z.of_nat n) | None => PyNone end.

Definition py_list {A : Type} (l : list A) : pyval :=
  PyObject (negb (length l =? 0)).

(** The attributes the constructor sets on the instance (lines 188-224 and
    the [add_*] methods it calls), in the order of their assignment. *)
Definition instance_dict (self : GraphNetwork) : list (string * pyval) :=
  [ ("my_layers", PyObject false);
    ("out_dim", PyInt (Z.of_nat (out_dim self)));
    ("cuda", PyBool (cuda self));
    ("adj", PyObject true);
    ("nb_nodes", PyInt (Z.of_nat (nb_nodes self)));
    ("channels", py_list (channels self));
    ("embedding", py_size (embedding self));
    ("graph_layer_type", PyObject true);
    ("aggregate_adj",
      match aggregate_adj self with Some _ => PyObject true | None => PyNone end);
    ("transform_adj", py_list (transform_adj self));
    ("dropout", PyBool (dropout self));
    ("attention_head", PyInt (attention_head self));
    ("master_nodes", PyInt (master_nodes self));
    ("prepool_extralayers", PyInt (prepool_extralayers self));
    ("input_dim", PyInt (Z.of_nat (input_dim self)));
    ("gating", PyFloat (gating self)) ]
  ++ (match emb self with Some _ => [("emb", PyObject true)] | None => [] end)
  ++ [ ("dims", py_list (dims self));
       ("conv_layers", py_list (conv_layers self));
       ("my_logistic_layers", py_list (my_logistic_layers self));
       ("gating_layers", py_list (gating_layers self));
       ("dropout_layers", py_list (dropout_layers self)) ]
  ++ (match attention_layer self with
      | Some _ => [("attention_layer", PyObject true)]
      | None => []
      end)
  ++ [ ("grads", PyObject false);
       ("save_grad", PyObject true) ].

(** The methods of the class and the public names it inherits from
    [nn.Module]. *)
Definition class_attributes : list string :=
  [ "add_embedding_layer"; "add_dropout_layers";
    "add_graph_convolutional_layers"; "add_gating_layers";
    "add_logistic_layer"; "forward"; "get_representation";
    "load_state_dict";
    "training"; "dump_patches"; "add_module"; "apply"; "buffers";
    "children"; "cpu"; "double"; "eval"; "extra_repr"; "float"; "half";
    "modules"; "named_buffers"; "named_children"; "named_modules";
    "named_parameters"; "parameters"; "register_backward_hook";
    "register_buffer"; "register_forward_hook";
    "register_forward_pre_hook"; "register_parameter"; "requires_grad_";
    "share_memory"; "state_dict"; "to"; "train"; "type"; "zero_grad" ]%string.

Fixpoint assoc {A : Type} (name : string) (l : list (string * A)) : option A :=
  match l with
  | [] => None
  | (k, v) :: l' => if String.eqb name k then Some v else assoc name l'
  end.

Definition getattr (self : GraphNetwork) (name : string) : result pyval :=
  match assoc name (instance_dict self) with
  | Some v => Ok v
  | None =>
      if existsb (String.eqb name) class_attributes then Ok (PyObject true)
      else Raise AttributeError
  end.

(** [add_rep] of lines 310-311: reads what the hook left on the module. *)
Definition add_rep (st : gmap string capture) (module_name name : string)
  (rep : gmap string capture) : result (gmap string capture) :=
  match st !! module_name with
  | Some (mkCapture i (OutTensor o)) =>
      Ok (<[name := mkCapture i (OutTensor o)]> rep)
  | Some (mkCapture _ (OutPair _ _)) => Raise AttributeError
  | None => Raise AttributeError
  end.

(** Lines 309-333. *)
Definition get_representation (self : GraphNetwork)
  (st : gmap string capture) : result (gmap string capture) :=
  let representation : gmap string capture := ∅ in
  let* add_emb := getattr self "add_emb" in
  let* representation :=
    if truthy add_emb then
      match emb self with
      | Some _ => add_rep st "emb" "emb" representation
      | None => Raise AttributeError
      end
    else Ok representation in
  let* representation :=
    fold_left
      (fun acc '(i, (layer, gate)) =>
         let* representation := acc in
         if Qpositive (gating self) then
           let* representation :=
             add_rep st ("conv_layers." +:+ pretty i) ("layer_" +:+ pretty i)
               representation in
           match gate : option ElementwiseGateLayer with
           | Some _ =>
               add_rep st ("gating_layers." +:+ pretty i)
                 ("gate_" +:+ pretty i) representation
           | None => Raise AttributeError
           end
         else
           add_rep st ("conv_layers." +:+ pretty i) ("layer_" +:+ pretty i)
             representation)
      (enumerate (combine (conv_layers self) (gating_layers self)))
      (Ok representation) in
  let* representation :=
    match rev (my_logistic_layers self) with
    | [] => Raise IndexError
    | _ :: _ => add_rep st (logistic_name self) "logistic" representation
    end in
  if negb (attention_head self =? 0)%Z then
    match attention_layer self with
    | Some _ =>
        match st !! "attention_layer" with
        | Some (mkCapture i (OutPair a w)) =>
            Ok (<["attention" := mkCapture i (OutPair a w)]> representation)
        | Some (mkCapture _ (OutTensor _)) => Raise IndexError
        | None => Raise AttributeError
        end
    | None => Raise AttributeError
    end
  else Ok representation.

(** *** Parameter import *)

(** The element types of the tensors of the substrate. *)
Inductive dtype : Set := Float16 | Float32 | Float64 | Int32 | Int64.

Definition dtype_eqb (a b : dtype) : bool :=
  match a, b with
  | Float16, Float16 | Float32, Float32 | Float64, Float64
  | Int32, Int32 | Int64, Int64 => true
  | _, _ => false
  end.

(** A value of the source mapping: a tensor with its element type, a
    serialized parameter whose [data] is such a tensor, or any other Python
    object. *)
Inductive state_value : Type :=
| SVTensor (dt : dtype) (t : tensor)
| SVParameter (dt : dtype) (t : tensor)
| SVOther.

(** A value of the element type [src] stored into a tensor of the element
    type [dst]: [cast] is the conversion of the substrate between two
    different element types. *)
Definition convert (cast : dtype -> dtype -> R -> R) (src dst : dtype)
  (v : R) : R :=
  if dtype_eqb src dst then v else cast src dst v.

(** [dst.copy_(src)] for a destination of element type [dt]: an argument
    that is not a tensor is a TypeError; a tensor is expanded to the shape of
    the destination, which raises when it cannot be, and its values are
    converted to the element type of the destination. *)
Definition copy_ (cast : dtype -> dtype -> R -> R) (dt : dtype)
  (dst : tensor) (src : state_value) : result tensor :=
  match src with
  | SVOther => Raise TypeError
  | SVTensor sdt src | SVParameter sdt src =>
      match broadcast_shapes (shape dst) (shape src) with
      | Ok s =>
          if decide (s = shape dst) then
            Ok (tabulate (shape dst)
                  (fun idx => convert cast sdt dt (get src (bidx (shape src) idx))))
          else Raise RuntimeError
      | Raise _ => Raise RuntimeError
      end
  end.

(** Lines 341-343: a serialized parameter is replaced by its data. *)
Definition parameter_data (param : state_value) : state_value :=
  match param with
  | SVParameter dt d => SVTensor dt d
  | _ => param
  end.

(** Lines 336-347.  [own_state] is the parameter set of the network, which
    the copies update in place, [dtype_of] the element type of each of its
    tensors; the result is the set afterwards.  The source mapping is given
    by its items, in iteration order.  The handler of line 346 catches two
    classes of exceptions; any other one leaves the loop. *)
Definition load_state_dict (cast : dtype -> dtype -> R -> R)
  (dtype_of : string -> dtype) (own_state : gmap string tensor)
  (state_dict : list (string * state_value)) : result (gmap string tensor) :=
  fold_left
    (fun acc '(name, param) =>
       let* own_state := acc in
       match own_state !! name with
       | None => Ok own_state
       | Some cur =>
           let param := parameter_data param in
           match copy_ cast (dtype_of name) cur param with
           | Ok new => Ok (<[name := new]> own_state)
           | Raise AttributeError => Ok own_state
           | Raise RuntimeError => Ok own_state
           | Raise e => Raise e
           end
       end)
    state_dict (Ok own_state).

(** ** The remaining layers of [model_layers.py] *)

(** A dimension argument, a negative one counting from the end. *)
Definition norm_dim (rank : nat) (d : Z) : result nat :=
  let r := Z.of_nat rank in
  let d' := if (d <? 0)%Z then (d + r)%Z else d in
  if ((0 <=? d') && (d' <? r))%Z then Ok (Z.to_nat d') else Raise IndexError.

(** [x.sum(dim=d)] with a possibly negative [d]. *)
Definition sum_along (t : FTorch.tensor) (d : Z) : result FTorch.tensor :=
  let* k := norm_dim (length (FTorch.shape t)) d in
  FTorch.sum_dim t k.

(** *** SoftPoolingLayer *)

Record SoftPoolingLayer : Type := mkSoftPoolingLayer {
  sp_in_dim : nat;
  sp_nb_attention_head : nat;
  sp_attn : Linear;
  sp_temperature : R
}.

Definition SoftPoolingLayer_init (init : list nat -> R)
  (in_dim nb_attention_head : nat) : SoftPoolingLayer :=
  mkSoftPoolingLayer in_dim nb_attention_head
    (nn_Linear init in_dim nb_attention_head) 1%R.

(** Lines 69-78, on tensors of the format [fmt]. *)
Definition SoftPoolingLayer_forward (fmt : format) (self : SoftPoolingLayer)
  (x : tensor) : result FTorch.tensor :=
  let* '(nb_examples, nb_nodes, nb_channels) := size3 x in
  let* x := view x [-1; Z.of_nat nb_channels]%Z in
  let* scores := Linear_forward (sp_attn self) x in
  let attn_weights :=
    FTorch.map_real (fun v => Float.exp fmt (Fin (v * sp_temperature self)))
      scores in
  let* attn_weights :=
    FTorch.view attn_weights [Z.of_nat nb_examples; Z.of_nat nb_nodes;
                              Z.of_nat (sp_nb_attention_head self)] in
  let* total := FTorch.sum_dim attn_weights 1 in
  let* total := FTorch.unsqueeze total 1 in
  let* attn_weights := FTorch.div attn_weights total in
  let* attn_weights := sum_along attn_weights (-1) in
  FTorch.unsqueeze attn_weights (-1).

(** *** The classifier heads *)

(** Lines 133-137. *)
Definition SparseLogisticRegression_forward (self : SparseLogisticRegression)
  (x : tensor) : result tensor :=
  let* '(nb_examples, nb_nodes, nb_channels) := size3 x in
  let* x := view x [Z.of_nat nb_examples; -1]%Z in
  match rev (slr_my_logistic_layers self) with
  | [] => Raise IndexError
  | l :: _ => Linear_forward l x
  end.

(** Lines 139-145.  The weights are finite, the Laplacian holds floats.
    Moving the Laplacian to the device changes no value. *)
Definition regularization (self : SparseLogisticRegression) (reg_lambda : R)
  : result float :=
  let laplacian := slr_laplacian self in
  match rev (slr_my_logistic_layers self) with
  | [] => Raise IndexError
  | l :: _ =>
      let weight := weight l in
      let* prod := FTorch.mm (FTorch.of_real (map_t Rabs weight)) laplacian in
      let* reg := FTorch.mul prod (FTorch.of_real (map_t Rabs weight)) in
      Ok (Float.mul (FTorch.sum_all reg) (Fin reg_lambda))
  end.

Record LogisticRegression : Type := mkLogisticRegression {
  lr_nb_nodes : nat;
  lr_input_dim : nat;
  lr_out_dim : nat;
  lr_cuda : bool;
  lr_my_logistic_layers : list Linear
}.

(** Lines 149-163. *)
Definition LogisticRegression_init (init : list nat -> R)
  (nb_nodes input_dim : nat) (out_dim : option nat) (cuda : bool)
  : LogisticRegression :=
  let out_dim := match out_dim with Some d => d | None => 2 end in
  let logistic_in_dim := nb_nodes * input_dim in
  let logistic_layer := nn_Linear init logistic_in_dim out_dim in
  mkLogisticRegression nb_nodes input_dim out_dim cuda [logistic_layer].

(** Lines 165-169. *)
Definition LogisticRegression_forward (self : LogisticRegression)
  (x : tensor) : result tensor :=
  let* '(nb_examples, nb_nodes, nb_channels) := size3 x in
  let* x := view x [Z.of_nat nb_examples; -1]%Z in
  match rev (lr_my_logistic_layers self) with
  | [] => Raise IndexError
  | l :: _ => Linear_forward l x
  end.

(** *** MLP *)

Record MLP : Type := mkMLP {
  mlp_out_dim : nat;
  mlp_cuda : bool;
  mlp_dropout : bool;
  mlp_my_layers : list Linear;
  mlp_last_layer : Linear;
  mlp_my_dropout : option Q
}.

(** Lines 366-394. *)
Definition MLP_init (init : string -> list nat -> R)
  (input_dim : option nat) (channels : list nat) (out_dim : option nat)
  (cuda dropout : bool) : result MLP :=
  let out_dim := match out_dim with Some d => d | None => 2 end in
  let input_dim := match input_dim with Some d => d | None => 2 end in
  let dims := input_dim :: channels in
  let layers :=
    map (fun '(i, (c_in, c_out)) =>
           nn_Linear (init ("layer_" +:+ pretty i)) c_in c_out)
        (enumerate (combine (removelast dims) (tl dims))) in
  let last_layer :=
    match rev channels with
    | c :: _ => nn_Linear (init "last_layer") c out_dim
    | [] => nn_Linear (init "last_layer") input_dim out_dim
    end in
  let* my_dropout :=
    if dropout then let* p := nn_Dropout (1 # 2) in Ok (Some p)
    else Ok None in
  Ok (mkMLP out_dim cuda dropout layers last_layer my_dropout).

(** [x.permute(0, 2, 1).contiguous()] *)
Definition permute_021 (x : tensor) : result tensor :=
  match shape x with
  | [e; n; c] =>
      Ok (tabulate [e; c; n]
            (fun idx => match idx with
                        | [i; j; k] => get x [i; k; j]
                        | _ => 0%R
                        end))
  | _ => Raise RuntimeError
  end.

(** One iteration of the loop of lines 399-403. *)
Definition MLP_stage (self : MLP) (training : bool)
  (keep : nat -> list nat -> bool) (nb_examples : nat)
  (acc : result tensor) (item : nat * Linear) : result tensor :=
  let* x := acc in
  let '(i, layer) := item in
  let* flat := view x [Z.of_nat nb_examples; -1]%Z in
  let* y := Linear_forward layer flat in
  let x := map_t relu y in
  if mlp_dropout self then
    match mlp_my_dropout self with
    | Some p => Ok (Dropout_forward p training (keep i) x)
    | None => Raise TypeError
    end
  else Ok x.

(** Lines 396-407. *)
Definition MLP_forward (self : MLP) (training : bool)
  (keep : nat -> list nat -> bool) (x : tensor) : result tensor :=
  let* '(nb_examples, nb_nodes, nb_channels) := size3 x in
  let* x := permute_021 x in
  let* x := fold_left (MLP_stage self training keep nb_examples)
              (enumerate (mlp_my_layers self)) (Ok x) in
  let* flat := view x [Z.of_nat nb_examples; -1]%Z in
  Linear_forward (mlp_last_layer self) flat.

(** ** Notions the statements are written with *)

(** The drop probability of a stage of [dropout_layers]: an absent stage
    is skipped by the forward pass (line 294) and drops nothing. *)
Definition drop_probability (stage : option Q) : Q :=
  match stage with
  | Some p => p
  | None => 0
  end.

(** The layers one channel-width stage contributes: the same-width layers
    that come first, then the layer that changes the width. *)
Definition extra_layer (adj : tensor) (cuda : bool) (i c_in : nat)
  : GraphLayer :=
  mkGraphLayer adj c_in c_in cuda i None None false.

Definition width_layer (adj : tensor) (cuda : bool)
  (transform_adj : list adj_hook) (aggregate_adj : option adj_hook)
  (i c_in c_out : nat) : GraphLayer :=
  mkGraphLayer adj c_in c_out cuda i (Some transform_adj) aggregate_adj true.

Definition stage_extras (aggregate_adj : option adj_hook)
  (prepool_extralayers : Z) : nat :=
  match aggregate_adj with
  | Some _ => Z.to_nat prepool_extralayers
  | None => 0
  end.

Definition stage_block (adj : tensor) (cuda : bool)
  (transform_adj : list adj_hook) (aggregate_adj : option adj_hook)
  (prepool_extralayers : Z) (i c_in c_out : nat) : list GraphLayer :=
  repeat (extra_layer adj cuda i c_in)
    (stage_extras aggregate_adj prepool_extralayers)
  ++ [width_layer adj cuda transform_adj aggregate_adj i c_in c_out].

Definition in_unit_interval (v : R) : Prop := (0 <= v <= 1)%R.

(** A source value that is a tensor, serialized or not. *)
Definition is_tensor (v : state_value) : bool :=
  match v with
  | SVOther => false
  | _ => true
  end.

(** The tensor a source value holds. *)
Definition tensor_of (v : state_value) : tensor :=
  match v with
  | SVTensor _ t | SVParameter _ t => t
  | SVOther => mkTensor [] []
  end.

(** The element type of a source value. *)
Definition dtype_in (v : state_value) (default : dtype) : dtype :=
  match v with
  | SVTensor dt _ | SVParameter dt _ => dt
  | SVOther => default
  end.

(** The source mapping holds a tensor, serialized or not, under every name
    of the parameter set that it mentions. *)
Definition importable (own_state : gmap string tensor)
  (state_dict : list (string * state_value)) : bool :=
  forallb (fun entry : string * state_value =>
             match own_state !! entry.1 with
             | None => true
             | Some _ => is_tensor entry.2
             end) state_dict.

(** What one source entry leaves of the parameter set once the exception
    handler of lines 344-347 has run. *)
Definition import_entry (cast : dtype -> dtype -> R -> R)
  (dtype_of : string -> dtype) (own_state : gmap string tensor)
  (entry : string * state_value) : gmap string tensor :=
  match own_state !! entry.1 with
  | None => own_state
  | Some cur =>
      match copy_ cast (dtype_of entry.1) cur (parameter_data entry.2) with
      | Ok new => <[entry.1 := new]> own_state
      | Raise _ => own_state
      end
  end.

(** The entry [D[j]] of the degree vector of a square adjacency of size
    [n], and the factor [D[j] ** -0.5] where it is positive. *)
Definition degree (adj : tensor) (n j : nat) : R :=
  (Rsum n (fun k => get adj [k; j]) + epsilon)%R.

Definition inv_sqrt_degree (adj : tensor) (n j : nat) : R :=
  (/ sqrt (degree adj n j))%R.

Definition delta (i j : nat) : R := if i =? j then 1%R else 0%R.

(** [adj.sum(0)] of a square adjacency of size [n]. *)
Definition column_sums (adj : tensor) (n : nat) : tensor :=
  tabulate [n] (fun idx => Rsum n (fun k => get adj (insert_at 0 k idx))).

(** The score of a head [h] at node [n] of example [e]: the linear layer
    [l] on the channels of the node, times the temperature [t]. *)
Definition affine_score (l : Linear) (x : tensor) (e n h : nat) : R :=
  (Rsum (in_features l) (fun k => get x [e; n; k] * get (weight l) [h; k])
   + get (bias l) [h])%R.

Definition head_score (l : Linear) (t : R) (x : tensor) (e n h : nat) : R :=
  (affine_score l x e n h * t)%R.

(** The exponentials of the scores [s] of [N] nodes stay within the format:
    their sum, hence each of them, does not exceed the largest finite value,
    and one of them at least does not round to zero. *)
Definition exp_in_range (fmt : format) (N : nat) (s : nat -> R) : Prop :=
  (Rsum N (fun n => exp (s n)) <= max_finite fmt)%R /\
  exists n, n < N /\ (half_min fmt < exp (s n))%R.












Definition layer_widths (l : GraphLayer) : nat * nat * bool :=
  (gl_c_in l, gl_c_out l, gl_hooked l).

(** The items a parameter set exports, as a source mapping. *)
Definition export_items (dtype_of : string -> dtype)
  (own_state : gmap string tensor) : list (string * state_value) :=
  map (fun '(name, t) => (name, SVTensor (dtype_of name) t))
      (map_to_list own_state).

(** The value of the regulariser for a weight matrix [W] of [out_dim] rows
    and a Laplacian [L] of size [n], before the factor [reg_lambda]. *)
Definition smoothness (W : tensor) (L : FTorch.tensor) (out_dim n : nat)
  : float :=
  Float.sum out_dim
    (fun o => Float.sum n
       (fun j => Float.mul
                   (Float.sum n (fun i => Float.mul (Fin (Rabs (get W [o; i])))
                                            (FTorch.get L [i; j])))
                   (Fin (Rabs (get W [o; j]))))).

(** The layers of a list feed one another: each takes the width the one
    before it returns, the first one the width [d]. *)
Fixpoint chained (d : nat) (ls : list Linear) : Prop :=
  match ls with
  | [] => True
  | l :: ls => in_features l = d /\ chained (out_features l) ls
  end.

(** The width that leaves a list of layers entered with the width [d]. *)
Fixpoint final_width (d : nat) (ls : list Linear) : nat :=
  match ls with
  | [] => d
  | l :: ls => final_width (out_features l) ls
  end.

(** The last entry of [channels], or [d] for no channels (lines 386-389). *)
Definition last_dim (d : nat) (channels : list nat) : nat :=
  match rev channels with
  | c :: _ => c
  | [] => d
  end.

(** The defaults of lines 368-369. *)
Definition or_two (o : option nat) : nat :=
  match o with
  | Some d => d
  | None => 2
  end.

(** ** Concrete inputs *)

Definition zero_init : list nat -> R := fun _ => 0%R.

Definition zero_params : string -> list nat -> R := fun _ _ => 0%R.

(** A layer type that meets the contract: it checks the channels of its
    input and returns zeros of the output width. *)
Definition zero_layer : layer_type :=
  fun layer t =>
    match shape t with
    | [E; N; C] =>
        if C =? gl_c_in layer
        then Ok (tabulate [E; N; gl_c_out layer] (fun _ => 0%R))
        else Raise RuntimeError
    | _ => Raise RuntimeError
    end.

Definition keep_all : nat -> list nat -> bool := fun _ _ => true.

(** A directed edge from node 0 to node 1. *)
Definition directed_edge : tensor := mkTensor [2; 2] [0; 1; 0; 0]%R.

(** One undirected edge of weight -1. *)
Definition negative_edge : tensor := mkTensor [2; 2] [0; -1; -1; 0]%R.

(** A cycle on four nodes, with ones left on the diagonal. *)
Definition cycle4 : tensor :=
  mkTensor [4; 4] [1; 1; 0; 1;
                   1; 1; 1; 0;
                   0; 1; 1; 1;
                   1; 0; 1; 1]%R.

(** The same cycle with its diagonal zeroed. *)
Definition cycle4_adj : tensor :=
  mkTensor [4; 4] [0; 1; 0; 1;
                   1; 0; 1; 0;
                   0; 1; 0; 1;
                   1; 0; 1; 0]%R.

(** A parameter set and a source mapping: one entry of a shape that cannot
    be copied, one that can, one of a name the network does not have. *)
Definition own_state0 : gmap string tensor :=
  <["weight" := tabulate [2; 3] (fun _ => 0%R)]>
    (<["bias" := tabulate [2] (fun _ => 0%R)]> ∅).

Definition state_dict0 : list (string * state_value) :=
  [ ("weight", SVTensor Float32 (tabulate [4; 5] (fun _ => 1%R)));
    ("bias", SVParameter Float32 (tabulate [2] (fun _ => 1%R)));
    ("other", SVOther) ].

(** A source mapping that holds a list where the parameter set has a
    tensor. *)
Definition state_dict_list : list (string * state_value) :=
  [ ("bias", SVTensor Float32 (tabulate [2] (fun _ => 1%R)));
    ("weight", SVOther) ].

(** All the parameters are single-precision floats. *)
Definition all_float32 : string -> dtype := fun _ => Float32.

(** A conversion that keeps every value. *)
Definition exact_cast : dtype -> dtype -> R -> R := fun _ _ v => v.

(** A gate on one channel and an input of one example and one node. *)
Definition gate0 : ElementwiseGateLayer := ElementwiseGateLayer_init zero_init 1.

Definition gate_input0 : tensor := mkTensor [1; 1; 1] [0%R].

Definition gate_output0 : tensor :=
  match ElementwiseGateLayer_forward gate0 gate_input0 with
  | Ok g => g
  | Raise _ => gate_input0
  end.

(** An attention layer with one head on one channel, and an input of one
    example with two nodes. *)
Definition attention0 : AttentionLayer := AttentionLayer_init zero_init 1 1.

Definition attention_input0 : list R := [0%R; 0%R].

(** A head that scores a node by its one channel, and an input whose first
    node has a score beyond the range of the exponential. *)
Definition attention_unit : AttentionLayer :=
  mkAttentionLayer 1 1 (mkLinear 1 1 (mkTensor [1; 1] [1%R]) (mkTensor [1] [0%R]))
    1%R.

Definition attention_input_100 : list R := [100%R; 0%R].

(** A pass that records gradients on the CPU, all parameters requiring
    grad, and a pass under [torch.no_grad()]. *)
Definition recording : runtime :=
  mkRuntime true false (fun _ => true) Float.binary32 OnCpu.

Definition no_grad : runtime :=
  mkRuntime false false (fun _ => true) Float.binary32 OnCpu.

Definition input_2_4_3 : tensor := tabulate [2; 4; 3] (fun _ => 0%R).

Definition input_2_4_1 : tensor := tabulate [2; 4; 1] (fun _ => 0%R).


(** Three input channels, one stage of width 8, gating, dropout and two
    attention heads; no embedding. *)
Definition args_all : GraphNetwork_args :=
  mkArgs 3 [8] cycle4_adj None false None None None 0 zero_layer
         (1 # 100) true 2 0.

(** The same input width with an embedding of size 32. *)
Definition args_embedding : GraphNetwork_args :=
  mkArgs 3 [8] cycle4_adj None false (Some 32) None None 0 zero_layer
         0 false 0 0.



(** One same-width extra layer before the pooling layer. *)
Definition args_extra : GraphNetwork_args :=
  mkArgs 3 [8] cycle4_adj None false None None (Some (AdjHook "pool")) 1
         zero_layer 0 false 0 0.

(** The network a constructor call has built; [no_network] stands for the
    call that raised. *)
Definition no_network : GraphNetwork :=
  mkGraphNetwork 0 false (mkTensor [] []) 0 [] None zero_layer None [] false
    0 0 0 0 0 None [] [] [] [] [] None.

Definition built (r : result GraphNetwork) : GraphNetwork :=
  match r with
  | Ok self => self
  | Raise _ => no_network
  end.

Definition network_all : GraphNetwork :=
  built (GraphNetwork_init zero_params args_all).

Definition network_embedding : GraphNetwork :=
  built (GraphNetwork_init zero_params args_embedding).

Definition network_extra : GraphNetwork :=
  built (GraphNetwork_init zero_params args_extra).



(** A soft pooling layer with three heads on one channel, and its output
    on an input of one example with two nodes. *)
Definition softpool0 : SoftPoolingLayer := SoftPoolingLayer_init zero_init 1 3.

Definition softpool_output0 : FTorch.tensor :=
  match SoftPoolingLayer_forward Float.binary32 softpool0
          (mkTensor [1; 2; 1] attention_input0) with
  | Ok out => out
  | Raise _ => FTorch.mkTensor [] []
  end.

(** A stage of width 8 on three input channels. *)
Definition layer_3_8 : GraphLayer := width_layer cycle4_adj false [] None 0 3 8.

(** Draws that keep the even nodes and drop the odd ones. *)
Definition keep_even : nat -> list nat -> bool :=
  fun _ idx => match idx with
               | [_; n] => Nat.even n
               | _ => true
               end.

(** A perceptron on 12 features with hidden widths 5 and 3, with dropout. *)
Definition mlp_12_5_3 : result MLP :=
  MLP_init zero_params (Some 12) [5; 3] (Some 2) true true.

(** A perceptron that expects 7 features. *)
Definition mlp_7 : result MLP :=
  MLP_init zero_params (Some 7) [5; 3] None true false.

(** A perceptron without hidden layers on 12 features. *)
Definition mlp_12 : result MLP :=
  MLP_init zero_params (Some 12) [] None true false.

(** * Properties *)

(** ** Small runs of the model *)

Example view_infers_rows : view_shape 24 [-1; 3]%Z = Ok [8; 3].
Proof. reflexivity. Qed.

Example view_two_unknowns : view_shape 24 [-1; -1]%Z = Raise RuntimeError.
Proof. reflexivity. Qed.

Example view_no_examples : view_shape 0 [0; -1]%Z = Raise RuntimeError.
Proof. reflexivity. Qed.

Example broadcast_gate : broadcast_shapes [2; 4; 1] [2; 4; 8] = Ok [2; 4; 8].
Proof. reflexivity. Qed.

Example broadcast_embedding_mismatch :
  broadcast_shapes [2; 4; 3] [4; 32] = Raise RuntimeError.
Proof. reflexivity. Qed.

Example fill_diagonal_cycle4 : Numpy.fill_diagonal cycle4 0%R = Ok cycle4_adj.
Proof. reflexivity. Qed.

Example fill_diagonal_cube :
  Numpy.fill_diagonal (mkTensor [2; 2; 2] [1; 1; 1; 1; 1; 1; 1; 1]%R) 0%R
  = Ok (mkTensor [2; 2; 2] [0; 1; 1; 1; 1; 1; 1; 0]%R).
Proof. reflexivity. Qed.

Example fill_diagonal_unequal :
  Numpy.fill_diagonal (tabulate [2; 3; 2] (fun _ => 1%R)) 0%R = Raise ValueError.
Proof. reflexivity. Qed.

Example dropout_five_stages :
  add_dropout_layers [3; 8; 8; 8; 8; 8] true
  = Ok [Some (1 # 10); Some (2 # 10); Some (3 # 10); Some (4 # 10);
        Some (4 # 10)]%Q.
Proof. reflexivity. Qed.

Example dropout_disabled :
  add_dropout_layers [3; 8; 8] false = Ok [None; None].
Proof. reflexivity. Qed.

Example conv_stack_with_extras :
  map layer_widths
    (add_graph_convolutional_layers cycle4_adj [3; 8; 4] false []
       (Some (AdjHook "pool")) 2)
  = [(3, 3, false); (3, 3, false); (3, 8, true);
     (8, 8, false); (8, 8, false); (8, 4, true)].
Proof. reflexivity. Qed.

Example conv_stack_without_aggregate :
  map layer_widths
    (add_graph_convolutional_layers cycle4_adj [3; 8; 4] false [] None 2)
  = [(3, 8, true); (8, 4, true)].
Proof. reflexivity. Qed.

Example static_gate_four_nodes :
  StaticElementwiseGateLayer_forward (StaticElementwiseGateLayer_init 8)
    input_2_4_3 = Raise RuntimeError.
Proof. reflexivity. Qed.

Example getattr_embedding : getattr network_all "embedding" = Ok PyNone.
Proof. reflexivity. Qed.

Example getattr_add_emb : getattr network_all "add_emb" = Raise AttributeError.
Proof. reflexivity. Qed.

(** With the embedding enabled an input of one channel per node goes
    through. *)
Example forward_with_embedding :
  exists y st',
    forward network_embedding recording false keep_all ∅ input_2_4_1
    = Ok (y, st') /\
    FTorch.shape y = [2; 2].
Proof. eexists _, _. split; reflexivity. Qed.

(** With a same-width extra layer the stack has two layers and the zip of
    line 281 keeps only the first: the classifier then receives the input
    width instead of the last channel width. *)
Example forward_with_extra_layer :
  map layer_widths (conv_layers network_extra) = [(3, 3, false); (3, 8, true)]
  /\ forward network_extra recording false keep_all ∅ input_2_4_3
     = Raise RuntimeError.
Proof. split; reflexivity. Qed.

(** ** Indexing lemmas of the tensor model *)

Section TensorFacts.

Lemma length_flat_map_uniform {A B : Type} (f : A -> list B) (k : nat) l :
  (forall a, length (f a) = k) -> length (flat_map f l) = length l * k.
Proof.
  intros Hk. induction l as [|a l IH]; simpl; [reflexivity|].
  rewrite length_app, Hk, IH. reflexivity.
Qed.

Lemma nth_flat_map_uniform {A B : Type} (f : A -> list B) (k : nat) l i j d a0 :
  (forall a, length (f a) = k) -> i < length l -> j < k ->
  nth (i * k + j) (flat_map f l) d = nth j (f (nth i l a0)) d.
Proof.
  intros Hk. revert i. induction l as [|a l IH]; intros i Hi Hj; simpl in *.
  - lia.
  - destruct i as [|i].
    + simpl. rewrite app_nth1 by (rewrite Hk; lia). reflexivity.
    + rewrite app_nth2 by (rewrite Hk; simpl; lia).
      rewrite Hk. replace (S i * k + j - k) with (i * k + j) by (simpl; lia).
      apply IH; [lia | assumption].
Qed.

Lemma length_indices s : length (indices s) = numel s.
Proof.
  induction s as [|n s IH]; simpl; [reflexivity|].
  rewrite (length_flat_map_uniform _ (numel s)).
  - rewrite length_seq. reflexivity.
  - intros a. rewrite length_map. exact IH.
Qed.

Lemma ravel_lt s idx : in_bounds s idx -> ravel s idx < numel s.
Proof.
  intros H. induction H as [|i n idx s Hi _ IH]; simpl; [lia|].
  nia.
Qed.

Lemma nth_indices s idx d :
  in_bounds s idx -> nth (ravel s idx) (indices s) d = idx.
Proof.
  intros H. revert d. induction H as [|i n idx s Hi Hb IH]; intros d; simpl.
  - reflexivity.
  - rewrite (nth_flat_map_uniform _ (numel s) _ _ _ _ 0).
    + rewrite seq_nth by assumption. simpl.
      rewrite (nth_indep _ d (i :: d)).
      * rewrite map_nth. rewrite IH. reflexivity.
      * rewrite length_map, length_indices. apply ravel_lt. assumption.
    + intros a. rewrite length_map. apply length_indices.
    + rewrite length_seq. assumption.
    + apply ravel_lt. assumption.
Qed.

Lemma wf_tabulate s f : wf (tabulate s f).
Proof. unfold wf, tabulate; simpl. rewrite length_map. apply length_indices. Qed.

Lemma get_tabulate s f idx :
  in_bounds s idx -> get (tabulate s f) idx = f idx.
Proof.
  intros H. unfold get, tabulate; simpl.
  rewrite (nth_indep _ 0%R (f idx)).
  - rewrite map_nth. rewrite nth_indices by assumption. reflexivity.
  - rewrite length_map, length_indices. apply ravel_lt. assumption.
Qed.

Lemma get_map_t f t idx :
  wf t -> in_bounds (shape t) idx -> get (map_t f t) idx = f (get t idx).
Proof.
  intros Hwf Hb. unfold get, map_t; simpl.
  rewrite (nth_indep _ 0%R (f 0%R)).
  - apply map_nth.
  - rewrite length_map, Hwf. apply ravel_lt. assumption.
Qed.

Lemma wf_map_t f t : wf t -> wf (map_t f t).
Proof. unfold wf, map_t; simpl. rewrite length_map. auto. Qed.

Lemma in_bounds_in_indices s idx : In idx (indices s) -> in_bounds s idx.
Proof.
  revert idx. induction s as [|n s IH]; intros idx Hin; simpl in Hin.
  - destruct Hin as [<-|[]]. constructor.
  - apply in_flat_map in Hin as [i [Hi Hin]].
    apply in_map_iff in Hin as [idx' [<- Hin]].
    apply in_seq in Hi. constructor; [lia | apply IH; assumption].
Qed.

(** Every entry of a tabulated tensor is a value of the generator at an
    index within bounds. *)
Lemma Forall_tabulate (P : R -> Prop) s f :
  (forall idx, in_bounds s idx -> P (f idx)) ->
  Forall P (data (tabulate s f)).
Proof.
  intros H. unfold tabulate; simpl. apply List.Forall_forall.
  intros v Hv. apply in_map_iff in Hv as [idx [<- Hin]].
  apply H, in_bounds_in_indices, Hin.
Qed.

Lemma Forall_get (P : R -> Prop) t idx :
  wf t -> in_bounds (shape t) idx -> Forall P (data t) -> P (get t idx).
Proof.
  intros Hwf Hb HP. unfold get.
  rewrite List.Forall_forall in HP. apply HP, nth_In.
  rewrite Hwf. apply ravel_lt, Hb.
Qed.

End TensorFacts.

(** ** The dropout schedule *)

Section DropoutSchedule.

Local Open Scope Q_scope.

Lemma dropout_p_enabled i :
  dropout_p true i == Qmin ((Z.of_nat i + 1) # 10) (4 # 10).
Proof. unfold dropout_p, int_of_bool; simpl. ring. Qed.

Lemma dropout_p_range i : 0 <= dropout_p true i /\ dropout_p true i <= 4 # 10.
Proof.
  rewrite dropout_p_enabled. split.
  - apply Q.min_glb; unfold Qle; simpl; lia.
  - apply Q.le_min_r.
Qed.

Lemma nn_Dropout_schedule i : nn_Dropout (dropout_p true i) = Ok (dropout_p true i).
Proof.
  unfold nn_Dropout. destruct (dropout_p_range i) as [H0 H1].
  assert (Hle1 : dropout_p true i <= 1).
  { eapply Qle_trans; [exact H1|]. unfold Qle; simpl; lia. }
  apply Qle_bool_iff in H0, Hle1. rewrite H0, Hle1. reflexivity.
Qed.

Lemma collect_map_ok {A B : Type} (f : A -> result B) (g : A -> B) l :
  (forall a, f a = Ok (g a)) -> collect (map f l) = Ok (map g l).
Proof.
  intros H. induction l as [|a l IH]; simpl; [reflexivity|].
  rewrite H, IH. reflexivity.
Qed.

Lemma add_dropout_layers_enabled dims :
  add_dropout_layers dims true =
  Ok (map (fun i => Some (dropout_p true i)) (seq 0 (length dims - 1))).
Proof.
  unfold add_dropout_layers.
  rewrite (collect_map_ok _ (dropout_p true)) by apply nn_Dropout_schedule.
  simpl. rewrite map_map. reflexivity.
Qed.

Lemma dropout_p_mono i j : (i <= j)%nat -> dropout_p true i <= dropout_p true j.
Proof.
  intros Hij. rewrite !dropout_p_enabled.
  apply Q.min_le_compat_r. unfold Qle; simpl. lia.
Qed.

End DropoutSchedule.

(** C5: the dropout stages of a network are built without error, one per
    channel-width stage; when the dropout option is enabled the stage at
    index [i] drops with probability [min ((i+1)/10, 0.4)], when it is
    disabled every stage is absent and drops with probability 0; the
    probabilities never decrease with the index and never exceed 0.4. *)
Theorem dropout_schedule (dims : list nat) (dropout : bool) :
  exists layers,
    add_dropout_layers dims dropout = Ok layers /\
    length layers = length dims - 1 /\
    (forall i, i < length dims - 1 ->
       exists stage, nth_error layers i = Some stage /\
         if dropout
         then (exists p, stage = Some p) /\
              (drop_probability stage ==
               Qmin (inject_Z (Z.of_nat i + 1) / inject_Z 10) (4 # 10))%Q
         else stage = None /\ drop_probability stage = 0%Q) /\
    (forall i j stage_i stage_j,
       i <= j ->
       nth_error layers i = Some stage_i ->
       nth_error layers j = Some stage_j ->
       (drop_probability stage_i <= drop_probability stage_j)%Q /\
       (drop_probability stage_j <= 4 # 10)%Q).
Proof.
  destruct dropout.
  - eexists. split; [apply add_dropout_layers_enabled|].
    split; [rewrite length_map, length_seq; reflexivity|]. split.
    + intros i Hi. exists (Some (dropout_p true i)). split.
      * rewrite nth_error_map, nth_error_seq.
        destruct (Nat.ltb_spec i (length dims - 1)); [reflexivity | lia].
      * split; [eauto|]. simpl. rewrite dropout_p_enabled.
        apply Q.min_compat; [|reflexivity].
        unfold Qeq, Qdiv, inject_Z; simpl. lia.
    + intros i j si sj Hij Hi Hj.
      rewrite nth_error_map, nth_error_seq in Hi, Hj.
      destruct (Nat.ltb_spec i (length dims - 1)); [|discriminate].
      destruct (Nat.ltb_spec j (length dims - 1)); [|discriminate].
      simpl in Hi, Hj. injection Hi as <-. injection Hj as <-. simpl. split.
      * apply dropout_p_mono; assumption.
      * apply dropout_p_range.
  - exists (repeat None (length dims - 1)). split; [reflexivity|].
    split; [apply repeat_length|]. split.
    + intros i Hi. exists None. split; [|split; reflexivity].
      rewrite nth_error_repeat by assumption. reflexivity.
    + intros i j si sj Hij Hi Hj.
      apply nth_error_In, repeat_spec in Hi, Hj. subst. simpl.
      split; unfold Qle; simpl; lia.
Qed.

(** ** The convolution stack *)

Section ConvolutionStack.

Variables (adj : tensor) (cuda : bool) (transform_adj : list adj_hook)
          (aggregate_adj : option adj_hook) (prepool_extralayers : Z).

Local Abbreviation block :=
  (stage_block adj cuda transform_adj aggregate_adj prepool_extralayers).

Lemma fold_append_repeat {A : Type} (a : A) (l : list nat) (acc : list A) :
  fold_left (fun convs (_ : nat) => convs ++ [a]) l acc
  = acc ++ repeat a (length l).
Proof.
  revert acc. induction l as [|x l IH]; intros acc; simpl.
  - rewrite app_nil_r. reflexivity.
  - rewrite IH, <- app_assoc. reflexivity.
Qed.

Lemma conv_layers_fold (items : list (nat * (nat * nat))) (acc : list GraphLayer) :
  fold_left
    (fun convs '(i, (c_in, c_out)) =>
       let convs :=
         match aggregate_adj with
         | Some _ =>
             fold_left
               (fun convs extra_layer =>
                  convs ++ [mkGraphLayer adj c_in c_in cuda i None None false])
               (range prepool_extralayers) convs
         | None => convs
         end in
       convs ++ [mkGraphLayer adj c_in c_out cuda i (Some transform_adj)
                   aggregate_adj true])
    items acc
  = acc ++ flat_map (fun '(i, (c_in, c_out)) => block i c_in c_out) items.
Proof.
  revert acc. induction items as [|[i [c_in c_out]] items IH]; intros acc.
  - simpl. rewrite app_nil_r. reflexivity.
  - cbn [fold_left flat_map]. rewrite IH. unfold stage_block at 2, stage_extras.
    destruct aggregate_adj.
    + rewrite fold_append_repeat. unfold range. rewrite length_seq.
      rewrite <- !app_assoc. reflexivity.
    + simpl. rewrite <- !app_assoc. reflexivity.
Qed.

Lemma consecutive_pairs (dims : list nat) :
  combine (removelast dims) (tl dims)
  = map (fun k => (nth k dims 0, nth (S k) dims 0)) (seq 0 (length dims - 1)).
Proof.
  induction dims as [|a dims IH]; [reflexivity|].
  destruct dims as [|b dims]; [reflexivity|].
  change (removelast (a :: b :: dims)) with (a :: removelast (b :: dims)).
  cbn [tl combine]. change (tl (b :: dims)) with dims in IH. rewrite IH.
  cbn [length]. replace (S (S (length dims)) - 1) with (S (length dims)) by lia.
  replace (S (length dims) - 1) with (length dims) by lia.
  cbn [seq map]. f_equal. rewrite <- seq_shift, map_map. reflexivity.
Qed.

Lemma enumerate_map_seq {A : Type} (f : nat -> A) n :
  enumerate (map f (seq 0 n)) = map (fun k => (k, f k)) (seq 0 n).
Proof.
  unfold enumerate. rewrite length_map, length_seq.
  assert (H : forall s, combine (seq s n) (map f (seq s n))
                        = map (fun k => (k, f k)) (seq s n)).
  { induction n as [|n IH]; intros s; simpl; [reflexivity|].
    rewrite IH. reflexivity. }
  apply H.
Qed.

Lemma conv_layers_blocks (dims : list nat) :
  add_graph_convolutional_layers adj dims cuda transform_adj aggregate_adj
    prepool_extralayers
  = flat_map (fun k => block k (nth k dims 0) (nth (S k) dims 0))
      (seq 0 (length dims - 1)).
Proof.
  unfold add_graph_convolutional_layers. rewrite conv_layers_fold. simpl.
  rewrite consecutive_pairs, enumerate_map_seq.
  rewrite flat_map_concat_map, map_map, <- flat_map_concat_map. reflexivity.
Qed.

End ConvolutionStack.

(** C8: the convolution stack is the concatenation, over the consecutive
    pairs [(c_in, c_out)] of [dims] in order, of [prepool_extralayers]
    same-width layers [(c_in, c_in)] followed by the width-changing layer
    [(c_in, c_out)]; the same-width layers are there only when
    [aggregate_adj] is not [None], and when it is [None] each pair
    contributes its one width-changing layer and nothing else. *)
Theorem conv_layers_per_pair (adj : tensor) (dims : list nat) (cuda : bool)
  (transform_adj : list adj_hook) (aggregate_adj : option adj_hook)
  (prepool_extralayers : Z) :
  let extras := match aggregate_adj with
                | Some _ => Z.to_nat prepool_extralayers
                | None => 0
                end in
  let convs := add_graph_convolutional_layers adj dims cuda transform_adj
                 aggregate_adj prepool_extralayers in
  convs =
    flat_map
      (fun k =>
         let c_in := nth k dims 0 in
         let c_out := nth (S k) dims 0 in
         repeat (extra_layer adj cuda k c_in) extras
         ++ [width_layer adj cuda transform_adj aggregate_adj k c_in c_out])
      (seq 0 (length dims - 1))
  /\ length convs = (length dims - 1) * (extras + 1)
  /\ add_graph_convolutional_layers adj dims cuda transform_adj None
       prepool_extralayers
     = map (fun k => width_layer adj cuda transform_adj None k
                       (nth k dims 0) (nth (S k) dims 0))
         (seq 0 (length dims - 1)).
Proof.
  intros extras convs.
  assert (Heq : convs =
    flat_map
      (fun k =>
         repeat (extra_layer adj cuda k (nth k dims 0)) extras
         ++ [width_layer adj cuda transform_adj aggregate_adj k
               (nth k dims 0) (nth (S k) dims 0)])
      (seq 0 (length dims - 1))).
  { apply conv_layers_blocks. }
  assert (Hlen : length convs = (length dims - 1) * (extras + 1)).
  { rewrite Heq. rewrite (length_flat_map_uniform _ (extras + 1)).
    - rewrite length_seq. reflexivity.
    - intros k. rewrite length_app, repeat_length. reflexivity. }
  split; [exact Heq|]. split; [exact Hlen|].
  rewrite conv_layers_blocks. generalize (seq 0 (length dims - 1)).
  intros l. induction l as [|k l IH]; [reflexivity|].
  cbn [flat_map map repeat app]. now f_equal.
Qed.

(** ** Reshaping *)

Section ViewFacts.

Lemma zprod_of_nat s : zprod (map Z.of_nat s) = Z.of_nat (numel s).
Proof.
  unfold zprod. induction s as [|n s IH]; cbn [map fold_right numel]; [reflexivity|].
  rewrite IH. fold (numel s). lia.
Qed.

Lemma forallb_of_nat s : forallb (fun d => (-1 <=? d)%Z) (map Z.of_nat s) = true.
Proof.
  induction s as [|n s IH]; simpl; [reflexivity|].
  rewrite IH. destruct (Z.leb_spec (-1) (Z.of_nat n)); [reflexivity | lia].
Qed.

Lemma filter_minus_one_of_nat s :
  List.filter (fun d => (d =? -1)%Z) (map Z.of_nat s) = [].
Proof.
  induction s as [|n s IH]; simpl; [reflexivity|].
  destruct (Z.eqb_spec (Z.of_nat n) (-1)); [lia | exact IH].
Qed.

Lemma filter_known_of_nat s :
  List.filter (fun d => negb (d =? -1)%Z) (map Z.of_nat s) = map Z.of_nat s.
Proof.
  induction s as [|n s IH]; simpl; [reflexivity|].
  destruct (Z.eqb_spec (Z.of_nat n) (-1)); [lia | simpl; rewrite IH; reflexivity].
Qed.

Lemma to_nat_of_nat s : map Z.to_nat (map Z.of_nat s) = s.
Proof.
  induction s as [|n s IH]; simpl; [reflexivity|].
  rewrite IH, Nat2Z.id. reflexivity.
Qed.

(** A view onto sizes without [-1] succeeds exactly when the number of
    elements agrees. *)
Lemma view_shape_sizes n s :
  view_shape n (map Z.of_nat s)
  = if numel s =? n then Ok s else Raise RuntimeError.
Proof.
  unfold view_shape.
  rewrite forallb_of_nat, filter_minus_one_of_nat, zprod_of_nat, to_nat_of_nat.
  destruct (Nat.eqb_spec (numel s) n), (Z.eqb_spec (Z.of_nat (numel s)) (Z.of_nat n));
    try reflexivity; lia.
Qed.

(** [view(-1, c)] *)
Lemma view_shape_infer_rows n c :
  0 < c -> n mod c = 0 ->
  view_shape n [-1; Z.of_nat c]%Z = Ok [n / c; c].
Proof.
  intros Hc Hmod. unfold view_shape.
  assert (Hne : (Z.of_nat c =? -1)%Z = false) by (apply Z.eqb_neq; lia).
  assert (Hle : (-1 <=? Z.of_nat c)%Z = true) by (apply Z.leb_le; lia).
  assert (Hnz : (Z.of_nat c * 1 =? 0)%Z = false) by (apply Z.eqb_neq; lia).
  cbn [forallb List.filter map].
  change (-1 <=? -1)%Z with true. change (-1 =? -1)%Z with true.
  rewrite Hle, !Hne. cbn [andb negb zprod fold_right List.filter].
  rewrite Hnz. replace (Z.of_nat c * 1)%Z with (Z.of_nat c) by lia.
  rewrite <- Nat2Z.inj_mod, Hmod. cbn [Z.of_nat Z.eqb].
  rewrite <- Nat2Z.inj_div, !Nat2Z.id. reflexivity.
Qed.

(** [view(e, -1)] *)
Lemma view_shape_infer_cols n e :
  0 < e -> n mod e = 0 ->
  view_shape n [Z.of_nat e; -1]%Z = Ok [e; n / e].
Proof.
  intros He Hmod. unfold view_shape.
  assert (Hne : (Z.of_nat e =? -1)%Z = false) by (apply Z.eqb_neq; lia).
  assert (Hle : (-1 <=? Z.of_nat e)%Z = true) by (apply Z.leb_le; lia).
  assert (Hnz : (Z.of_nat e * 1 =? 0)%Z = false) by (apply Z.eqb_neq; lia).
  cbn [forallb List.filter map].
  change (-1 <=? -1)%Z with true. change (-1 =? -1)%Z with true.
  rewrite Hle, !Hne. cbn [andb negb zprod fold_right List.filter].
  rewrite Hnz. replace (Z.of_nat e * 1)%Z with (Z.of_nat e) by lia.
  rewrite <- Nat2Z.inj_mod, Hmod. cbn [Z.of_nat Z.eqb].
  rewrite <- Nat2Z.inj_div, !Nat2Z.id. reflexivity.
Qed.

Lemma view_data t spec t' : view t spec = Ok t' -> data t' = data t.
Proof.
  unfold view. destruct (view_shape _ _); simpl; [|discriminate].
  intros [= <-]. reflexivity.
Qed.

End ViewFacts.

(** ** Gates *)

Section Gates.

Lemma sigmoid_range v : in_unit_interval (sigmoid v).
Proof.
  unfold in_unit_interval, sigmoid. pose proof (exp_pos (- v)) as Hexp.
  assert (Hden : (0 < 1 + exp (- v))%R) by lra.
  split.
  - apply Rlt_le, Rdiv_lt_0_compat; lra.
  - unfold Rdiv. rewrite Rmult_1_l. rewrite <- Rinv_1 at 2.
    apply Rinv_le_contravar; lra.
Qed.

Lemma Forall_map_sigmoid l : Forall in_unit_interval (map sigmoid l).
Proof. apply List.Forall_forall. intros v Hv. apply in_map_iff in Hv as [u [<- _]]. apply sigmoid_range. Qed.

Lemma static_gate_view (self : StaticElementwiseGateLayer) E N C d :
  StaticElementwiseGateLayer_forward self (mkTensor [E; N; C] d)
  = if numel (shape (sgate_attn self)) =? N
    then Ok (mkTensor [N; 1] (map sigmoid (data (sgate_attn self))))
    else Raise RuntimeError.
Proof.
  unfold StaticElementwiseGateLayer_forward, size3, view. cbn [shape bind map_t].
  change [Z.of_nat N; 1%Z] with (map Z.of_nat [N; 1]).
  rewrite view_shape_sizes. cbn [numel fold_right].
  replace (N * (1 * 1)) with N by lia.
  rewrite Nat.eqb_sym.
  destruct (numel (shape (sgate_attn self)) =? N); reflexivity.
Qed.

End Gates.

(** C6 (fails on the code): [get_representation] returns no mapping.  Its
    first statement reads [self.add_emb], a name that is neither set on the
    instance nor defined by the class, so for every network and whatever
    the hooks have captured the call raises [AttributeError]. *)
Theorem get_representation_raises (self : GraphNetwork)
  (st : gmap string capture) :
  getattr self "add_emb" = Raise AttributeError /\
  get_representation self st = Raise AttributeError.
Proof.
  assert (H : getattr self "add_emb" = Raise AttributeError).
  { unfold getattr, instance_dict.
    destruct (emb self), (attention_layer self); reflexivity. }
  split; [exact H|]. unfold get_representation. rewrite H. reflexivity.
Qed.

(** C7: on every input of shape [(E, N, C)] the static gate returns the
    sigmoid of its gate vector, which has length 50, viewed as [(N, 1)]:
    the result does not depend on the values, the number of examples or the
    channels of the input; and whenever [N] is not 50 the view fails. *)
Theorem static_gate_forward (id_dim E N C : nat) (d : list R) :
  let self := StaticElementwiseGateLayer_init id_dim in
  shape (sgate_attn self) = [50] /\
  length (data (sgate_attn self)) = 50 /\
  StaticElementwiseGateLayer_forward self (mkTensor [E; N; C] d)
  = (if N =? 50
     then Ok (mkTensor [N; 1] (map sigmoid (data (sgate_attn self))))
     else Raise RuntimeError) /\
  (forall E' C' d',
     StaticElementwiseGateLayer_forward self (mkTensor [E'; N; C'] d')
     = StaticElementwiseGateLayer_forward self (mkTensor [E; N; C] d)).
Proof.
  intros self. split; [reflexivity|]. split; [reflexivity|]. split.
  - rewrite static_gate_view. change (numel (shape (sgate_attn self))) with 50.
    rewrite Nat.eqb_sym. reflexivity.
  - intros E' C' d'. rewrite !static_gate_view. reflexivity.
Qed.

(** C9: every value of a gate returned by [ElementwiseGateLayer.forward] or
    by [StaticElementwiseGateLayer.forward], for any parameters and any
    input, lies between 0 and 1. *)
Theorem gate_values_in_unit_interval (gate : ElementwiseGateLayer)
  (sgate : StaticElementwiseGateLayer) (x g : tensor) :
  ElementwiseGateLayer_forward gate x = Ok g \/
  StaticElementwiseGateLayer_forward sgate x = Ok g ->
  Forall in_unit_interval (data g).
Proof.
  intros [H|H].
  - unfold ElementwiseGateLayer_forward in H.
    destruct (size3 x) as [[[E N] C]|]; [|discriminate]. cbn [bind] in H.
    destruct (view x _) as [x1|]; [|discriminate]. cbn [bind] in H.
    destruct (Linear_forward _ x1) as [scores|]; [|discriminate]. cbn [bind] in H.
    apply view_data in H. rewrite H. apply Forall_map_sigmoid.
  - unfold StaticElementwiseGateLayer_forward in H.
    destruct (size3 x) as [[[E N] C]|]; [|discriminate]. cbn [bind] in H.
    apply view_data in H. rewrite H. apply Forall_map_sigmoid.
Qed.

(** ** Parameter import *)

Section ParameterImport.

Variables (cast : dtype -> dtype -> R -> R) (dtype_of : string -> dtype).

Lemma copy_raises dt dst src e :
  copy_ cast dt dst src = Raise e ->
  if is_tensor src then e = RuntimeError else e = TypeError.
Proof.
  unfold copy_. destruct src as [sdt src|sdt src|]; cbn [is_tensor].
  - destruct (broadcast_shapes _ _) as [s|e'].
    + destruct (decide (s = shape dst)); [discriminate | congruence].
    + congruence.
  - destruct (broadcast_shapes _ _) as [s|e'].
    + destruct (decide (s = shape dst)); [discriminate | congruence].
    + congruence.
  - congruence.
Qed.

Lemma is_tensor_parameter_data v : is_tensor (parameter_data v) = is_tensor v.
Proof. destruct v; reflexivity. Qed.

Lemma import_entry_other own_state entry name :
  name <> entry.1 ->
  import_entry cast dtype_of own_state entry !! name = own_state !! name.
Proof.
  intros Hne. unfold import_entry.
  destruct (own_state !! entry.1) as [cur|]; [|reflexivity].
  destruct (copy_ _ _ cur (parameter_data entry.2)); [|reflexivity].
  apply lookup_insert_ne. congruence.
Qed.

Lemma import_entries_other state_dict own_state name :
  ~ In name (map fst state_dict) ->
  fold_left (import_entry cast dtype_of) state_dict own_state !! name
  = own_state !! name.
Proof.
  revert own_state. induction state_dict as [|entry l IH]; intros own_state Hnot.
  - reflexivity.
  - cbn [fold_left]. rewrite IH by (intros Hin; apply Hnot; right; exact Hin).
    apply import_entry_other. intros ->. apply Hnot. left. reflexivity.
Qed.

Lemma import_entry_absent own_state entry name :
  own_state !! name = None ->
  import_entry cast dtype_of own_state entry !! name = None.
Proof.
  intros Hnone. unfold import_entry.
  destruct (own_state !! entry.1) as [cur|] eqn:Hcur; [|exact Hnone].
  destruct (copy_ _ _ cur (parameter_data entry.2)); [|exact Hnone].
  rewrite lookup_insert_ne; [exact Hnone | congruence].
Qed.

Lemma import_entries_absent state_dict own_state name :
  own_state !! name = None ->
  fold_left (import_entry cast dtype_of) state_dict own_state !! name = None.
Proof.
  revert own_state. induction state_dict as [|entry l IH]; intros own_state Hnone.
  - exact Hnone.
  - cbn [fold_left]. apply IH, import_entry_absent, Hnone.
Qed.

Lemma import_entry_present own_state entry name cur :
  own_state !! name = Some cur ->
  exists new, import_entry cast dtype_of own_state entry !! name = Some new.
Proof.
  intros Hsome. unfold import_entry.
  destruct (own_state !! entry.1) as [cur'|] eqn:Hcur; [|eauto].
  destruct (copy_ _ _ cur' (parameter_data entry.2)) as [new|]; [|eauto].
  destruct (decide (entry.1 = name)) as [<-|Hne].
  - exists new. apply lookup_insert_eq.
  - exists cur. rewrite lookup_insert_ne by assumption. exact Hsome.
Qed.

(** An entry keeps the names of the parameter set, hence what of a source
    mapping can be imported. *)
Lemma importable_import_entry own_state entry state_dict :
  importable (import_entry cast dtype_of own_state entry) state_dict
  = importable own_state state_dict.
Proof.
  unfold importable. induction state_dict as [|e l IH]; [reflexivity|].
  cbn [forallb]. rewrite IH. f_equal.
  destruct (own_state !! e.1) as [cur|] eqn:Hcur.
  - destruct (import_entry_present own_state entry e.1 cur Hcur) as [new ->].
    reflexivity.
  - rewrite import_entry_absent by exact Hcur. reflexivity.
Qed.

Lemma importable_import_entries entries own_state state_dict :
  importable (fold_left (import_entry cast dtype_of) entries own_state) state_dict
  = importable own_state state_dict.
Proof.
  revert own_state. induction entries as [|entry l IH]; intros own_state.
  - reflexivity.
  - cbn [fold_left]. rewrite IH. apply importable_import_entry.
Qed.

Lemma load_state_dict_raised (e : exn) state_dict :
  fold_left
    (fun (acc : result (gmap string tensor)) '(name, param) =>
       let* own_state := acc in
       match own_state !! name with
       | None => Ok own_state
       | Some cur =>
           let param := parameter_data param in
           match copy_ cast (dtype_of name) cur param with
           | Ok new => Ok (<[name := new]> own_state)
           | Raise AttributeError => Ok own_state
           | Raise RuntimeError => Ok own_state
           | Raise e => Raise e
           end
       end)
    state_dict (Raise e) = Raise e.
Proof.
  induction state_dict as [|[name param] l IH]; [reflexivity | exact IH].
Qed.

(** The loop runs to its end exactly on the source mappings that can be
    imported; a value that is not a tensor, under a name of the parameter
    set, ends it with a TypeError. *)
Lemma load_state_dict_fold own_state state_dict :
  load_state_dict cast dtype_of own_state state_dict
  = if importable own_state state_dict
    then Ok (fold_left (import_entry cast dtype_of) state_dict own_state)
    else Raise TypeError.
Proof.
  unfold load_state_dict. revert own_state.
  induction state_dict as [|[name param] l IH]; intros own_state; [reflexivity|].
  cbn [fold_left bind importable forallb fst snd].
  fold (importable own_state l). unfold import_entry at 2. cbn [fst snd].
  destruct (own_state !! name) as [cur|] eqn:Hcur; [|apply IH].
  destruct (copy_ cast (dtype_of name) cur (parameter_data param))
    as [new|e] eqn:Hcopy.
  - assert (Hten : is_tensor param = true).
    { destruct param; try reflexivity. discriminate Hcopy. }
    rewrite Hten, andb_true_l, IH.
    assert (Himp : importable (<[name := new]> own_state) l = importable own_state l).
    { transitivity (importable (import_entry cast dtype_of own_state (name, param)) l);
        [|apply importable_import_entry].
      unfold import_entry. cbn [fst snd]. rewrite Hcur, Hcopy. reflexivity. }
    rewrite Himp. reflexivity.
  - apply copy_raises in Hcopy. rewrite is_tensor_parameter_data in Hcopy.
    destruct (is_tensor param); subst e.
    + rewrite andb_true_l. apply IH.
    + rewrite andb_false_l. apply load_state_dict_raised.
Qed.

(** What the import leaves under a name the source mentions once. *)
Lemma import_entries_lookup state_dict own_state name param cur :
  List.NoDup (map fst state_dict) ->
  In (name, param) state_dict -> own_state !! name = Some cur ->
  fold_left (import_entry cast dtype_of) state_dict own_state !! name
  = Some (match copy_ cast (dtype_of name) cur (parameter_data param) with
          | Ok new => new
          | Raise _ => cur
          end).
Proof.
  revert own_state. induction state_dict as [|[k v] l IH];
    intros own_state Hnodup Hin Hcur; [destruct Hin|].
  cbn [map fst] in Hnodup. apply List.NoDup_cons_iff in Hnodup as [Hk Hnodup].
  cbn [fold_left]. destruct Hin as [[= -> ->]|Hin].
  - rewrite import_entries_other by exact Hk.
    unfold import_entry. cbn [fst snd]. rewrite Hcur.
    destruct (copy_ _ _ cur (parameter_data param));
      [apply lookup_insert_eq | exact Hcur].
  - apply IH; [assumption | assumption|].
    rewrite import_entry_other; [exact Hcur|].
    cbn [fst]. intros ->. apply Hk.
    apply in_map_iff. exists (k, param). split; [reflexivity | exact Hin].
Qed.

End ParameterImport.

(** C4, as amended: for a source mapping whose items carry distinct names,
    the import returns exactly when every value the mapping holds under a
    name of the parameter set is a tensor (serialized or not); a value that
    is not a tensor ends it with a TypeError, which the handler of line 346
    does not catch, and it raises nothing else.  When it returns, it has
    added no name to the parameter set and left untouched every parameter
    the source does not name; and for a source entry whose name is in the
    set, the parameter is the copied value when the copy succeeds and keeps
    its value when the copy raises. *)
Theorem load_state_dict_tolerant (cast : dtype -> dtype -> R -> R)
  (dtype_of : string -> dtype) (own_state : gmap string tensor)
  (state_dict : list (string * state_value)) :
  List.NoDup (map fst state_dict) ->
  is_ok (load_state_dict cast dtype_of own_state state_dict)
  = importable own_state state_dict /\
  (forall e, load_state_dict cast dtype_of own_state state_dict = Raise e ->
             e = TypeError) /\
  (forall own_state',
     load_state_dict cast dtype_of own_state state_dict = Ok own_state' ->
     (forall name, own_state !! name = None -> own_state' !! name = None) /\
     (forall name, ~ In name (map fst state_dict) ->
                   own_state' !! name = own_state !! name) /\
     (forall name param cur,
        In (name, param) state_dict ->
        own_state !! name = Some cur ->
        match copy_ cast (dtype_of name) cur (parameter_data param) with
        | Ok new => own_state' !! name = Some new
        | Raise _ => own_state' !! name = Some cur
        end)).
Proof.
  intros Hnodup. rewrite load_state_dict_fold.
  destruct (importable own_state state_dict).
  - split; [reflexivity|]. split; [discriminate|].
    intros own_state' [= <-].
    split; [intros name; apply import_entries_absent|].
    split; [intros name; apply import_entries_other|].
    intros name param cur Hin Hcur.
    rewrite (import_entries_lookup cast dtype_of _ _ name param cur Hnodup Hin Hcur).
    destruct (copy_ _ _ cur (parameter_data param)); reflexivity.
  - split; [reflexivity|]. split; [congruence | discriminate].
Qed.

Lemma load_state_dict_tolerant_witness :
  exists own_state',
    load_state_dict exact_cast all_float32 own_state0 state_dict0 = Ok own_state' /\
    own_state' !! "weight" = own_state0 !! "weight" /\
    own_state' !! "bias" = Some (tabulate [2] (fun _ => 1%R)) /\
    own_state' !! "other" = None.
Proof.
  assert (Hnodup : List.NoDup (map fst state_dict0)).
  { repeat constructor; cbn; intuition discriminate. }
  destruct (load_state_dict_tolerant exact_cast all_float32 own_state0
              state_dict0 Hnodup) as [Hok [_ Hafter]].
  destruct (load_state_dict exact_cast all_float32 own_state0 state_dict0)
    as [own'|e]; [|discriminate Hok].
  destruct (Hafter own' eq_refl) as [Habsent [_ Hentry]].
  exists own'. split; [reflexivity|]. split; [|split].
  - exact (Hentry "weight" (SVTensor Float32 (tabulate [4; 5] (fun _ => 1%R)))
             (tabulate [2; 3] (fun _ => 0%R))
             (or_introl eq_refl) eq_refl).
  - exact (Hentry "bias" (SVParameter Float32 (tabulate [2] (fun _ => 1%R)))
             (tabulate [2] (fun _ => 0%R))
             (or_intror (or_introl eq_refl)) eq_refl).
  - apply Habsent. reflexivity.
Defined.

(** C4, as stated, fails: a list stored under the name of a parameter makes
    the import raise. *)
Lemma load_state_dict_raises_on_list :
  load_state_dict exact_cast all_float32 own_state0 state_dict_list
  = Raise TypeError.
Proof. reflexivity. Qed.

(** ** The adjacency and its Laplacian *)

Section Laplacian.

Local Open Scope R_scope.

Lemma Rsum_ext n f g :
  (forall k, (k < n)%nat -> f k = g k) -> Rsum n f = Rsum n g.
Proof.
  intros H. unfold Rsum. f_equal. apply map_ext_in.
  intros k Hk. apply in_seq in Hk. apply H. lia.
Qed.

Lemma Rsum_zero n : Rsum n (fun _ => 0) = 0.
Proof.
  unfold Rsum. induction (seq 0 n) as [|k l IH]; simpl; [reflexivity|].
  rewrite IH. lra.
Qed.

Lemma Rsum_S n f : Rsum (S n) f = Rsum n f + f n.
Proof.
  unfold Rsum. rewrite seq_S, map_app, fold_right_app. simpl.
  generalize (map f (seq 0 n)). intros l.
  induction l as [|a l IH]; simpl; [lra|]. rewrite IH. lra.
Qed.

Lemma Rsum_pick n i (c : R) (f : nat -> R) :
  (i < n)%nat ->
  Rsum n (fun k => (if (i =? k)%nat then c else 0) * f k) = c * f i.
Proof.
  intros Hi. induction n as [|n IH]; [lia|].
  rewrite Rsum_S. destruct (Nat.eq_dec i n) as [->|Hne].
  - rewrite Nat.eqb_refl.
    rewrite (Rsum_ext n _ (fun _ => 0)), Rsum_zero; [lra|].
    intros k Hk. destruct (Nat.eqb_spec n k); [lia | lra].
  - rewrite IH by lia. destruct (Nat.eqb_spec i n); [lia | lra].
Qed.

Lemma Rsum_nonneg n f : (forall k, (k < n)%nat -> 0 <= f k) -> 0 <= Rsum n f.
Proof.
  intros H. induction n as [|n IH]; [unfold Rsum; simpl; lra|].
  rewrite Rsum_S. pose proof (H n ltac:(lia)).
  assert (0 <= Rsum n f) by (apply IH; intros; apply H; lia). lra.
Qed.

Lemma in_bounds2 n m i j : (i < n)%nat -> (j < m)%nat -> in_bounds [n; m] [i; j].
Proof. intros. repeat constructor; assumption. Qed.

Lemma in_bounds1 n i : (i < n)%nat -> in_bounds [n] [i].
Proof. intros. repeat constructor; assumption. Qed.

Lemma bidx_aligned_same s idx : in_bounds s idx -> bidx_aligned s idx = idx.
Proof.
  intros H. induction H as [|i n idx s Hi _ IH]; [reflexivity|].
  simpl. rewrite IH. destruct (Nat.eqb_spec n 1); [|reflexivity].
  f_equal. lia.
Qed.

Lemma bidx_same s idx : in_bounds s idx -> bidx s idx = idx.
Proof.
  intros H. unfold bidx.
  rewrite (Forall2_length _ _ _ H), Nat.sub_diag. simpl.
  apply bidx_aligned_same, H.
Qed.

Lemma bshape_rev_refl s : bshape_rev s s = Some s.
Proof.
  induction s as [|n s IH]; [reflexivity|].
  simpl. rewrite Nat.eqb_refl, IH. reflexivity.
Qed.

Lemma broadcast_shapes_refl s : broadcast_shapes s s = Ok s.
Proof. unfold broadcast_shapes. rewrite bshape_rev_refl, rev_involutive. reflexivity. Qed.

(** Zeroing the diagonal touches the diagonal and nothing else. *)
Lemma fill_diagonal_square a n v :
  wf a -> shape a = [n; n] ->
  exists a', Numpy.fill_diagonal a v = Ok a' /\ shape a' = [n; n] /\ wf a' /\
    forall i j, (i < n)%nat -> (j < n)%nat ->
      get a' [i; j] = if (i =? j)%nat then v else get a [i; j].
Proof.
  intros Hwf Hshape. unfold Numpy.fill_diagonal. rewrite Hshape.
  eexists. split; [reflexivity|]. split; [reflexivity|]. split.
  - unfold wf in *. cbn [data shape]. rewrite length_imap, Hwf, Hshape. reflexivity.
  - intros i j Hi Hj. unfold get. cbn [data shape]. rewrite Hshape.
    cbn [ravel numel fold_right].
    replace (i * (n * 1) + (j * 1 + 0))%nat with (i * n + j)%nat by lia.
    assert (Hp : (i * n + j < length (data a))%nat).
    { rewrite Hwf, Hshape. cbn [numel fold_right]. nia. }
    rewrite !nth_lookup, list_lookup_imap.
    destruct (lookup_lt_is_Some_2 _ _ Hp) as [x Hx]. rewrite Hx.
    cbn [fmap option_fmap option_map default from_option id].
    assert (Hlt : (i * n + j <? n * n)%nat = true) by (apply Nat.ltb_lt; nia).
    rewrite Hlt. cbn [andb].
    destruct (Nat.eqb_spec i j) as [->|Hne].
    + replace (j * n + j)%nat with (j * (n + 1))%nat by lia.
      rewrite Nat.Div0.mod_mul. reflexivity.
    + destruct (Nat.eqb_spec ((i * n + j) mod (n + 1)) 0) as [Hmod|]; [|reflexivity].
      exfalso. apply Nat.Div0.mod_divides in Hmod as [q Hq].
      destruct (Nat.lt_ge_cases i j);
        [destruct (le_lt_dec q i) | destruct (le_lt_dec i q)]; nia.
Qed.

End Laplacian.

(** ** Floats: sums, and the tensors that hold them *)

Section FloatFacts.

Local Open Scope R_scope.

Lemma fadd_comm a b : Float.add a b = Float.add b a.
Proof. destruct a, b; cbn; try reflexivity. f_equal. lra. Qed.

Lemma fadd_assoc a b c :
  Float.add a (Float.add b c) = Float.add (Float.add a b) c.
Proof. destruct a, b, c; cbn; try reflexivity. f_equal. lra. Qed.

Lemma fadd_0_l a : Float.add (Fin 0) a = a.
Proof. destruct a; cbn; try reflexivity. f_equal. lra. Qed.

Lemma fadd_0_r a : Float.add a (Fin 0) = a.
Proof. rewrite fadd_comm. apply fadd_0_l. Qed.

Lemma fadd_nan_r a : Float.add a NaN = NaN.
Proof. destruct a; reflexivity. Qed.

Lemma fmul_nan_l a : Float.mul NaN a = NaN.
Proof. reflexivity. Qed.

Lemma fmul_nan_r a : Float.mul a NaN = NaN.
Proof. destruct a; reflexivity. Qed.

Lemma fsum_ext n f g :
  (forall k, (k < n)%nat -> f k = g k) -> Float.sum n f = Float.sum n g.
Proof.
  intros H. unfold Float.sum. f_equal. apply map_ext_in.
  intros k Hk. apply in_seq in Hk. apply H. lia.
Qed.

Lemma fsum_S n f : Float.sum (S n) f = Float.add (Float.sum n f) (f n).
Proof.
  unfold Float.sum. rewrite seq_S, map_app, fold_right_app. cbn [map fold_right].
  rewrite fadd_0_r. generalize (map f (seq 0 n)). intros l.
  induction l as [|a l IH]; cbn [fold_right].
  - rewrite fadd_0_l. reflexivity.
  - rewrite IH. apply fadd_assoc.
Qed.

(** A sum of finite values is the finite sum. *)
Lemma fsum_fin n (f : nat -> R) :
  Float.sum n (fun k => Fin (f k)) = Fin (Rsum n f).
Proof.
  induction n as [|n IH]; [reflexivity|].
  rewrite fsum_S, Rsum_S, IH. reflexivity.
Qed.

(** A NaN among the terms makes the sum a NaN. *)
Lemma fsum_nan n f k : (k < n)%nat -> f k = NaN -> Float.sum n f = NaN.
Proof.
  intros Hk Hnan. induction n as [|n IH]; [lia|].
  rewrite fsum_S. destruct (Nat.eq_dec k n) as [->|Hne].
  - rewrite Hnan. apply fadd_nan_r.
  - rewrite IH by lia. reflexivity.
Qed.

(** A sum whose terms other than the one at [i] are zero. *)
Lemma fsum_single n i f :
  (i < n)%nat -> (forall k, (k < n)%nat -> k <> i -> f k = Fin 0) ->
  Float.sum n f = f i.
Proof.
  intros Hi Hz. induction n as [|n IH]; [lia|].
  rewrite fsum_S. destruct (Nat.eq_dec i n) as [->|Hne].
  - rewrite (fsum_ext n f (fun _ => Fin 0)) by (intros k Hk; apply Hz; lia).
    rewrite (fsum_fin n (fun _ => 0)), Rsum_zero. apply fadd_0_l.
  - rewrite IH by (try lia; intros k Hk Hki; apply Hz; lia).
    rewrite (Hz n) by lia. apply fadd_0_r.
Qed.

Lemma fwf_tabulate s f : FTorch.wf (FTorch.tabulate s f).
Proof.
  unfold FTorch.wf, FTorch.tabulate; simpl. rewrite length_map.
  apply length_indices.
Qed.

Lemma fget_tabulate s f idx :
  in_bounds s idx -> FTorch.get (FTorch.tabulate s f) idx = f idx.
Proof.
  intros H. unfold FTorch.get, FTorch.tabulate; simpl.
  rewrite (nth_indep _ (Fin 0) (f idx)).
  - rewrite map_nth. rewrite nth_indices by assumption. reflexivity.
  - rewrite length_map, length_indices. apply ravel_lt. assumption.
Qed.

Lemma fget_map_real (f : R -> float) t idx :
  wf t -> in_bounds (shape t) idx ->
  FTorch.get (FTorch.map_real f t) idx = f (get t idx).
Proof.
  intros Hwf Hb. unfold FTorch.get, FTorch.map_real, get; simpl.
  rewrite (nth_indep _ (Fin 0) (f 0)).
  - apply map_nth.
  - rewrite length_map, Hwf. apply ravel_lt. assumption.
Qed.

(** A tensor of reals seen as floats has the same entries. *)
Lemma fget_of_real t idx : FTorch.get (FTorch.of_real t) idx = Fin (get t idx).
Proof.
  unfold FTorch.get, FTorch.of_real, FTorch.map_real, get; simpl.
  apply (map_nth Fin).
Qed.

Lemma fwf_of_real t : wf t -> FTorch.wf (FTorch.of_real t).
Proof.
  unfold wf, FTorch.wf, FTorch.of_real, FTorch.map_real; simpl.
  rewrite length_map. auto.
Qed.

Lemma pow_minus_half_positive d :
  0 < d -> Float.pow_minus_half (Fin d) = Fin (/ sqrt d).
Proof.
  intros Hd. unfold Float.pow_minus_half.
  destruct (Rlt_dec d 0); [lra|]. destruct (Req_dec_T d 0); [lra | reflexivity].
Qed.

Lemma pow_minus_half_negative d : d < 0 -> Float.pow_minus_half (Fin d) = NaN.
Proof.
  intros Hd. unfold Float.pow_minus_half.
  destruct (Rlt_dec d 0); [reflexivity | lra].
Qed.

End FloatFacts.

Section LaplacianEntries.

Local Open Scope R_scope.

Variables (a : tensor) (n : nat).
Hypothesis Hshape : shape a = [n; n].

Local Abbreviation colsum := (column_sums a n).

Local Abbreviation root j :=
  (Float.pow_minus_half (Fin (Rsum n (fun k => get a [k; j]) + epsilon))).

Lemma degree_vector_square :
  degree_vector a = Ok (Numpy.add_scalar colsum epsilon).
Proof.
  unfold degree_vector, sum_dim. rewrite Hshape. reflexivity.
Qed.

Lemma get_degree j :
  (j < n)%nat ->
  get (Numpy.add_scalar colsum epsilon) [j]
  = Rsum n (fun k => get a [k; j]) + epsilon.
Proof.
  intros Hj. unfold Numpy.add_scalar.
  rewrite get_map_t; [|apply wf_tabulate | apply in_bounds1, Hj].
  unfold column_sums. rewrite get_tabulate by apply in_bounds1, Hj. reflexivity.
Qed.

Lemma get_inv_sqrt_degree j :
  (j < n)%nat ->
  FTorch.get (Numpy.pow_minus_half (Numpy.add_scalar colsum epsilon)) [j]
  = root j.
Proof.
  intros Hj. unfold Numpy.pow_minus_half.
  rewrite fget_map_real; [| apply wf_map_t, wf_tabulate | apply in_bounds1, Hj].
  rewrite get_degree by assumption. reflexivity.
Qed.

(** The entries of the Laplacian as the two products of lines 120 leave
    them: the sum of the second product still runs over the column of the
    diagonal matrix. *)
Lemma laplacian_of_products :
  exists L, laplacian_of a = Ok L /\ FTorch.shape L = [n; n] /\ FTorch.wf L /\
    forall i j, (i < n)%nat -> (j < n)%nat ->
      FTorch.get L [i; j]
      = Float.sub (Fin (delta i j))
          (Float.sum n
             (fun l => Float.mul (Float.mul (root i) (Fin (get a [i; l])))
                         (if (l =? j)%nat then root j else Fin 0))).
Proof.
  unfold laplacian_of. rewrite degree_vector_square. cbn [bind].
  set (s := Numpy.pow_minus_half (Numpy.add_scalar colsum epsilon)).
  assert (Hs : FTorch.shape s = [n]) by reflexivity.
  change (shape (Numpy.add_scalar colsum epsilon)) with [n]. cbn [bind].
  unfold Numpy.diag. rewrite Hs. cbn [bind].
  set (dm := FTorch.tabulate [n; n] _).
  unfold Numpy.dot at 1. change (FTorch.shape dm) with [n; n].
  change (FTorch.shape (FTorch.of_real a)) with (shape a). rewrite Hshape.
  cbv beta iota. rewrite Nat.eqb_refl. cbn [bind].
  set (left := FTorch.tabulate [n; n] _).
  unfold Numpy.dot. change (FTorch.shape left) with [n; n].
  change (FTorch.shape dm) with [n; n].
  cbv beta iota. rewrite Nat.eqb_refl. cbn [bind].
  set (prod := FTorch.tabulate [n; n] _).
  unfold Numpy.sub, FTorch.sub, FTorch.binop.
  change (FTorch.shape (Numpy.eye n)) with [n; n].
  change (FTorch.shape prod) with [n; n]. rewrite broadcast_shapes_refl.
  cbn [bind].
  eexists. split; [reflexivity|]. split; [reflexivity|].
  split; [apply fwf_tabulate|].
  intros i j Hi Hj. pose proof (in_bounds2 n n i j Hi Hj) as Hb.
  rewrite fget_tabulate by exact Hb. rewrite bidx_same by exact Hb.
  unfold Numpy.eye. rewrite fget_tabulate by exact Hb.
  unfold prod. rewrite fget_tabulate by exact Hb.
  assert (Hdm : forall p q, (p < n)%nat -> (q < n)%nat ->
            FTorch.get dm [p; q] = if (p =? q)%nat then root p else Fin 0).
  { intros p q Hp Hq. unfold dm.
    rewrite fget_tabulate by (apply in_bounds2; assumption).
    rewrite get_inv_sqrt_degree by assumption. reflexivity. }
  assert (Hleft : forall p q, (p < n)%nat -> (q < n)%nat ->
            FTorch.get left [p; q] = Float.mul (root p) (Fin (get a [p; q]))).
  { intros p q Hp Hq. unfold left.
    rewrite fget_tabulate by (apply in_bounds2; assumption).
    rewrite (fsum_single n p); [|exact Hp|].
    - rewrite Hdm, Nat.eqb_refl, fget_of_real by assumption. reflexivity.
    - intros k Hk Hne. rewrite Hdm, fget_of_real by assumption.
      destruct (Nat.eqb_spec p k); [congruence|]. cbn; f_equal; lra. }
  f_equal; [unfold delta; destruct (i =? j)%nat; reflexivity|].
  apply fsum_ext. intros l Hl. rewrite Hleft, Hdm by assumption.
  destruct (Nat.eqb_spec l j) as [->|]; reflexivity.
Qed.

Lemma root_positive j :
  0 < Rsum n (fun k => get a [k; j]) + epsilon ->
  root j = Fin (inv_sqrt_degree a n j).
Proof. intros H. unfold inv_sqrt_degree. apply pow_minus_half_positive, H. Qed.

(** With positive degrees the Laplacian is the finite matrix
    [I - D^-1/2 A D^-1/2]. *)
Lemma laplacian_of_entries L :
  laplacian_of a = Ok L ->
  (forall j, (j < n)%nat -> 0 < Rsum n (fun k => get a [k; j]) + epsilon) ->
  forall i j, (i < n)%nat -> (j < n)%nat ->
    FTorch.get L [i; j]
    = Fin (delta i j
           - inv_sqrt_degree a n i * get a [i; j] * inv_sqrt_degree a n j).
Proof.
  intros HL Hpos i j Hi Hj.
  destruct laplacian_of_products as [L' [HL' [_ [_ Hentries]]]].
  rewrite HL in HL'. injection HL' as <-.
  rewrite Hentries by assumption.
  rewrite (fsum_single n j); [|exact Hj|].
  - rewrite Nat.eqb_refl, !root_positive by (apply Hpos; assumption).
    cbn; f_equal; lra.
  - intros l Hl Hne. rewrite root_positive by (apply Hpos; assumption).
    destruct (Nat.eqb_spec l j); [contradiction|]. cbn; f_equal; lra.
Qed.

(** A negative degree leaves NaN in the row and in the column of its
    node. *)
Lemma laplacian_of_nan L j :
  laplacian_of a = Ok L -> (j < n)%nat ->
  Rsum n (fun k => get a [k; j]) + epsilon < 0 ->
  forall i, (i < n)%nat ->
    FTorch.get L [i; j] = NaN /\ FTorch.get L [j; i] = NaN.
Proof.
  intros HL Hj Hneg i Hi.
  destruct laplacian_of_products as [L' [HL' [_ [_ Hentries]]]].
  rewrite HL in HL'. injection HL' as <-.
  assert (Hroot : root j = NaN) by (apply pow_minus_half_negative, Hneg).
  rewrite !Hentries by assumption. split.
  - rewrite (fsum_nan n _ j Hj); [reflexivity|].
    rewrite Nat.eqb_refl, Hroot. apply fmul_nan_r.
  - rewrite (fsum_nan n _ j Hj); [reflexivity|].
    rewrite Hroot. reflexivity.
Qed.

(** With non-negative entries every degree is at least [epsilon]. *)
Lemma degree_positive j :
  (forall i, (i < n)%nat -> 0 <= get a [i; j]) ->
  0 < Rsum n (fun k => get a [k; j]) + epsilon.
Proof.
  intros Hnonneg. pose proof (Rsum_nonneg n (fun k => get a [k; j]) Hnonneg).
  unfold epsilon. lra.
Qed.

End LaplacianEntries.

Section SparseClassifier.

Local Open Scope R_scope.

(** What the constructor does on a square adjacency. *)
Lemma SparseLogisticRegression_init_square init (heap : gmap nat tensor)
  nb_nodes input_dim adj out_dim cuda A n :
  heap !! adj = Some A -> wf A -> shape A = [n; n] ->
  exists A' L,
    SparseLogisticRegression_init init heap nb_nodes input_dim adj out_dim cuda
    = (<[adj := A']> heap,
       Ok (mkSparseLogisticRegression nb_nodes input_dim L
             (match out_dim with Some d => d | None => 2%nat end) cuda
             [nn_Linear init (nb_nodes * input_dim)
                (match out_dim with Some d => d | None => 2%nat end)])) /\
    shape A' = [n; n] /\ wf A' /\
    (forall i j, (i < n)%nat -> (j < n)%nat ->
       get A' [i; j] = if (i =? j)%nat then 0 else get A [i; j]) /\
    FTorch.shape L = [n; n] /\ laplacian_of A' = Ok L.
Proof.
  intros Hheap Hwf Hshape.
  destruct (fill_diagonal_square A n 0 Hwf Hshape)
    as [A' [Hfill [Hshape' [Hwf' Hentries]]]].
  destruct (laplacian_of_products A' n Hshape')
    as [L [Hlap [HshapeL _]]].
  exists A', L. split.
  - unfold SparseLogisticRegression_init. rewrite Hheap, Hfill, Hlap. reflexivity.
  - repeat split; assumption.
Qed.

End SparseClassifier.

(** C10: constructing the sparse classifier on a square adjacency succeeds
    and writes to the caller's array: afterwards the array the reference
    points to has zeros on its diagonal, whatever was there before, every
    other entry of it is the entry it had, and no other array of the store
    has changed. *)
Theorem init_zeroes_diagonal_in_place (init : list nat -> R)
  (heap : gmap nat tensor) (nb_nodes input_dim adj : nat)
  (out_dim : option nat) (cuda : bool) (A : tensor) (n : nat) :
  heap !! adj = Some A -> wf A -> shape A = [n; n] ->
  let after :=
    SparseLogisticRegression_init init heap nb_nodes input_dim adj out_dim cuda in
  is_ok after.2 = true /\
  exists A',
    after.1 !! adj = Some A' /\ shape A' = [n; n] /\
    (forall i, i < n -> get A' [i; i] = 0%R) /\
    (forall i j, i < n -> j < n -> i <> j -> get A' [i; j] = get A [i; j]) /\
    (forall other, other <> adj -> after.1 !! other = heap !! other).
Proof.
  intros Hheap Hwf Hshape after.
  destruct (SparseLogisticRegression_init_square init heap nb_nodes input_dim
              adj out_dim cuda A n Hheap Hwf Hshape)
    as [A' [L [Hinit [Hshape' [_ [Hentries _]]]]]].
  subst after. rewrite Hinit. cbn [fst snd is_ok].
  split; [reflexivity|]. exists A'.
  split; [apply lookup_insert_eq|]. split; [exact Hshape'|]. split; [|split].
  - intros i Hi. rewrite Hentries by assumption. rewrite Nat.eqb_refl. reflexivity.
  - intros i j Hi Hj Hne. rewrite Hentries by assumption.
    destruct (Nat.eqb_spec i j); [contradiction | reflexivity].
  - intros other Hne. apply lookup_insert_ne. congruence.
Qed.

Lemma init_zeroes_diagonal_in_place_witness :
  exists A',
    (SparseLogisticRegression_init zero_init (<[0 := cycle4]> ∅) 4 1 0 None false).1
      !! 0 = Some A' /\
    get cycle4 [0; 0] = 1%R /\
    get A' [0; 0] = 0%R /\
    get A' [0; 1] = get cycle4 [0; 1].
Proof.
  assert (Hheap : (<[0 := cycle4]> ∅ : gmap nat tensor) !! 0 = Some cycle4)
    by apply lookup_insert_eq.
  destruct (init_zeroes_diagonal_in_place zero_init (<[0 := cycle4]> ∅) 4 1 0
              None false cycle4 4 Hheap eq_refl eq_refl)
    as [_ [A' [Hlook [_ [Hdiag [Hoff _]]]]]].
  exists A'. split; [exact Hlook|]. split; [reflexivity|]. split.
  - apply Hdiag. lia.
  - apply Hoff; lia.
Defined.

(** C3, as amended: on a square adjacency the construction of the Laplacian
    never fails.  When every degree (the column sum of the adjacency with
    its diagonal zeroed, plus epsilon) is positive, the Laplacian is the
    finite matrix [I - D^-1/2 A D^-1/2], and it is symmetric whenever the
    adjacency is symmetric; when the adjacency has no negative entry every
    degree is positive, also that of a node without edges.  A negative
    degree leaves NaN in the row and in the column of its node. *)
Theorem laplacian_symmetric (init : list nat -> R)
  (heap : gmap nat tensor) (nb_nodes input_dim adj : nat)
  (out_dim : option nat) (cuda : bool) (A : tensor) (n : nat) :
  heap !! adj = Some A -> wf A -> shape A = [n; n] ->
  let after :=
    SparseLogisticRegression_init init heap nb_nodes input_dim adj out_dim cuda in
  exists obj A',
    after.2 = Ok obj /\ after.1 !! adj = Some A' /\
    FTorch.shape (slr_laplacian obj) = [n; n] /\
    ((forall j, j < n -> (0 < degree A' n j)%R) ->
     (forall i j, i < n -> j < n ->
        FTorch.get (slr_laplacian obj) [i; j]
        = Fin (delta i j
               - inv_sqrt_degree A' n i * get A' [i; j] * inv_sqrt_degree A' n j)) /\
     ((forall i j, i < n -> j < n -> get A [i; j] = get A [j; i]) ->
      forall i j, i < n -> j < n ->
        FTorch.get (slr_laplacian obj) [i; j]
        = FTorch.get (slr_laplacian obj) [j; i])) /\
    ((forall i j, i < n -> j < n -> (0 <= get A [i; j])%R) ->
     forall j, j < n -> (0 < degree A' n j)%R) /\
    (forall j, j < n -> (degree A' n j < 0)%R ->
     forall i, i < n ->
       FTorch.get (slr_laplacian obj) [i; j] = NaN /\
       FTorch.get (slr_laplacian obj) [j; i] = NaN).
Proof.
  intros Hheap Hwf Hshape after.
  destruct (SparseLogisticRegression_init_square init heap nb_nodes input_dim
              adj out_dim cuda A n Hheap Hwf Hshape)
    as [A' [L [Hinit [Hshape' [Hwf' [Hentries [HshapeL HL]]]]]]].
  subst after. rewrite Hinit. cbn [fst snd].
  eexists _, A'. split; [reflexivity|]. cbn [slr_laplacian].
  split; [apply lookup_insert_eq|]. split; [exact HshapeL|].
  split; [|split].
  - intros Hpos.
    pose proof (laplacian_of_entries A' n Hshape' L HL Hpos) as Hfin.
    split; [exact Hfin|].
    intros Hsym i j Hi Hj. rewrite !Hfin by assumption.
    rewrite !Hentries by assumption. rewrite (Hsym j i) by assumption.
    unfold delta. rewrite (Nat.eqb_sym j i).
    destruct (i =? j); f_equal; ring.
  - intros Hnonneg j Hj. apply degree_positive.
    intros i Hi. rewrite Hentries by assumption.
    destruct (i =? j); [lra | apply Hnonneg; assumption].
  - intros j Hj Hneg. apply (laplacian_of_nan A' n Hshape' L j HL Hj Hneg).
Qed.

Lemma cycle4_symmetric i j :
  i < 4 -> j < 4 -> get cycle4 [i; j] = get cycle4 [j; i].
Proof.
  intros Hi Hj.
  do 4 (destruct i as [|i];
        [do 4 (destruct j as [|j]; [reflexivity|]); lia|]).
  lia.
Qed.

Lemma cycle4_nonneg i j : i < 4 -> j < 4 -> (0 <= get cycle4 [i; j])%R.
Proof.
  intros Hi Hj.
  do 4 (destruct i as [|i];
        [do 4 (destruct j as [|j]; [unfold get; simpl; lra|]); lia|]).
  lia.
Qed.

Lemma laplacian_symmetric_witness :
  exists obj,
    (SparseLogisticRegression_init zero_init (<[0 := cycle4]> ∅) 4 1 0 None false).2
    = Ok obj /\
    (forall i j, i < 4 -> j < 4 ->
       FTorch.get (slr_laplacian obj) [i; j]
       = FTorch.get (slr_laplacian obj) [j; i]).
Proof.
  assert (Hheap : (<[0 := cycle4]> ∅ : gmap nat tensor) !! 0 = Some cycle4)
    by apply lookup_insert_eq.
  destruct (laplacian_symmetric zero_init (<[0 := cycle4]> ∅) 4 1 0
              None false cycle4 4 Hheap eq_refl eq_refl)
    as [obj [A' [Hok [_ [_ [Hfinite [Hpos _]]]]]]].
  exists obj. split; [exact Hok|].
  apply (Hfinite (Hpos cycle4_nonneg)). exact cycle4_symmetric.
Defined.

Lemma inv_sqrt_degree_positive a n j :
  (0 < degree a n j)%R -> (0 < inv_sqrt_degree a n j)%R.
Proof.
  intros H. unfold inv_sqrt_degree.
  apply Rinv_0_lt_compat, sqrt_lt_R0, H.
Qed.

(** C3 as stated fails: for the adjacency of one directed edge, which is
    square and not symmetric, the constructor succeeds and its Laplacian
    differs at [(0, 1)] and [(1, 0)]; and for the symmetric adjacency of one
    edge of weight -1 the degrees are negative and the Laplacian holds NaN,
    the epsilon notwithstanding. *)
Lemma laplacian_not_symmetric :
  (exists obj,
     (SparseLogisticRegression_init zero_init (<[0 := directed_edge]> ∅)
        2 1 0 None false).2 = Ok obj /\
     FTorch.get (slr_laplacian obj) [0; 1]
     <> FTorch.get (slr_laplacian obj) [1; 0]) /\
  (exists obj,
     (SparseLogisticRegression_init zero_init (<[0 := negative_edge]> ∅)
        2 1 0 None false).2 = Ok obj /\
     FTorch.get (slr_laplacian obj) [0; 1] = NaN /\
     FTorch.get (slr_laplacian obj) [1; 0] = NaN).
Proof.
  split.
  - assert (Hheap : (<[0 := directed_edge]> ∅ : gmap nat tensor) !! 0
                    = Some directed_edge) by apply lookup_insert_eq.
    destruct (SparseLogisticRegression_init_square zero_init
                (<[0 := directed_edge]> ∅) 2 1 0 None false directed_edge 2
                Hheap eq_refl eq_refl)
      as [A' [L [Hinit [Hshape' [Hwf' [Hentries [HshapeL HL]]]]]]].
    rewrite Hinit. cbn [snd]. eexists. split; [reflexivity|]. cbn [slr_laplacian].
    assert (Hdeg : forall j, j < 2 -> (0 < degree A' 2 j)%R).
    { intros j Hj. apply degree_positive.
      intros i Hi. rewrite Hentries by lia.
      destruct i as [|[|i]], j as [|[|j]]; try lia;
        cbn [Nat.eqb]; unfold get; simpl; lra. }
    rewrite !(laplacian_of_entries A' 2 Hshape' L HL Hdeg) by lia.
    rewrite !Hentries by lia. cbn [Nat.eqb delta].
    pose proof (inv_sqrt_degree_positive A' 2 0 (Hdeg 0 ltac:(lia))) as H0.
    pose proof (inv_sqrt_degree_positive A' 2 1 (Hdeg 1 ltac:(lia))) as H1.
    replace (get directed_edge [0; 1]) with 1%R by reflexivity.
    replace (get directed_edge [1; 0]) with 0%R by reflexivity.
    pose proof (Rmult_lt_0_compat _ _ H0 H1). intros [= Heq]. lra.
  - assert (Hheap : (<[0 := negative_edge]> ∅ : gmap nat tensor) !! 0
                    = Some negative_edge) by apply lookup_insert_eq.
    destruct (SparseLogisticRegression_init_square zero_init
                (<[0 := negative_edge]> ∅) 2 1 0 None false negative_edge 2
                Hheap eq_refl eq_refl)
      as [A' [L [Hinit [Hshape' [Hwf' [Hentries [HshapeL HL]]]]]]].
    rewrite Hinit. cbn [snd]. eexists. split; [reflexivity|]. cbn [slr_laplacian].
    assert (Hneg : (Rsum 2 (fun k => get A' [k; 1%nat]) + epsilon < 0)%R).
    { unfold Rsum. cbn [seq map fold_right]. rewrite !Hentries by lia.
      cbn [Nat.eqb].
      replace (get negative_edge [0%nat; 1%nat]) with (-1)%R by reflexivity.
      unfold epsilon. lra. }
    destruct (laplacian_of_nan A' 2 Hshape' L 1 HL ltac:(lia) Hneg 0 ltac:(lia))
      as [H01 H10].
    split; assumption.
Qed.

(** ** Shapes through the operations *)

Section ShapeFacts.

Lemma bshape_rev_cons x y a b :
  x = y \/ x = 1 \/ y = 1 ->
  bshape_rev (x :: a) (y :: b) = cons (bdim x y) <$> bshape_rev a b.
Proof.
  intros H. unfold bdim. cbn [bshape_rev].
  destruct (Nat.eqb_spec x y) as [->|Hxy].
  - destruct (Nat.eqb_spec y 1) as [->|]; reflexivity.
  - destruct (Nat.eqb_spec x 1); [reflexivity|].
    destruct (Nat.eqb_spec y 1); [reflexivity | lia].
Qed.

Lemma bdim_same x : bdim x x = x.
Proof. unfold bdim. destruct (Nat.eqb_spec x 1); congruence. Qed.

Lemma bdim_one_r x : bdim x 1 = x.
Proof. unfold bdim. destruct (Nat.eqb_spec x 1); congruence. Qed.

Lemma bdim_one_l y : bdim 1 y = y.
Proof. reflexivity. Qed.

Lemma broadcast_mid_one E N H : broadcast_shapes [E; N; H] [E; 1; H] = Ok [E; N; H].
Proof.
  unfold broadcast_shapes. cbn [rev app].
  rewrite !bshape_rev_cons by auto. cbn [bshape_rev fmap option_fmap option_map].
  rewrite !bdim_same, bdim_one_r. reflexivity.
Qed.

Lemma broadcast_last_one_r E N C : broadcast_shapes [E; N; C] [E; N; 1] = Ok [E; N; C].
Proof.
  unfold broadcast_shapes. cbn [rev app].
  rewrite !bshape_rev_cons by auto. cbn [bshape_rev fmap option_fmap option_map].
  rewrite !bdim_same, bdim_one_r. reflexivity.
Qed.


Lemma broadcast_outer E N C H :
  broadcast_shapes [E; N; C; 1] [E; N; 1; H] = Ok [E; N; C; H].
Proof.
  unfold broadcast_shapes. cbn [rev app].
  rewrite !bshape_rev_cons by auto. cbn [bshape_rev fmap option_fmap option_map].
  rewrite !bdim_same, bdim_one_r, bdim_one_l. reflexivity.
Qed.

(** The input against the embedding table. *)
Lemma broadcast_embedding E N C e :
  C = e \/ C = 1 -> broadcast_shapes [E; N; C] [N; e] = Ok [E; N; e].
Proof.
  intros HC. unfold broadcast_shapes. cbn [rev app].
  rewrite !bshape_rev_cons by (destruct HC; auto).
  cbn [bshape_rev fmap option_fmap option_map].
  rewrite bdim_same. destruct HC as [->| ->]; [rewrite bdim_same | rewrite bdim_one_l];
    reflexivity.
Qed.

Lemma numel3 E N C : numel [E; N; C] = E * N * C.
Proof. cbn [numel fold_right]. lia. Qed.

Lemma numel2 M C : numel [M; C] = M * C.
Proof. cbn [numel fold_right]. lia. Qed.

(** [x.view(-1, nb_channels)] on a rank-three tensor. *)
Lemma view_rows E N C d :
  0 < C ->
  view (mkTensor [E; N; C] d) [-1; Z.of_nat C]%Z = Ok (mkTensor [E * N; C] d).
Proof.
  intros HC. unfold view. cbn [shape data]. rewrite numel3.
  rewrite view_shape_infer_rows; [|assumption | apply Nat.Div0.mod_mul].
  rewrite Nat.div_mul by lia. reflexivity.
Qed.

Lemma view_sizes s d s' :
  numel s' = numel s ->
  view (mkTensor s d) (map Z.of_nat s') = Ok (mkTensor s' d).
Proof.
  intros H. unfold view. cbn [shape data]. rewrite view_shape_sizes, H, Nat.eqb_refl.
  reflexivity.
Qed.

(** [x.view(nb_examples, -1)] *)
Lemma view_flatten E M d s :
  0 < E -> numel s = E * M ->
  view (mkTensor s d) [Z.of_nat E; -1]%Z = Ok (mkTensor [E; M] d).
Proof.
  intros HE Hs. unfold view. cbn [shape data]. rewrite Hs.
  rewrite view_shape_infer_cols;
    [|assumption | rewrite Nat.mul_comm; apply Nat.Div0.mod_mul].
  rewrite (Nat.mul_comm E M), Nat.div_mul by lia. reflexivity.
Qed.

Lemma Linear_forward_rows l M C d :
  C = in_features l ->
  Linear_forward l (mkTensor [M; C] d)
  = Ok (tabulate [M; out_features l] (Linear_entry l (mkTensor [M; C] d))).
Proof.
  intros ->. unfold Linear_forward. cbn [shape rev app].
  rewrite Nat.eqb_refl. reflexivity.
Qed.

End ShapeFacts.

Section GateTotal.


Lemma ElementwiseGateLayer_init_features init id_dim :
  in_features (gate_attn (ElementwiseGateLayer_init init id_dim)) = id_dim /\
  out_features (gate_attn (ElementwiseGateLayer_init init id_dim)) = 1.
Proof. split; reflexivity. Qed.

End GateTotal.

Lemma gate_values_in_unit_interval_witness :
  Forall in_unit_interval (data gate_output0).
Proof.
  apply (gate_values_in_unit_interval gate0
           (StaticElementwiseGateLayer_init 1) gate_input0 gate_output0).
  left. reflexivity.
Defined.

(** ** Attention pooling *)

Section Attention.

Local Open Scope R_scope.

Lemma Rsum_scale n f c : Rsum n (fun k => f k / c) = Rsum n f / c.
Proof.
  induction n as [|n IH]; [unfold Rsum; simpl; lra|].
  rewrite !Rsum_S, IH. lra.
Qed.

Lemma Rsum_positive n f :
  (1 <= n)%nat -> (forall k, (k < n)%nat -> 0 < f k) -> 0 < Rsum n f.
Proof.
  intros Hn H. destruct n as [|n]; [lia|]. rewrite Rsum_S.
  assert (0 <= Rsum n f).
  { apply Rsum_nonneg. intros k Hk. apply Rlt_le, H. lia. }
  pose proof (H n ltac:(lia)). lra.
Qed.

Lemma Rsum_ge_term n f k :
  (forall i, (i < n)%nat -> 0 <= f i) -> (k < n)%nat -> f k <= Rsum n f.
Proof.
  intros Hf. induction n as [|n IH]; intros Hk; [lia|].
  rewrite Rsum_S. pose proof (Hf n ltac:(lia)).
  assert (0 <= Rsum n f) by (apply Rsum_nonneg; intros; apply Hf; lia).
  destruct (Nat.eq_dec k n) as [->|Hne]; [lra|].
  assert (f k <= Rsum n f) by (apply IH; [intros; apply Hf; lia | lia]). lra.
Qed.

Lemma view_zero_channels s d : view (mkTensor s d) [-1; Z.of_nat 0]%Z = Raise RuntimeError.
Proof. reflexivity. Qed.

Lemma view_no_rows s d : view (mkTensor s d) [Z.of_nat 0; -1]%Z = Raise RuntimeError.
Proof. reflexivity. Qed.

Lemma fview_no_rows s d :
  FTorch.view (FTorch.mkTensor s d) [Z.of_nat 0; -1]%Z = Raise RuntimeError.
Proof. reflexivity. Qed.

Lemma fview_sizes s d s' :
  numel s' = numel s ->
  FTorch.view (FTorch.mkTensor s d) (map Z.of_nat s') = Ok (FTorch.mkTensor s' d).
Proof.
  intros H. unfold FTorch.view. cbn [FTorch.shape FTorch.data].
  rewrite view_shape_sizes, H, Nat.eqb_refl. reflexivity.
Qed.

Lemma fview_flatten E M d s :
  (0 < E)%nat -> numel s = (E * M)%nat ->
  FTorch.view (FTorch.mkTensor s d) [Z.of_nat E; -1]%Z
  = Ok (FTorch.mkTensor [E; M] d).
Proof.
  intros HE Hs. unfold FTorch.view. cbn [FTorch.shape FTorch.data]. rewrite Hs.
  rewrite view_shape_infer_cols;
    [|assumption | rewrite Nat.mul_comm; apply Nat.Div0.mod_mul].
  rewrite (Nat.mul_comm E M), Nat.div_mul by lia. reflexivity.
Qed.

Lemma fsum_dim_nodes E N H dw :
  FTorch.sum_dim (FTorch.mkTensor [E; N; H] dw) 1
  = Ok (FTorch.tabulate [E; H]
          (fun idx => Float.sum N (fun k => FTorch.get (FTorch.mkTensor [E; N; H] dw)
                                              (insert_at 1 k idx)))).
Proof. reflexivity. Qed.

Lemma funsqueeze_nodes E H d :
  FTorch.unsqueeze (FTorch.mkTensor [E; H] d) 1
  = Ok (FTorch.mkTensor [E; 1%nat; H] d).
Proof. reflexivity. Qed.

Lemma funsqueeze_before_last E N H d :
  FTorch.unsqueeze (FTorch.mkTensor [E; N; H] d) (-2)
  = Ok (FTorch.mkTensor [E; N; 1%nat; H] d).
Proof. reflexivity. Qed.

Lemma unsqueeze_last E N C d :
  unsqueeze (mkTensor [E; N; C] d) (-1) = Ok (mkTensor [E; N; C; 1%nat] d).
Proof. reflexivity. Qed.

Lemma fsum_dim_nodes4 E N C H d :
  FTorch.sum_dim (FTorch.mkTensor [E; N; C; H] d) 1
  = Ok (FTorch.tabulate [E; C; H]
          (fun idx => Float.sum N (fun k => FTorch.get (FTorch.mkTensor [E; N; C; H] d)
                                              (insert_at 1 k idx)))).
Proof. reflexivity. Qed.

Lemma fget_unsqueezed_tabulate E H f e h :
  (e < E)%nat -> (h < H)%nat ->
  FTorch.get (FTorch.mkTensor [E; 1%nat; H] (FTorch.data (FTorch.tabulate [E; H] f)))
    [e; 0%nat; h]
  = f [e; h].
Proof.
  intros He Hh. rewrite <- (fget_tabulate [E; H] f [e; h])
    by (repeat constructor; assumption).
  unfold FTorch.get, FTorch.tabulate.
  cbn [FTorch.shape FTorch.data ravel numel fold_right]. f_equal. lia.
Qed.

Lemma fget_flattened_tabulate E C H f e c h :
  (e < E)%nat -> (c < C)%nat -> (h < H)%nat ->
  FTorch.get (FTorch.mkTensor [E; (C * H)%nat]
                (FTorch.data (FTorch.tabulate [E; C; H] f)))
    [e; (c * H + h)%nat]
  = f [e; c; h].
Proof.
  intros He Hc Hh. rewrite <- (fget_tabulate [E; C; H] f [e; c; h])
    by (repeat constructor; assumption).
  unfold FTorch.get, FTorch.tabulate.
  cbn [FTorch.shape FTorch.data ravel numel fold_right]. f_equal. lia.
Qed.

Lemma bidx_mid_one E H e n h :
  (e < E)%nat -> (h < H)%nat -> bidx [E; 1%nat; H] [e; n; h] = [e; 0%nat; h].
Proof.
  intros He Hh. unfold bidx. cbn [length Nat.sub skipn bidx_aligned Nat.eqb].
  destruct (Nat.eqb_spec E 1), (Nat.eqb_spec H 1); repeat f_equal; lia.
Qed.

(** The exponential of the score of a node, read in the tensor of line 49
    once it is viewed as [(E, N, H)]. *)
Lemma exp_scores_entry fmt l t E N C d H e n h :
  C = in_features l -> (e < E)%nat -> (n < N)%nat -> (h < H)%nat ->
  FTorch.get
    (FTorch.mkTensor [E; N; H]
       (map (fun v => Float.exp fmt (Fin (v * t)))
          (data (tabulate [(E * N)%nat; H]
                   (Linear_entry l (mkTensor [(E * N)%nat; C] d))))))
    [e; n; h]
  = Float.exp fmt (Fin (head_score l t (mkTensor [E; N; C] d) e n h)).
Proof.
  intros HC He Hn Hh.
  set (T := tabulate [(E * N)%nat; H] (Linear_entry l (mkTensor [(E * N)%nat; C] d))).
  assert (Hb : in_bounds [(E * N)%nat; H] [(e * N + n)%nat; h])
    by (repeat constructor; [nia | assumption]).
  transitivity (FTorch.get (FTorch.map_real (fun v => Float.exp fmt (Fin (v * t))) T)
                  [(e * N + n)%nat; h]).
  { unfold FTorch.get, FTorch.map_real.
    cbn [FTorch.shape FTorch.data shape T tabulate ravel numel fold_right].
    f_equal. lia. }
  rewrite fget_map_real by (try apply wf_tabulate; exact Hb).
  unfold T. rewrite get_tabulate by exact Hb. do 2 f_equal.
  unfold head_score, affine_score, Linear_entry.
  cbn [List.last removelast app]. f_equal. f_equal.
  apply Rsum_ext. intros k Hk. f_equal.
  unfold get. cbn [shape data ravel numel fold_right]. f_equal. lia.
Qed.

(** Lines 47-51, common to attention pooling and to soft pooling: the
    weights, and what the rest of the function is applied to. *)
Lemma weights_prefix fmt l t E N C d H :
  exists W,
    (forall (A : Type) (K : tensor -> FTorch.tensor -> result A),
       (let* x' := view (mkTensor [E; N; C] d) [-1; Z.of_nat C]%Z in
        let* scores := Linear_forward l x' in
        let* aw :=
          FTorch.view
            (FTorch.map_real (fun v => Float.exp fmt (Fin (v * t))) scores)
            [Z.of_nat E; Z.of_nat N; Z.of_nat H] in
        let* total := FTorch.sum_dim aw 1 in
        let* total := FTorch.unsqueeze total 1 in
        let* w := FTorch.div aw total in
        K x' w)
       = if (0 <? C)%nat && (C =? in_features l)%nat
            && (numel [E; N; H] =? numel [(E * N)%nat; out_features l])%nat
         then K (mkTensor [(E * N)%nat; C] d) W
         else Raise RuntimeError) /\
    FTorch.shape W = [E; N; H] /\ FTorch.wf W /\
    (forall e n h, (e < E)%nat -> (n < N)%nat -> (h < H)%nat ->
       C = in_features l -> out_features l = H ->
       FTorch.get W [e; n; h]
       = Float.div
           (Float.exp fmt (Fin (head_score l t (mkTensor [E; N; C] d) e n h)))
           (Float.sum N
              (fun k => Float.exp fmt
                          (Fin (head_score l t (mkTensor [E; N; C] d) e k h))))).
Proof.
  set (w1 := FTorch.mkTensor [E; N; H]
               (map (fun v => Float.exp fmt (Fin (v * t)))
                  (data (tabulate [(E * N)%nat; out_features l]
                           (Linear_entry l (mkTensor [(E * N)%nat; C] d)))))).
  set (tot := FTorch.mkTensor [E; 1%nat; H]
                (FTorch.data
                   (FTorch.tabulate [E; H]
                      (fun idx => Float.sum N
                                    (fun k => FTorch.get w1 (insert_at 1 k idx)))))).
  exists (FTorch.tabulate [E; N; H]
            (fun idx => Float.div (FTorch.get w1 (bidx [E; N; H] idx))
                          (FTorch.get tot (bidx [E; 1%nat; H] idx)))).
  split; [|split; [reflexivity|split; [apply fwf_tabulate|]]].
  - intros A K. destruct (Nat.ltb_spec 0 C) as [HC|HC]; cbn [andb].
    2:{ assert (C = 0%nat) as -> by lia. rewrite view_zero_channels. reflexivity. }
    rewrite view_rows by exact HC. cbn [bind].
    unfold Linear_forward. cbn [shape rev app removelast].
    destruct (C =? in_features l)%nat; cbn [bind andb]; [|reflexivity].
    unfold FTorch.view. cbn [FTorch.shape FTorch.map_real tabulate shape].
    change [Z.of_nat E; Z.of_nat N; Z.of_nat H] with (map Z.of_nat [E; N; H]).
    rewrite view_shape_sizes.
    destruct (numel [E; N; H] =? numel [(E * N)%nat; out_features l])%nat;
      cbn [bind]; [|reflexivity].
    cbn [FTorch.data data]. fold w1. unfold w1 at 1. rewrite fsum_dim_nodes.
    cbn [bind]. fold w1. unfold FTorch.tabulate at 1. rewrite funsqueeze_nodes.
    cbn [bind]. unfold FTorch.div, FTorch.binop.
    unfold w1 at 1. cbn [FTorch.shape]. rewrite broadcast_mid_one. cbn [bind].
    reflexivity.
  - intros e n h He Hn Hh HC Hout.
    assert (Hb : in_bounds [E; N; H] [e; n; h]) by (repeat constructor; assumption).
    rewrite fget_tabulate by exact Hb.
    rewrite bidx_same, bidx_mid_one by assumption.
    assert (Hw1 : forall k, (k < N)%nat ->
              FTorch.get w1 [e; k; h]
              = Float.exp fmt (Fin (head_score l t (mkTensor [E; N; C] d) e k h))).
    { intros k Hk. unfold w1. rewrite Hout.
      apply exp_scores_entry; assumption. }
    rewrite Hw1 by exact Hn. f_equal.
    unfold tot.
    rewrite (fget_unsqueezed_tabulate E H
               (fun idx => Float.sum N (fun k => FTorch.get w1 (insert_at 1 k idx)))
               e h He Hh).
    apply fsum_ext. intros k Hk. cbn [insert_at firstn skipn app].
    apply Hw1, Hk.
Qed.

(** What attention pooling computes, and when. *)
Lemma AttentionLayer_forward_eq fmt (self : AttentionLayer) E N C d :
  let H := nb_attention_head self in
  let l := att_attn self in
  let x := mkTensor [E; N; C] d in
  exists applied w,
    AttentionLayer_forward fmt self x
    = (if (0 <? C)%nat && (C =? in_features l)%nat
          && (numel [E; N; H] =? numel [(E * N)%nat; out_features l])%nat
          && (0 <? E)%nat
       then Ok (applied, w) else Raise RuntimeError) /\
    FTorch.shape w = [E; N; H] /\ FTorch.wf w /\
    FTorch.shape applied = [E; (C * H)%nat] /\ FTorch.wf applied /\
    (forall e n h, (e < E)%nat -> (n < N)%nat -> (h < H)%nat ->
       C = in_features l -> out_features l = H ->
       FTorch.get w [e; n; h]
       = Float.div
           (Float.exp fmt (Fin (head_score l (temperature self) x e n h)))
           (Float.sum N
              (fun k => Float.exp fmt
                          (Fin (head_score l (temperature self) x e k h))))) /\
    (forall e c h, (e < E)%nat -> (c < C)%nat -> (h < H)%nat ->
       FTorch.get applied [e; (c * H + h)%nat]
       = Float.sum N (fun n => Float.mul (Fin (get x [e; n; c]))
                                 (FTorch.get w [e; n; h]))).
Proof.
  intros H l x.
  destruct (weights_prefix fmt l (temperature self) E N C d H)
    as [W [Hprefix [HshapeW [HwfW HW]]]].
  destruct W as [sw dw]. cbn [FTorch.shape] in HshapeW. subst sw.
  set (P := FTorch.tabulate [E; N; C; H]
              (fun idx => Float.mul
                            (FTorch.get (FTorch.of_real (mkTensor [E; N; C; 1%nat] d))
                               (bidx [E; N; C; 1%nat] idx))
                            (FTorch.get (FTorch.mkTensor [E; N; 1%nat; H] dw)
                               (bidx [E; N; 1%nat; H] idx)))).
  set (S := FTorch.tabulate [E; C; H]
              (fun idx => Float.sum N (fun k => FTorch.get P (insert_at 1 k idx)))).
  exists (FTorch.mkTensor [E; (C * H)%nat] (FTorch.data S)),
         (FTorch.mkTensor [E; N; H] dw).
  split; [|split; [reflexivity|split; [exact HwfW|split; [reflexivity|split; [|split]]]]].
  - unfold AttentionLayer_forward, size3. cbn [shape bind x].
    fold l H. cbv zeta. rewrite Hprefix.
    destruct ((0 <? C)%nat && (C =? in_features l)%nat
              && (numel [E; N; H] =? numel [(E * N)%nat; out_features l])%nat);
      cbn [andb]; [|reflexivity].
    change [Z.of_nat E; Z.of_nat N; Z.of_nat C] with (map Z.of_nat [E; N; C]).
    rewrite view_sizes by (rewrite numel3, numel2; lia). cbn [bind].
    rewrite unsqueeze_last. cbn [bind].
    rewrite funsqueeze_before_last. cbn [bind].
    unfold FTorch.mul, FTorch.binop.
    cbn [FTorch.shape FTorch.of_real FTorch.map_real shape].
    rewrite broadcast_outer. cbn [bind].
    fold (FTorch.map_real Fin (mkTensor [E; N; C; 1%nat] d)).
    fold (FTorch.of_real (mkTensor [E; N; C; 1%nat] d)). fold P.
    unfold P at 1. unfold FTorch.tabulate at 1. rewrite fsum_dim_nodes4.
    cbn [bind]. fold (FTorch.tabulate [E; N; C; H]
                        (fun idx => Float.mul
                            (FTorch.get (FTorch.of_real (mkTensor [E; N; C; 1%nat] d))
                               (bidx [E; N; C; 1%nat] idx))
                            (FTorch.get (FTorch.mkTensor [E; N; 1%nat; H] dw)
                               (bidx [E; N; 1%nat; H] idx)))).
    fold P. fold S.
    destruct (Nat.ltb_spec 0 E) as [HE|HE].
    + unfold S at 1. unfold FTorch.tabulate at 1.
      rewrite (fview_flatten E (C * H)) by (try assumption; cbn [numel fold_right]; lia).
      reflexivity.
    + assert (E = 0%nat) as -> by lia.
      unfold S at 1. unfold FTorch.tabulate at 1. rewrite fview_no_rows.
      reflexivity.
  - unfold FTorch.wf. cbn [FTorch.shape FTorch.data S FTorch.tabulate].
    rewrite length_map, length_indices. cbn [numel fold_right]. lia.
  - exact HW.
  - intros e c h He Hc Hh. unfold S. rewrite fget_flattened_tabulate by assumption.
    apply fsum_ext. intros k Hk. cbn [insert_at firstn skipn app].
    unfold P. rewrite fget_tabulate by (repeat constructor; assumption).
    assert (Hx : bidx [E; N; C; 1%nat] [e; k; c; h] = [e; k; c; 0%nat]).
    { unfold bidx. cbn [length Nat.sub skipn bidx_aligned Nat.eqb].
      destruct (Nat.eqb_spec E 1), (Nat.eqb_spec N 1), (Nat.eqb_spec C 1);
        repeat f_equal; lia. }
    assert (Hwi : bidx [E; N; 1%nat; H] [e; k; c; h] = [e; k; 0%nat; h]).
    { unfold bidx. cbn [length Nat.sub skipn bidx_aligned Nat.eqb].
      destruct (Nat.eqb_spec E 1), (Nat.eqb_spec N 1), (Nat.eqb_spec H 1);
        repeat f_equal; lia. }
    rewrite Hx, Hwi, fget_of_real.
    replace (get (mkTensor [E; N; C; 1%nat] d) [e; k; c; 0%nat])
      with (get x [e; k; c])
      by (unfold get, x; cbn [shape data ravel numel fold_right]; f_equal; lia).
    replace (FTorch.get (FTorch.mkTensor [E; N; 1%nat; H] dw) [e; k; 0%nat; h])
      with (FTorch.get (FTorch.mkTensor [E; N; H] dw) [e; k; h])
      by (unfold FTorch.get;
          cbn [FTorch.shape FTorch.data ravel numel fold_right]; f_equal; lia).
    reflexivity.
Qed.

(** A call that returns has met the conditions. *)
Lemma AttentionLayer_forward_inv fmt (self : AttentionLayer) E N C d applied w :
  AttentionLayer_forward fmt self (mkTensor [E; N; C] d) = Ok (applied, w) ->
  (0 < C)%nat /\ C = in_features (att_attn self) /\ (0 < E)%nat /\
  (E * N * nb_attention_head self
   = E * N * out_features (att_attn self))%nat.
Proof.
  intros Hfw.
  destruct (AttentionLayer_forward_eq fmt self E N C d)
    as [applied' [w' [Heq _]]].
  rewrite Heq in Hfw.
  destruct (Nat.ltb_spec 0 C); cbn [andb] in Hfw; [|discriminate].
  destruct (Nat.eqb_spec C (in_features (att_attn self))); cbn [andb] in Hfw;
    [|discriminate].
  destruct (Nat.eqb_spec (numel [E; N; nb_attention_head self])
              (numel [(E * N)%nat; out_features (att_attn self)])) as [Hnum|];
    cbn [andb] in Hfw; [|discriminate].
  destruct (Nat.ltb_spec 0 E); [|discriminate].
  rewrite numel3, numel2 in Hnum. repeat split; try assumption; lia.
Qed.

End Attention.

Section Normalisation.

Local Open Scope R_scope.

Variables (fmt : format) (N : nat) (s : nat -> R).
Hypothesis Hrange : exp_in_range fmt N s.

(** The exponential of a score as the format holds it when it does not
    overflow. *)
Local Abbreviation held k :=
  (if Rle_dec (exp (s k)) (half_min fmt) then 0 else exp (s k)).

Lemma exp_held k : (k < N)%nat -> Float.exp fmt (Fin (s k)) = Fin (held k).
Proof.
  intros Hk. destruct Hrange as [Hsum _]. unfold Float.exp.
  assert (Hle : exp (s k) <= Rsum N (fun n => exp (s n))).
  { apply (Rsum_ge_term N (fun n => exp (s n)));
      [intros i _; apply Rlt_le, exp_pos | exact Hk]. }
  destruct (Rlt_dec (max_finite fmt) (exp (s k))); [lra|].
  destruct (Rle_dec (exp (s k)) (half_min fmt)); reflexivity.
Qed.

Lemma held_nonneg k : 0 <= held k.
Proof.
  destruct (Rle_dec (exp (s k)) (half_min fmt)); [lra|].
  apply Rlt_le, exp_pos.
Qed.

Lemma held_sum_positive : 0 < Rsum N (fun k => held k).
Proof.
  destruct Hrange as [_ [n [Hn Hexp]]].
  apply Rlt_le_trans with (held n).
  - destruct (Rle_dec (exp (s n)) (half_min fmt)); [lra | apply exp_pos].
  - apply (Rsum_ge_term N (fun k => held k));
      [intros i _; apply held_nonneg | exact Hn].
Qed.

Lemma exp_sum_held :
  Float.sum N (fun k => Float.exp fmt (Fin (s k)))
  = Fin (Rsum N (fun k => held k)).
Proof.
  rewrite <- fsum_fin. apply fsum_ext. intros k Hk. apply exp_held, Hk.
Qed.

(** A normalised weight is a finite number between 0 and 1, positive when
    its own exponential does not round to zero. *)
Lemma normalised_weight n :
  (n < N)%nat ->
  exists r,
    Float.div (Float.exp fmt (Fin (s n)))
      (Float.sum N (fun k => Float.exp fmt (Fin (s k)))) = Fin r /\
    r = held n / Rsum N (fun k => held k) /\
    0 <= r <= 1 /\ (half_min fmt < exp (s n) -> 0 < r).
Proof.
  intros Hn. pose proof held_sum_positive as Hpos.
  exists (held n / Rsum N (fun k => held k)).
  split; [|split; [reflexivity|split]].
  - rewrite exp_sum_held, exp_held by exact Hn. unfold Float.div.
    destruct (Req_dec_T (Rsum N (fun k => held k)) 0); [lra | reflexivity].
  - pose proof (held_nonneg n) as H0.
    assert (Hle : held n <= Rsum N (fun k => held k)).
    { apply (Rsum_ge_term N (fun k => held k));
        [intros i _; apply held_nonneg | exact Hn]. }
    split.
    + apply Rmult_le_pos; [exact H0 | apply Rlt_le, Rinv_0_lt_compat, Hpos].
    + apply Rmult_le_reg_r with (Rsum N (fun k => held k)); [exact Hpos|].
      unfold Rdiv. rewrite Rmult_assoc, Rinv_l by lra. lra.
  - intros Hexp. apply Rdiv_lt_0_compat; [|exact Hpos].
    destruct (Rle_dec (exp (s n)) (half_min fmt)); [lra | apply exp_pos].
Qed.

(** The normalised weights sum to 1. *)
Lemma normalised_weights_sum :
  Float.sum N
    (fun n => Float.div (Float.exp fmt (Fin (s n)))
                (Float.sum N (fun k => Float.exp fmt (Fin (s k)))))
  = Fin 1.
Proof.
  pose proof held_sum_positive as Hpos.
  rewrite (fsum_ext N _ (fun n => Fin (held n / Rsum N (fun k => held k)))).
  - rewrite fsum_fin, Rsum_scale. f_equal. field. lra.
  - intros n Hn. destruct (normalised_weight n Hn) as [r [-> [-> _]]].
    reflexivity.
Qed.

(** The normalised weights as real numbers. *)
Lemma normalised_weights_real :
  exists r : nat -> R,
    (forall n, (n < N)%nat ->
       Float.div (Float.exp fmt (Fin (s n)))
         (Float.sum N (fun k => Float.exp fmt (Fin (s k)))) = Fin (r n)) /\
    (forall n, (n < N)%nat -> 0 <= r n <= 1) /\
    Rsum N r = 1.
Proof.
  exists (fun n => held n / Rsum N (fun k => held k)). split; [|split].
  - intros n Hn. destruct (normalised_weight n Hn) as [r [-> [-> _]]].
    reflexivity.
  - intros n Hn. destruct (normalised_weight n Hn) as [r [_ [-> [Hr _]]]].
    exact Hr.
  - rewrite Rsum_scale. pose proof held_sum_positive. field. lra.
Qed.

End Normalisation.

Section Binary32.

Local Open Scope R_scope.

Lemma Rinv_lt_one x : 1 < x -> 0 < / x < 1.
Proof.
  intros Hx. split; [apply Rinv_0_lt_compat; lra|].
  rewrite <- Rinv_1. apply Rinv_lt_contravar; lra.
Qed.

Lemma binary32_range :
  2 <= max_finite Float.binary32 /\ half_min Float.binary32 < 1 /\
  max_finite Float.binary32 < 2 ^ 128.
Proof.
  cbn [max_finite half_min Float.binary32].
  assert (Hq : 0 < / 2 ^ 23 < 1) by (apply Rinv_lt_one, Rlt_pow_R1; [lra | lia]).
  assert (Hp : 1 <= 2 ^ 126) by (apply pow_R1_Rle; lra).
  replace (2 ^ 127) with (2 * 2 ^ 126)
    by (change 127%nat with (S 126); reflexivity).
  replace (2 ^ 128) with (2 * (2 * 2 ^ 126))
    by (change 128%nat with (S (S 126)); reflexivity).
  split; [nra|]. split; [|nra].
  apply Rinv_lt_one, Rlt_pow_R1; [lra | lia].
Qed.

Lemma exp_pow x n : exp (INR n * x) = exp x ^ n.
Proof.
  induction n as [|n IH].
  - rewrite Rmult_0_l. apply exp_0.
  - rewrite S_INR, Rmult_plus_distr_r, Rmult_1_l, exp_plus, IH.
    cbn [pow]. ring.
Qed.

(** The exponential of 100 is beyond single precision. *)
Lemma exp_100_overflows : max_finite Float.binary32 < exp 100.
Proof.
  destruct binary32_range as [_ [_ Hmax]].
  apply Rlt_le_trans with (2 ^ 128); [exact Hmax|].
  replace 100 with (INR 800 * (1 / 8))
    by (rewrite INR_IZR_INZ; change (Z.of_nat 800) with 800%Z; lra).
  rewrite exp_pow.
  apply Rle_trans with ((9 / 8) ^ 800).
  - replace 800%nat with (6 * 133 + 2)%nat by reflexivity.
    rewrite pow_add, pow_mult.
    assert (H6 : 2 <= (9 / 8) ^ 6) by (cbn [pow]; lra).
    assert (H133 : 2 ^ 133 <= ((9 / 8) ^ 6) ^ 133) by (apply pow_incr; lra).
    assert (H2 : 1 <= (9 / 8) ^ 2) by (cbn [pow]; lra).
    assert (H128 : 2 ^ 128 <= 2 ^ 133) by (apply Rle_pow; [lra | lia]).
    assert (Hpos : 0 < 2 ^ 133) by (apply pow_lt; lra).
    nra.
  - apply pow_incr. split; [lra|].
    pose proof (exp_ineq1_le (1 / 8)). lra.
Qed.

(** Two nodes whose scores are zero are within single precision. *)
Lemma zero_scores_in_range (s : nat -> R) :
  (forall n, s n = 0) -> exp_in_range Float.binary32 2 s.
Proof.
  intros Hs. destruct binary32_range as [Hmax [Hmin _]]. split.
  - unfold Rsum. cbn [seq map fold_right]. rewrite !Hs, exp_0. lra.
  - exists 0%nat. split; [lia|]. rewrite Hs, exp_0. exact Hmin.
Qed.

Lemma attention0_in_range :
  exp_in_range Float.binary32 2
    (fun n => head_score (att_attn attention0) (temperature attention0)
                (mkTensor [1; 2; 1]%nat attention_input0) 0 n 0).
Proof.
  apply zero_scores_in_range. intros n.
  unfold head_score, affine_score, Rsum, get, attention_input0.
  destruct n as [|[|m]]; cbn; unfold zero_init; lra.
Qed.

Lemma softpool0_in_range h :
  exp_in_range Float.binary32 2
    (fun n => head_score (sp_attn softpool0) (sp_temperature softpool0)
                (mkTensor [1; 2; 1]%nat attention_input0) 0 n h).
Proof.
  apply zero_scores_in_range. intros n.
  unfold head_score, affine_score, Rsum, attention_input0.
  cbn [softpool0 SoftPoolingLayer_init sp_attn sp_temperature nn_Linear
       in_features seq map fold_right].
  assert (Hzero : forall t : tensor, Forall (fun v => v = 0) (data t) ->
            forall idx, get t idx = 0).
  { intros t Ht idx. unfold get.
    destruct (nth_in_or_default (ravel (shape t) idx) (data t) 0) as [Hin | ->];
      [|reflexivity].
    rewrite List.Forall_forall in Ht. apply Ht, Hin. }
  rewrite (Hzero (mkTensor [1; 2; 1]%nat [0; 0])) by (repeat constructor).
  rewrite (Hzero (bias _)); [lra|].
  apply List.Forall_forall. intros v Hv. cbn [bias tabulate data] in Hv.
  apply in_map_iff in Hv as [idx [<- _]]. reflexivity.
Qed.

End Binary32.

(** C2, as amended: whenever [AttentionLayer.forward] returns on an input
    of shape [(E, N, C)], the weight tensor it returns has shape
    [(E, N, H)]; and for every example and every head for which the
    exponentials of the scores of the nodes stay within the format (their
    sum does not exceed the largest finite value and not all of them round
    to zero, which needs a node), the weights along the node axis are finite
    and sum to 1.  (Sums and quotients of finite values are exact.) *)
Theorem attention_weights_sum_to_one (fmt : format) (self : AttentionLayer)
  (E N C : nat) (d : list R) (applied w : FTorch.tensor) :
  AttentionLayer_forward fmt self (mkTensor [E; N; C] d) = Ok (applied, w) ->
  FTorch.shape w = [E; N; nb_attention_head self] /\
  forall e h, e < E -> h < nb_attention_head self ->
    exp_in_range fmt N
      (fun n => head_score (att_attn self) (temperature self)
                  (mkTensor [E; N; C] d) e n h) ->
    (forall n, n < N -> Float.finite (FTorch.get w [e; n; h])) /\
    Float.sum N (fun n => FTorch.get w [e; n; h]) = Fin 1.
Proof.
  intros Hfw.
  destruct (AttentionLayer_forward_inv fmt self E N C d applied w Hfw)
    as [HC [Hin [HE Hnum]]].
  destruct (AttentionLayer_forward_eq fmt self E N C d)
    as [applied' [w' [Heq [Hshape [_ [_ [_ [Hw _]]]]]]]].
  rewrite Hfw in Heq.
  destruct (_ && _) in Heq; [|discriminate]. injection Heq as -> ->.
  split; [exact Hshape|]. intros e h He Hh Hrange.
  assert (Hn0 : 0 < N) by (destruct Hrange as [_ [n [Hn _]]]; lia).
  assert (Hout : out_features (att_attn self) = nb_attention_head self).
  { symmetry. apply (Nat.mul_cancel_l _ _ (E * N)); [nia | exact Hnum]. }
  split.
  - intros n Hn. rewrite Hw by assumption.
    destruct (normalised_weight fmt N _ Hrange n Hn) as [r [Hr _]].
    exists r. exact Hr.
  - rewrite (fsum_ext N _ _ (fun n Hn => Hw e n h He Hn Hh Hin Hout)).
    apply (normalised_weights_sum fmt N _ Hrange).
Qed.

Section AttentionTotal.

(** On an input whose channels match the layer, attention pooling returns
    one vector of [C * H] entries per example. *)
Lemma AttentionLayer_forward_ok fmt (self : AttentionLayer) E N C d :
  C = in_features (att_attn self) ->
  out_features (att_attn self) = nb_attention_head self ->
  0 < C -> 0 < E ->
  exists applied w,
    AttentionLayer_forward fmt self (mkTensor [E; N; C] d) = Ok (applied, w) /\
    FTorch.shape applied = [E; C * nb_attention_head self] /\
    FTorch.wf applied.
Proof.
  intros HC Hout HposC HposE.
  destruct (AttentionLayer_forward_eq fmt self E N C d)
    as [applied [w [Heq [_ [_ [Hshape [Hwf _]]]]]]].
  exists applied, w. split; [|split; assumption].
  rewrite Heq, Hout, numel3, numel2.
  destruct (Nat.ltb_spec 0 C); [|lia].
  destruct (Nat.eqb_spec C (in_features (att_attn self))); [|contradiction].
  destruct (Nat.eqb_spec (E * N * nb_attention_head self)
              (E * N * nb_attention_head self)); [|contradiction].
  destruct (Nat.ltb_spec 0 E); [reflexivity | lia].
Qed.

End AttentionTotal.

Lemma attention_weights_sum_to_one_witness :
  exists applied w,
    AttentionLayer_forward Float.binary32 attention0
      (mkTensor [1; 2; 1] attention_input0) = Ok (applied, w) /\
    FTorch.shape w = [1; 2; 1] /\
    Float.sum 2 (fun n => FTorch.get w [0; n; 0]) = Fin 1.
Proof.
  assert (H01 : (0 < 1)%nat) by lia. assert (H02 : (0 < 2)%nat) by lia.
  destruct (AttentionLayer_forward_ok Float.binary32 attention0 1 2 1
              attention_input0 eq_refl eq_refl H01 H01)
    as [applied [w [Hfw _]]].
  exists applied, w. split; [exact Hfw|].
  destruct (attention_weights_sum_to_one Float.binary32 attention0 1 2 1
              attention_input0 applied w Hfw) as [Hshape Hsum].
  split; [exact Hshape|].
  apply (Hsum 0%nat 0%nat H01 H01). exact attention0_in_range.
Defined.

(** C2, as stated, fails: on the scores 100 and 0 of two nodes the
    exponential of the first is an infinity in single precision, the
    weights returned are a NaN and 0, and their sum is a NaN. *)
Lemma attention_weights_overflow :
  exists applied w,
    AttentionLayer_forward Float.binary32 attention_unit
      (mkTensor [1; 2; 1] attention_input_100) = Ok (applied, w) /\
    FTorch.get w [0; 0; 0] = NaN /\ FTorch.get w [0; 1; 0] = Fin 0 /\
    Float.sum 2 (fun n => FTorch.get w [0; n; 0]) <> Fin 1.
Proof.
  assert (H01 : (0 < 1)%nat) by lia. assert (H02 : (0 < 2)%nat) by lia.
  assert (H12 : (1 < 2)%nat) by lia.
  destruct (AttentionLayer_forward_eq Float.binary32 attention_unit 1 2 1
              attention_input_100)
    as [applied [w [Heq [_ [_ [_ [_ [Hw _]]]]]]]].
  exists applied, w. split; [exact Heq|].
  assert (Hs0 : head_score (att_attn attention_unit) (temperature attention_unit)
                  (mkTensor [1; 2; 1] attention_input_100) 0 0 0 = 100%R)
    by (unfold head_score, affine_score, Rsum, get, attention_input_100; cbn; lra).
  assert (Hs1 : head_score (att_attn attention_unit) (temperature attention_unit)
                  (mkTensor [1; 2; 1] attention_input_100) 0 1 0 = 0%R)
    by (unfold head_score, affine_score, Rsum, get, attention_input_100; cbn; lra).
  destruct binary32_range as [Hmax [Hmin _]]. pose proof exp_100_overflows as Hover.
  assert (He0 : Float.exp Float.binary32 (Fin 100) = PInf).
  { unfold Float.exp. destruct (Rlt_dec _ _); [reflexivity | contradiction]. }
  assert (He1 : Float.exp Float.binary32 (Fin 0) = Fin 1).
  { unfold Float.exp. rewrite exp_0.
    destruct (Rlt_dec _ _); [lra|]. destruct (Rle_dec _ _); [lra | reflexivity]. }
  assert (Hw0 : FTorch.get w [0; 0; 0] = NaN).
  { rewrite (Hw 0 0 0 H01 H02 H01 eq_refl eq_refl).
    rewrite !fsum_S, Hs0, Hs1, He0, He1. reflexivity. }
  assert (Hw1 : FTorch.get w [0; 1; 0] = Fin 0).
  { rewrite (Hw 0 1 0 H01 H12 H01 eq_refl eq_refl).
    rewrite !fsum_S, Hs0, Hs1, He0, He1. reflexivity. }
  split; [exact Hw0|]. split; [exact Hw1|].
  rewrite !fsum_S, Hw0, Hw1. discriminate.
Qed.

(** ** The forward pass of the network *)

Section ForwardStage.


Lemma unsqueeze_channel E N d :
  unsqueeze (mkTensor [E; N] d) 2 = Ok (mkTensor [E; N; 1] d).
Proof. reflexivity. Qed.

Lemma shape_Dropout_forward p training keep t :
  shape (Dropout_forward p training keep t) = shape t.
Proof. unfold Dropout_forward. destruct training; reflexivity. Qed.

Lemma tracked_true rt : grad_enabled rt = true -> tracked rt true = true.
Proof. intros H. unfold tracked. rewrite H. reflexivity. Qed.

(** The mask of a stage can be moved and multiplied when it is on the
    device of the tensor. *)
Lemma mask_placed (self : GraphNetwork) rt :
  same_device (device rt) (cuda self) = Ok tt ->
  (if cuda self then to_cuda (device rt) else Ok tt) = Ok tt.
Proof.
  destruct (cuda self); [|reflexivity].
  destruct (device rt); [discriminate | discriminate | reflexivity].
Qed.



End ForwardStage.

Section ForwardLoop.



Lemma repeat_as_map {A : Type} (a : A) n : repeat a n = map (fun _ => a) (seq 0 n).
Proof.
  generalize 0. induction n as [|n IH]; intros s; simpl; [reflexivity|].
  rewrite <- IH. reflexivity.
Qed.

Lemma enumerate_nth {A : Type} (l : list A) (d : A) :
  enumerate l = map (fun k => (k, nth k l d)) (seq 0 (length l)).
Proof.
  unfold enumerate.
  assert (H : forall s, combine (seq s (length l)) l
                        = map (fun k => (k, nth (k - s) l d)) (seq s (length l))).
  { induction l as [|a l IH]; intros s; [reflexivity|].
    cbn [length seq combine map]. rewrite Nat.sub_diag. cbn [nth]. f_equal.
    rewrite IH. apply map_ext_in. intros k Hk. apply in_seq in Hk.
    replace (k - s) with (S (k - S s)) by lia. reflexivity. }
  rewrite H. apply map_ext. intros k. rewrite Nat.sub_0_r. reflexivity.
Qed.



Lemma flat_map_seq_blocks m n :
  flat_map (fun i => seq (i * m) m) (seq 0 n) = seq 0 (n * m).
Proof.
  induction n as [|n IH]; [reflexivity|].
  rewrite seq_S, flat_map_app, IH. cbn [flat_map Nat.add].
  rewrite app_nil_r, <- seq_app. f_equal. lia.
Qed.

Lemma map_add_seq a m : map (fun k => a + k) (seq 0 m) = seq a m.
Proof.
  assert (H : forall s, map (fun k => a + k) (seq s m) = seq (a + s) m).
  { induction m as [|m IH]; intros s; [reflexivity|].
    cbn [seq map]. rewrite IH, Nat.add_succ_r. reflexivity. }
  rewrite H, Nat.add_0_r. reflexivity.
Qed.




End ForwardLoop.

Section ForwardShape.

Lemma gating_layers_as_map init gating channels dims :
  length dims - 1 = length channels ->
  add_gating_layers init gating channels dims
  = map (fun k => if Qpositive gating
                  then Some (ElementwiseGateLayer_init
                               (init ("gate_" +:+ pretty k)%string)
                               (nth k channels 0))
                  else None)
      (seq 0 (length channels)).
Proof.
  intros Hlen. unfold add_gating_layers. destruct (Qpositive gating).
  - rewrite (enumerate_nth channels 0), map_map. reflexivity.
  - rewrite Hlen. apply repeat_as_map.
Qed.

Lemma dropout_layers_as_map dims dropout :
  add_dropout_layers dims dropout
  = Ok (map (fun k => if dropout then Some (dropout_p true k) else None)
          (seq 0 (length dims - 1))).
Proof.
  destruct dropout; [apply add_dropout_layers_enabled|].
  unfold add_dropout_layers. rewrite repeat_as_map. reflexivity.
Qed.








End ForwardShape.

Section ForwardTail.


End ForwardTail.




(** * Further properties of the code *)

(** ** Parameter import: shapes, same-shape entries, repetition *)

Section ImportMore.

Lemma ravel_indices s : map (ravel s) (indices s) = seq 0 (numel s).
Proof.
  induction s as [|n s IH]; [reflexivity|].
  cbn [indices numel fold_right]. fold (numel s).
  rewrite <- flat_map_seq_blocks.
  rewrite flat_map_concat_map, concat_map, map_map, <- flat_map_concat_map.
  apply flat_map_ext. intros i. rewrite map_map. cbn [ravel].
  rewrite <- (map_map (ravel s) (fun k => i * numel s + k)), IH.
  apply map_add_seq.
Qed.

Lemma map_nth_all (d : list R) : map (fun k => nth k d 0%R) (seq 0 (length d)) = d.
Proof.
  induction d as [|a d IH]; [reflexivity|].
  cbn [length seq map nth]. f_equal.
  rewrite <- seq_shift, map_map. exact IH.
Qed.

(** Reading every entry of a tensor back gives the tensor. *)
Lemma tabulate_get t : wf t -> tabulate (shape t) (get t) = t.
Proof.
  intros Hwf. destruct t as [s d]. unfold tabulate, get, wf in *.
  cbn [shape data] in *. f_equal.
  rewrite <- (map_map (ravel s) (fun k => nth k d 0%R)), ravel_indices, <- Hwf.
  apply map_nth_all.
Qed.

Lemma tabulate_map s (f : R -> R) g :
  tabulate s (fun idx => f (g idx)) = map_t f (tabulate s g).
Proof. unfold tabulate, map_t. cbn [shape data]. rewrite map_map. reflexivity. Qed.

Lemma map_t_id (f : R -> R) t : (forall v, f v = v) -> map_t f t = t.
Proof.
  intros Hf. destruct t as [s d]. unfold map_t. cbn [shape data]. f_equal.
  rewrite (map_ext f id) by exact Hf. apply map_id.
Qed.

Variables (cast : dtype -> dtype -> R -> R) (dtype_of : string -> dtype).

(** A source of the shape of the destination is stored value by value, each
    converted to the element type of the destination. *)
Lemma copy_same_shape dt dst src :
  is_tensor src = true ->
  shape (tensor_of src) = shape dst -> wf (tensor_of src) ->
  copy_ cast dt dst src
  = Ok (map_t (convert cast (dtype_in src dt) dt) (tensor_of src)).
Proof.
  intros Hten Hshape Hwf.
  assert (H : forall sdt t, shape t = shape dst -> wf t ->
            match broadcast_shapes (shape dst) (shape t) with
            | Ok s =>
                if decide (s = shape dst) then
                  Ok (tabulate (shape dst)
                        (fun idx => convert cast sdt dt (get t (bidx (shape t) idx))))
                else Raise RuntimeError
            | Raise _ => Raise RuntimeError
            end = Ok (map_t (convert cast sdt dt) t)).
  { intros sdt t Ht Hwft. rewrite Ht, broadcast_shapes_refl.
    destruct (decide (shape dst = shape dst)) as [_|Hne]; [|contradiction].
    f_equal.
    transitivity (map_t (convert cast sdt dt) (tabulate (shape t) (get t)));
      [|rewrite tabulate_get by exact Hwft; reflexivity].
    rewrite <- tabulate_map, <- Ht.
    unfold tabulate. f_equal. apply map_ext_in. intros idx Hin.
    rewrite bidx_same; [reflexivity|]. apply in_bounds_in_indices, Hin. }
  destruct src as [sdt t|sdt t|]; [| |discriminate Hten];
    cbn [copy_ tensor_of dtype_in] in *; apply H; assumption.
Qed.

Lemma convert_same dt v : convert cast dt dt v = v.
Proof. unfold convert. destruct dt; reflexivity. Qed.

Lemma copy_shape dt dst src new :
  copy_ cast dt dst src = Ok new -> shape new = shape dst /\ wf new.
Proof.
  unfold copy_. destruct src as [sdt t|sdt t|]; [| |discriminate];
    (destruct (broadcast_shapes _ _) as [s|]; [|discriminate];
     destruct (decide (s = shape dst)); [|discriminate];
     intros [= <-]; split; [reflexivity | apply wf_tabulate]).
Qed.

(** The copy looks at the destination only for its shape. *)
Lemma copy_depends_on_shape dt dst dst' src :
  shape dst = shape dst' -> copy_ cast dt dst src = copy_ cast dt dst' src.
Proof. intros H. unfold copy_. rewrite H. reflexivity. Qed.

Lemma import_entry_shape own_state entry name :
  shape <$> (import_entry cast dtype_of own_state entry !! name)
  = shape <$> (own_state !! name).
Proof.
  unfold import_entry. destruct (own_state !! entry.1) as [cur|] eqn:Hcur;
    [|reflexivity].
  destruct (copy_ _ _ cur (parameter_data entry.2)) as [new|] eqn:Hcopy;
    [|reflexivity].
  destruct (decide (entry.1 = name)) as [<-|Hne].
  - rewrite lookup_insert_eq, Hcur. cbn. f_equal.
    apply (copy_shape _ _ _ _ Hcopy).
  - rewrite lookup_insert_ne by assumption. reflexivity.
Qed.

Lemma import_entries_shape state_dict own_state name :
  shape <$> (fold_left (import_entry cast dtype_of) state_dict own_state !! name)
  = shape <$> (own_state !! name).
Proof.
  revert own_state. induction state_dict as [|entry l IH]; intros own_state.
  - reflexivity.
  - cbn [fold_left]. rewrite IH. apply import_entry_shape.
Qed.

Lemma importable_entry own_state state_dict name param cur :
  importable own_state state_dict = true ->
  In (name, param) state_dict -> own_state !! name = Some cur ->
  is_tensor param = true.
Proof.
  unfold importable. intros Himp Hin Hcur.
  rewrite forallb_forall in Himp. specialize (Himp _ Hin).
  cbn [fst snd] in Himp. rewrite Hcur in Himp. exact Himp.
Qed.

Lemma tensor_of_parameter_data param :
  tensor_of (parameter_data param) = tensor_of param.
Proof. destruct param; reflexivity. Qed.

Lemma dtype_in_parameter_data param dt :
  dtype_in (parameter_data param) dt = dtype_in param dt.
Proof. destruct param; reflexivity. Qed.

End ImportMore.

(** X1: an import that can run to its end (every value under a name of the
    parameter set is a tensor) never changes the shape of a parameter:
    under every name the parameter set has, before and after, tensors of
    one shape, and it has the same names. *)
Theorem load_state_dict_keeps_shapes (cast : dtype -> dtype -> R -> R)
  (dtype_of : string -> dtype) (own_state : gmap string tensor)
  (state_dict : list (string * state_value)) :
  importable own_state state_dict = true ->
  exists own_state',
    load_state_dict cast dtype_of own_state state_dict = Ok own_state' /\
    forall name, shape <$> (own_state' !! name) = shape <$> (own_state !! name).
Proof.
  intros Himp.
  exists (fold_left (import_entry cast dtype_of) state_dict own_state).
  split; [rewrite load_state_dict_fold, Himp; reflexivity|].
  intros name. apply import_entries_shape.
Qed.

Lemma load_state_dict_keeps_shapes_witness :
  exists own_state',
    load_state_dict exact_cast all_float32 own_state0 state_dict0 = Ok own_state' /\
    forall name, shape <$> (own_state' !! name) = shape <$> (own_state0 !! name).
Proof.
  exact (load_state_dict_keeps_shapes exact_cast all_float32 own_state0
           state_dict0 eq_refl).
Defined.

(** X2: a source entry whose tensor has the shape of the parameter of its
    name replaces that parameter by the source tensor converted, value by
    value, to the element type of the parameter; when the two element types
    are the same, the parameter is the source tensor itself. *)
Theorem load_state_dict_same_shape (cast : dtype -> dtype -> R -> R)
  (dtype_of : string -> dtype) (own_state : gmap string tensor)
  (state_dict : list (string * state_value)) (name : string)
  (param : state_value) (cur : tensor) :
  List.NoDup (map fst state_dict) ->
  importable own_state state_dict = true ->
  In (name, param) state_dict ->
  own_state !! name = Some cur ->
  shape (tensor_of param) = shape cur ->
  wf (tensor_of param) ->
  exists own_state',
    load_state_dict cast dtype_of own_state state_dict = Ok own_state' /\
    own_state' !! name
    = Some (map_t (convert cast (dtype_in param (dtype_of name)) (dtype_of name))
              (tensor_of param)) /\
    (dtype_in param (dtype_of name) = dtype_of name ->
     own_state' !! name = Some (tensor_of param)).
Proof.
  intros Hnodup Himp Hin Hcur Hshape Hwf.
  exists (fold_left (import_entry cast dtype_of) state_dict own_state).
  split; [rewrite load_state_dict_fold, Himp; reflexivity|].
  assert (Hlookup :
            fold_left (import_entry cast dtype_of) state_dict own_state !! name
            = Some (map_t (convert cast (dtype_in param (dtype_of name))
                             (dtype_of name)) (tensor_of param))).
  { rewrite (import_entries_lookup cast dtype_of _ _ name param cur)
      by assumption.
    rewrite copy_same_shape;
      rewrite ?is_tensor_parameter_data, ?tensor_of_parameter_data,
        ?dtype_in_parameter_data; try assumption; [reflexivity|].
    apply (importable_entry own_state state_dict name param cur); assumption. }
  split; [exact Hlookup|].
  intros Hdt. rewrite Hlookup, Hdt. f_equal. apply map_t_id.
  intros v. apply convert_same.
Qed.

Lemma load_state_dict_same_shape_witness :
  exists own_state',
    load_state_dict exact_cast all_float32 own_state0 state_dict0 = Ok own_state' /\
    own_state' !! "bias" = Some (tabulate [2] (fun _ => 1%R)).
Proof.
  assert (Hnodup : List.NoDup (map fst state_dict0)).
  { repeat constructor; cbn; intuition discriminate. }
  destruct (load_state_dict_same_shape exact_cast all_float32 own_state0
              state_dict0 "bias"
              (SVParameter Float32 (tabulate [2] (fun _ => 1%R)))
              (tabulate [2] (fun _ => 0%R)) Hnodup eq_refl
              (or_intror (or_introl eq_refl)) eq_refl eq_refl (wf_tabulate _ _))
    as [own' [Hload [_ Hsame]]].
  exists own'. split; [exact Hload | exact (Hsame eq_refl)].
Defined.

(** X3: importing the same source a second time changes nothing: whenever
    an import returns, importing the same source into its result returns
    that result; and the import does return when every value under a name
    of the parameter set is a tensor. *)
Theorem load_state_dict_idempotent (cast : dtype -> dtype -> R -> R)
  (dtype_of : string -> dtype) (own_state : gmap string tensor)
  (state_dict : list (string * state_value)) :
  List.NoDup (map fst state_dict) ->
  (importable own_state state_dict = true ->
   exists own_state',
     load_state_dict cast dtype_of own_state state_dict = Ok own_state') /\
  (forall own_state',
     load_state_dict cast dtype_of own_state state_dict = Ok own_state' ->
     load_state_dict cast dtype_of own_state' state_dict = Ok own_state').
Proof.
  intros Hnodup. split.
  { intros Himp. eexists. rewrite load_state_dict_fold, Himp. reflexivity. }
  intros own1 Hload. rewrite load_state_dict_fold in Hload.
  destruct (importable own_state state_dict) eqn:Himp; [|discriminate].
  injection Hload as Hown1.
  rewrite load_state_dict_fold. rewrite <- Hown1 at 1.
  rewrite importable_import_entries, Himp. f_equal. apply map_eq. intros name.
  destruct (in_dec String.string_dec name (map fst state_dict)) as [Hin|Hnot].
  - apply in_map_iff in Hin as [[k param] [Hk Hin]]. cbn [fst] in Hk. subst k.
    destruct (own_state !! name) as [cur|] eqn:Hcur.
    + assert (H1 : own1 !! name
                   = Some (match copy_ cast (dtype_of name) cur
                                   (parameter_data param) with
                           | Ok new => new
                           | Raise _ => cur
                           end))
        by (rewrite <- Hown1; apply import_entries_lookup; assumption).
      rewrite (import_entries_lookup cast dtype_of _ own1 name param _
                 Hnodup Hin H1), H1.
      f_equal.
      destruct (copy_ cast (dtype_of name) cur (parameter_data param))
        as [new|e] eqn:Hcopy.
      * rewrite (copy_depends_on_shape cast (dtype_of name) new cur), Hcopy;
          [reflexivity|].
        apply (copy_shape _ _ _ _ _ Hcopy).
      * rewrite Hcopy. reflexivity.
    + assert (H1 : own1 !! name = None)
        by (rewrite <- Hown1; apply import_entries_absent; assumption).
      rewrite import_entries_absent by exact H1. symmetry. exact H1.
  - rewrite import_entries_other by exact Hnot. reflexivity.
Qed.

Lemma load_state_dict_idempotent_witness :
  exists own_state',
    load_state_dict exact_cast all_float32 own_state0 state_dict0 = Ok own_state' /\
    load_state_dict exact_cast all_float32 own_state' state_dict0 = Ok own_state'.
Proof.
  assert (Hnodup : List.NoDup (map fst state_dict0)).
  { repeat constructor; cbn; intuition discriminate. }
  destruct (load_state_dict_idempotent exact_cast all_float32 own_state0
              state_dict0 Hnodup) as [Hreturns Hagain].
  destruct (Hreturns eq_refl) as [own_state' Hload].
  exists own_state'. split; [exact Hload | exact (Hagain own_state' Hload)].
Defined.

(** X4: importing what a parameter set of well-formed tensors exports
    leaves the set as it is. *)
Theorem load_state_dict_of_own_export (cast : dtype -> dtype -> R -> R)
  (dtype_of : string -> dtype) (own_state : gmap string tensor) :
  map_Forall (fun _ t => wf t) own_state ->
  load_state_dict cast dtype_of own_state (export_items dtype_of own_state)
  = Ok own_state.
Proof.
  intros Hwf. rewrite load_state_dict_fold.
  assert (Himp : importable own_state (export_items dtype_of own_state) = true).
  { unfold importable, export_items. apply forallb_forall.
    intros [k v] Hin. apply in_map_iff in Hin as [[k' t] [[= <- <-] _]].
    cbn [fst snd]. destruct (own_state !! k'); reflexivity. }
  rewrite Himp. f_equal. unfold export_items.
  assert (H : forall l, (forall k t, In (k, t) l -> own_state !! k = Some t) ->
            fold_left (import_entry cast dtype_of)
              (map (fun '(name, t) => (name, SVTensor (dtype_of name) t)) l)
              own_state
            = own_state).
  { induction l as [|[k t] l IH]; intros Hl; [reflexivity|].
    cbn [map fold_left]. unfold import_entry at 2. cbn [fst snd parameter_data].
    rewrite (Hl k t (or_introl eq_refl)).
    rewrite copy_same_shape;
      [|reflexivity | reflexivity | apply (Hwf k t), Hl; left; reflexivity].
    cbn [dtype_in tensor_of].
    rewrite map_t_id by (intros v; apply convert_same).
    rewrite insert_id by (apply Hl; left; reflexivity).
    apply IH. intros k' t' Hin. apply Hl. right. exact Hin. }
  apply H. intros k t Hin. apply elem_of_map_to_list, list_elem_of_In, Hin.
Qed.

Lemma load_state_dict_of_own_export_witness :
  load_state_dict exact_cast all_float32 own_state0
    (export_items all_float32 own_state0) = Ok own_state0.
Proof.
  apply load_state_dict_of_own_export.
  intros k t Hk. unfold own_state0 in Hk.
  apply lookup_insert_Some in Hk as [[_ <-]|[_ Hk]]; [apply wf_tabulate|].
  apply lookup_insert_Some in Hk as [[_ <-]|[_ Hk]]; [apply wf_tabulate|].
  rewrite lookup_empty in Hk. discriminate.
Defined.

(** ** The Laplacian and the regulariser *)

Section QuadraticForm.

Local Open Scope R_scope.

Lemma Rsum_plus n f g : Rsum n (fun k => f k + g k) = Rsum n f + Rsum n g.
Proof.
  induction n as [|n IH]; [unfold Rsum; simpl; lra|].
  rewrite !Rsum_S, IH. lra.
Qed.

Lemma Rsum_mult_l n c f : Rsum n (fun k => c * f k) = c * Rsum n f.
Proof.
  induction n as [|n IH]; [unfold Rsum; simpl; lra|].
  rewrite !Rsum_S, IH. lra.
Qed.

Lemma Rsum_swap n m (f : nat -> nat -> R) :
  Rsum n (fun i => Rsum m (fun j => f i j))
  = Rsum m (fun j => Rsum n (fun i => f i j)).
Proof.
  induction n as [|n IH].
  - symmetry. apply (Rsum_zero m).
  - rewrite Rsum_S, IH, <- Rsum_plus. apply Rsum_ext.
    intros j _. rewrite Rsum_S. reflexivity.
Qed.

Variables (n : nat) (a : nat -> nat -> R) (s w : nat -> R) (eps : R).
Hypothesis Hsym : forall i j, (i < n)%nat -> (j < n)%nat -> a i j = a j i.
Hypothesis Hnonneg : forall i j, (i < n)%nat -> (j < n)%nat -> 0 <= a i j.
Hypothesis Heps : 0 <= eps.
Hypothesis Hs : forall j, (j < n)%nat ->
  s j * s j * (Rsum n (fun k => a k j) + eps) = 1.

Lemma quadratic_row j :
  (j < n)%nat ->
  Rsum n (fun i => w i * (delta i j - s i * a i j * s j)) * w j
  = Rsum n (fun i => a i j * ((s j * w j) * (s j * w j) - (s i * w i) * (s j * w j))) + eps * ((s j * w j) * (s j * w j)).
Proof.
  intros Hj.
  assert (Hpick : Rsum n (fun i => (if (j =? i)%nat then 1 else 0) * w i) = 1 * w j)
    by (apply Rsum_pick, Hj).
  rewrite (Rsum_ext n _ (fun i => (if (j =? i)%nat then 1 else 0) * w i
                                  + (- s j) * (a i j * (s i * w i)))).
  2:{ intros i _. unfold delta. rewrite (Nat.eqb_sym i j).
      destruct (j =? i)%nat; ring. }
  rewrite Rsum_plus, Hpick, Rsum_mult_l.
  rewrite (Rsum_ext n (fun i => a i j * ((s j * w j) * (s j * w j) - (s i * w i) * (s j * w j)))
             (fun i => ((s j * w j) * (s j * w j)) * a i j + (- (s j * w j)) * (a i j * (s i * w i)))).
  2:{ intros i _. ring. }
  rewrite Rsum_plus, !Rsum_mult_l.
  pose proof (Hs j Hj) as Hsj. apply Rminus_diag_uniq.
  transitivity (w j * w j * (1 - s j * s j * (Rsum n (fun k => a k j) + eps)));
    [ring | rewrite Hsj; ring].
Qed.

Lemma quadratic_cross_nonneg :
  0 <= Rsum n (fun j => Rsum n (fun i => a i j * ((s j * w j) * (s j * w j) - (s i * w i) * (s j * w j)))).
Proof.
  set (T := Rsum n (fun j => Rsum n (fun i => a i j * ((s j * w j) * (s j * w j) - (s i * w i) * (s j * w j))))).
  assert (HT : T = Rsum n (fun j => Rsum n (fun i => a i j * ((s i * w i) * (s i * w i) - (s i * w i) * (s j * w j))))).
  { unfold T. rewrite Rsum_swap. apply Rsum_ext. intros i Hi.
    apply Rsum_ext. intros j Hj. rewrite (Hsym j i Hj Hi). ring. }
  assert (H2 : T + T = Rsum n (fun j => Rsum n (fun i =>
                         a i j * (((s i * w i) - (s j * w j)) * ((s i * w i) - (s j * w j)))))).
  { rewrite HT at 1. unfold T. rewrite <- Rsum_plus. apply Rsum_ext.
    intros j _. rewrite <- Rsum_plus. apply Rsum_ext. intros i _. ring. }
  assert (0 <= T + T).
  { rewrite H2. apply Rsum_nonneg. intros j Hj. apply Rsum_nonneg. intros i Hi.
    apply Rmult_le_pos; [apply Hnonneg; assumption|].
    apply Rle_0_sqr. }
  lra.
Qed.

(** The quadratic form of [I - D^-1/2 A D^-1/2] is never negative. *)
Lemma quadratic_form_nonneg :
  0 <= Rsum n (fun j =>
         Rsum n (fun i => w i * (delta i j - s i * a i j * s j)) * w j).
Proof.
  rewrite (Rsum_ext n _
             (fun j => Rsum n (fun i => a i j * ((s j * w j) * (s j * w j) - (s i * w i) * (s j * w j)))
                       + eps * ((s j * w j) * (s j * w j))))
    by (intros j Hj; apply quadratic_row, Hj).
  rewrite Rsum_plus, Rsum_mult_l.
  pose proof quadratic_cross_nonneg.
  assert (0 <= Rsum n (fun k => (s k * w k) * (s k * w k))).
  { apply Rsum_nonneg. intros k _. apply Rle_0_sqr. }
  assert (0 <= eps * Rsum n (fun k => (s k * w k) * (s k * w k))) by (apply Rmult_le_pos; assumption).
  lra.
Qed.

End QuadraticForm.

Section Regulariser.

Local Open Scope R_scope.

Lemma fold_right_fadd_app l1 l2 :
  fold_right Float.add (Fin 0) (l1 ++ l2)
  = Float.add (fold_right Float.add (Fin 0) l1) (fold_right Float.add (Fin 0) l2).
Proof.
  induction l1 as [|x l1 IH]; cbn [app fold_right].
  - symmetry. apply fadd_0_l.
  - rewrite IH. apply fadd_assoc.
Qed.

Lemma indices_matrix r c :
  indices [r; c] = flat_map (fun i => map (fun j => [i; j]) (seq 0 c)) (seq 0 r).
Proof.
  cbn [indices]. apply flat_map_ext. intros i. f_equal.
  induction (seq 0 c) as [|j l IH]; [reflexivity|].
  cbn [flat_map map app]. f_equal. exact IH.
Qed.

Lemma sum_all_matrix r c f :
  FTorch.sum_all (FTorch.tabulate [r; c] f)
  = Float.sum r (fun o => Float.sum c (fun j => f [o; j])).
Proof.
  unfold FTorch.sum_all, FTorch.tabulate. cbn [FTorch.data].
  rewrite indices_matrix.
  unfold Float.sum at 1. induction (seq 0 r) as [|o l IH]; [reflexivity|].
  cbn [flat_map map fold_right]. rewrite map_app, fold_right_fadd_app, IH.
  f_equal. unfold Float.sum. rewrite map_map. reflexivity.
Qed.

(** Lines 139-145 on a classifier of [F] input features whose Laplacian
    has size [n]. *)
Lemma regularization_value init nb_nodes input_dim L out_dim cuda n reg_lambda :
  FTorch.shape L = [n; n] ->
  let layer := nn_Linear init (nb_nodes * input_dim) out_dim in
  regularization
    (mkSparseLogisticRegression nb_nodes input_dim L out_dim cuda [layer])
    reg_lambda
  = if (nb_nodes * input_dim =? n)%nat
    then Ok (Float.mul (smoothness (weight layer) L out_dim n) (Fin reg_lambda))
    else Raise RuntimeError.
Proof.
  intros HL layer. unfold regularization.
  cbn [slr_laplacian slr_my_logistic_layers rev app].
  set (W := weight layer). assert (HW : shape W = [out_dim; (nb_nodes * input_dim)%nat])
    by reflexivity.
  assert (HwfW : wf W) by apply wf_tabulate.
  clearbody W. unfold FTorch.mm.
  cbn [FTorch.shape FTorch.of_real FTorch.map_real shape map_t].
  rewrite HW, HL.
  destruct (Nat.eqb_spec (nb_nodes * input_dim) n) as [Heq|Hne]; [|reflexivity].
  cbn [bind]. unfold FTorch.mul, FTorch.binop. cbn [FTorch.shape FTorch.tabulate].
  change (FTorch.shape (FTorch.of_real (map_t Rabs W))) with (shape W).
  rewrite HW, Heq.
  rewrite broadcast_shapes_refl. cbn [bind]. f_equal. f_equal.
  rewrite Heq in HW. rewrite sum_all_matrix. unfold smoothness.
  apply fsum_ext. intros o Ho. apply fsum_ext. intros j Hj.
  pose proof (in_bounds2 out_dim n o j Ho Hj) as Hb.
  rewrite !bidx_same by exact Hb.
  rewrite fget_tabulate by exact Hb.
  rewrite fget_of_real.
  rewrite get_map_t by (try assumption; rewrite HW; exact Hb).
  f_equal. apply fsum_ext. intros i Hi.
  rewrite fget_of_real, get_map_t; [reflexivity | assumption|].
  rewrite HW. apply in_bounds2; assumption.
Qed.

Lemma inv_sqrt_degree_square a n j :
  0 < degree a n j ->
  inv_sqrt_degree a n j * inv_sqrt_degree a n j * degree a n j = 1.
Proof.
  intros Hpos. unfold inv_sqrt_degree.
  set (d := degree a n j) in *.
  pose proof (sqrt_lt_R0 d Hpos) as Hsqrt.
  rewrite <- (sqrt_sqrt d) at 3 by lra. field. lra.
Qed.

(** The stored adjacency of a matrix without negative entries has none, and
    all its degrees are positive. *)
Lemma zeroed_degrees_positive (A A' : tensor) n :
  (forall i j, (i < n)%nat -> (j < n)%nat ->
     get A' [i; j] = if (i =? j)%nat then 0 else get A [i; j]) ->
  (forall i j, (i < n)%nat -> (j < n)%nat -> 0 <= get A [i; j]) ->
  (forall i j, (i < n)%nat -> (j < n)%nat -> 0 <= get A' [i; j]) /\
  (forall j, (j < n)%nat -> 0 < degree A' n j).
Proof.
  intros Hentries Hnonneg.
  assert (H : forall i j, (i < n)%nat -> (j < n)%nat -> 0 <= get A' [i; j]).
  { intros i j Hi Hj. rewrite Hentries by assumption.
    destruct (i =? j)%nat; [lra | apply Hnonneg; assumption]. }
  split; [exact H|]. intros j Hj. apply degree_positive.
  intros i Hi. apply H; assumption.
Qed.

End Regulariser.

(** X5: when every entry of the degree vector of the stored adjacency is
    positive, the Laplacian the constructor stores has ones on its diagonal
    and a zero wherever two distinct nodes have no edge; when the adjacency
    has no negative entry the degrees are positive and no entry off the
    diagonal is positive; a node whose degree is negative has a NaN on the
    diagonal. *)
Theorem laplacian_entries_by_edge (init : list nat -> R)
  (heap : gmap nat tensor) (nb_nodes input_dim adj : nat)
  (out_dim : option nat) (cuda : bool) (A : tensor) (n : nat) :
  heap !! adj = Some A -> wf A -> shape A = [n; n] ->
  let after :=
    SparseLogisticRegression_init init heap nb_nodes input_dim adj out_dim cuda in
  exists obj A',
    after.2 = Ok obj /\ after.1 !! adj = Some A' /\
    ((forall j, j < n -> (0 < degree A' n j)%R) ->
     (forall i, i < n -> FTorch.get (slr_laplacian obj) [i; i] = Fin 1) /\
     (forall i j, i < n -> j < n -> i <> j -> get A [i; j] = 0%R ->
        FTorch.get (slr_laplacian obj) [i; j] = Fin 0)) /\
    ((forall i j, i < n -> j < n -> (0 <= get A [i; j])%R) ->
     (forall j, j < n -> (0 < degree A' n j)%R) /\
     (forall i j, i < n -> j < n -> i <> j ->
        exists v, FTorch.get (slr_laplacian obj) [i; j] = Fin v /\ (v <= 0)%R)) /\
    (forall j, j < n -> (degree A' n j < 0)%R ->
       FTorch.get (slr_laplacian obj) [j; j] = NaN).
Proof.
  intros Hheap Hwf Hshape after.
  destruct (SparseLogisticRegression_init_square init heap nb_nodes input_dim
              adj out_dim cuda A n Hheap Hwf Hshape)
    as [A' [L [Hinit [Hshape' [Hwf' [Hentries [HshapeL HL]]]]]]].
  subst after. rewrite Hinit. cbn [fst snd].
  eexists _, A'. split; [reflexivity|]. cbn [slr_laplacian].
  split; [apply lookup_insert_eq|].
  split; [|split].
  - intros Hpos.
    pose proof (laplacian_of_entries A' n Hshape' L HL Hpos) as Hfin.
    split.
    + intros i Hi. rewrite Hfin, Hentries by assumption.
      unfold delta. rewrite Nat.eqb_refl. f_equal. lra.
    + intros i j Hi Hj Hne Hzero. rewrite Hfin, Hentries by assumption.
      unfold delta. destruct (Nat.eqb_spec i j); [contradiction|].
      rewrite Hzero. f_equal. lra.
  - intros Hnonneg.
    destruct (zeroed_degrees_positive A A' n Hentries Hnonneg) as [Ha Hpos].
    split; [exact Hpos|]. intros i j Hi Hj Hne.
    pose proof (laplacian_of_entries A' n Hshape' L HL Hpos) as Hfin.
    eexists. split; [apply Hfin; assumption|].
    pose proof (inv_sqrt_degree_positive A' n i (Hpos i Hi)) as Hsi.
    pose proof (inv_sqrt_degree_positive A' n j (Hpos j Hj)) as Hsj.
    pose proof (Ha i j Hi Hj) as Haij.
    unfold delta. destruct (Nat.eqb_spec i j); [contradiction|].
    assert (0 <= inv_sqrt_degree A' n i * get A' [i; j] * inv_sqrt_degree A' n j)%R.
    { apply Rmult_le_pos; [apply Rmult_le_pos|]; lra. }
    lra.
  - intros j Hj Hneg.
    apply (laplacian_of_nan A' n Hshape' L j HL Hj Hneg j Hj).
Qed.

Lemma laplacian_entries_by_edge_witness :
  exists obj,
    (SparseLogisticRegression_init zero_init (<[0 := cycle4]> ∅) 4 1 0 None false).2
    = Ok obj /\
    FTorch.get (slr_laplacian obj) [0; 0] = Fin 1 /\
    FTorch.get (slr_laplacian obj) [0; 2] = Fin 0 /\
    exists v, FTorch.get (slr_laplacian obj) [0; 1] = Fin v /\ (v <= 0)%R.
Proof.
  assert (Hheap : (<[0 := cycle4]> ∅ : gmap nat tensor) !! 0 = Some cycle4)
    by apply lookup_insert_eq.
  destruct (laplacian_entries_by_edge zero_init (<[0 := cycle4]> ∅) 4 1 0
              None false cycle4 4 Hheap eq_refl eq_refl)
    as [obj [A' [Hok [_ [Hfinite [Hsign _]]]]]].
  destruct (Hsign cycle4_nonneg) as [Hpos Hneg].
  destruct (Hfinite Hpos) as [Hdiag Hzero].
  exists obj. split; [exact Hok|]. split; [apply Hdiag; lia|]. split.
  - apply Hzero; [lia | lia | lia | reflexivity].
  - apply Hneg; lia.
Defined.

(** X6: the regulariser of a classifier built on a square adjacency of
    size [n] is defined exactly when the classifier has [n] input features
    ([nb_nodes * input_dim = n]); then it is [reg_lambda] times a value that
    depends on the weights and the Laplacian only, and otherwise the matrix
    product raises. *)
Theorem regularization_defined (init : list nat -> R)
  (heap : gmap nat tensor) (nb_nodes input_dim adj : nat)
  (out_dim : option nat) (cuda : bool) (A : tensor) (n : nat)
  (reg_lambda : R) :
  heap !! adj = Some A -> wf A -> shape A = [n; n] ->
  exists obj layer,
    (SparseLogisticRegression_init init heap nb_nodes input_dim adj out_dim cuda).2
    = Ok obj /\
    slr_my_logistic_layers obj = [layer] /\
    regularization obj reg_lambda
    = if nb_nodes * input_dim =? n
      then Ok (Float.mul (smoothness (weight layer) (slr_laplacian obj)
                            (slr_out_dim obj) n) (Fin reg_lambda))
      else Raise RuntimeError.
Proof.
  intros Hheap Hwf Hshape.
  destruct (SparseLogisticRegression_init_square init heap nb_nodes input_dim
              adj out_dim cuda A n Hheap Hwf Hshape)
    as [A' [L [Hinit [_ [_ [_ [HshapeL _]]]]]]].
  rewrite Hinit. cbn [snd]. eexists _, _. split; [reflexivity|].
  split; [reflexivity|]. cbn [slr_laplacian slr_out_dim].
  apply regularization_value, HshapeL.
Qed.

Lemma regularization_defined_witness :
  exists obj,
    (SparseLogisticRegression_init zero_init (<[0 := cycle4]> ∅) 4 2 0 None false).2
    = Ok obj /\
    regularization obj 1%R = Raise RuntimeError.
Proof.
  assert (Hheap : (<[0 := cycle4]> ∅ : gmap nat tensor) !! 0 = Some cycle4)
    by apply lookup_insert_eq.
  destruct (regularization_defined zero_init (<[0 := cycle4]> ∅) 4 2 0
              None false cycle4 4 1%R Hheap eq_refl eq_refl)
    as [obj [layer [Hok [_ Hreg]]]].
  exists obj. split; [exact Hok | exact Hreg].
Defined.

(** X7: for a symmetric adjacency without negative entries, a classifier
    with one input feature per node and a non-negative [reg_lambda], the
    regulariser is defined, finite and not negative. *)
Theorem regularization_nonneg (init : list nat -> R)
  (heap : gmap nat tensor) (nb_nodes input_dim adj : nat)
  (out_dim : option nat) (cuda : bool) (A : tensor) (n : nat)
  (reg_lambda : R) :
  heap !! adj = Some A -> wf A -> shape A = [n; n] ->
  (forall i j, i < n -> j < n -> get A [i; j] = get A [j; i]) ->
  (forall i j, i < n -> j < n -> (0 <= get A [i; j])%R) ->
  nb_nodes * input_dim = n -> (0 <= reg_lambda)%R ->
  exists obj v,
    (SparseLogisticRegression_init init heap nb_nodes input_dim adj out_dim cuda).2
    = Ok obj /\
    regularization obj reg_lambda = Ok (Fin v) /\ (0 <= v)%R.
Proof.
  intros Hheap Hwf Hshape Hsym Hnonneg Hfeat Hlambda.
  destruct (SparseLogisticRegression_init_square init heap nb_nodes input_dim
              adj out_dim cuda A n Hheap Hwf Hshape)
    as [A' [L [Hinit [Hshape' [Hwf' [Hentries [HshapeL HL]]]]]]].
  destruct (zeroed_degrees_positive A A' n Hentries Hnonneg) as [Ha Hpos].
  pose proof (laplacian_of_entries A' n Hshape' L HL Hpos) as Hfin.
  rewrite Hinit. cbn [snd].
  set (W := weight (nn_Linear init (nb_nodes * input_dim)
                      (match out_dim with Some d => d | None => 2 end))).
  exists (mkSparseLogisticRegression nb_nodes input_dim L
            (match out_dim with Some d => d | None => 2 end) cuda
            [nn_Linear init (nb_nodes * input_dim)
               (match out_dim with Some d => d | None => 2 end)]),
    (Rsum (match out_dim with Some d => d | None => 2 end)
       (fun o => Rsum n (fun j =>
          Rsum n (fun i => Rabs (get W [o; i])
                           * (delta i j
                              - inv_sqrt_degree A' n i * get A' [i; j]
                                * inv_sqrt_degree A' n j))
          * Rabs (get W [o; j]))) * reg_lambda)%R.
  split; [reflexivity|].
  rewrite (regularization_value _ _ _ _ _ _ n) by exact HshapeL.
  apply Nat.eqb_eq in Hfeat. rewrite Hfeat. split.
  - f_equal. unfold smoothness. fold W.
    rewrite (fsum_ext _ _
               (fun o => Fin (Rsum n (fun j =>
                  Rsum n (fun i => Rabs (get W [o; i])
                                   * (delta i j
                                      - inv_sqrt_degree A' n i * get A' [i; j]
                                        * inv_sqrt_degree A' n j))
                  * Rabs (get W [o; j]))%R))).
    + rewrite fsum_fin. reflexivity.
    + intros o Ho. rewrite <- fsum_fin. apply fsum_ext. intros j Hj.
      rewrite (fsum_ext n _
                 (fun i => Fin (Rabs (get W [o; i])
                                * (delta i j
                                   - inv_sqrt_degree A' n i * get A' [i; j]
                                     * inv_sqrt_degree A' n j))%R)).
      * rewrite fsum_fin. reflexivity.
      * intros i Hi. rewrite Hfin by assumption. reflexivity.
  - apply Rmult_le_pos; [|exact Hlambda].
    apply Rsum_nonneg. intros o Ho.
    apply (quadratic_form_nonneg n (fun i j => get A' [i; j])
             (inv_sqrt_degree A' n) (fun i => Rabs (get W [o; i])) epsilon).
    + intros i j Hi Hj. rewrite !Hentries by assumption.
      rewrite (Nat.eqb_sym j i), (Hsym i j) by assumption. reflexivity.
    + exact Ha.
    + unfold epsilon. lra.
    + intros j Hj. apply inv_sqrt_degree_square, Hpos, Hj.
Qed.

Lemma regularization_nonneg_witness :
  exists obj v,
    (SparseLogisticRegression_init zero_init (<[0 := cycle4]> ∅) 4 1 0 None false).2
    = Ok obj /\
    regularization obj 1%R = Ok (Fin v) /\ (0 <= v)%R.
Proof.
  assert (Hheap : (<[0 := cycle4]> ∅ : gmap nat tensor) !! 0 = Some cycle4)
    by apply lookup_insert_eq.
  exact (regularization_nonneg zero_init (<[0 := cycle4]> ∅) 4 1 0 None false
           cycle4 4 1%R Hheap eq_refl eq_refl cycle4_symmetric cycle4_nonneg
           eq_refl Rle_0_1).
Defined.

(** ** The embedding layer *)

(** X8: on an input with one channel per node, an embedding layer whose
    table has shape [(nb_emb, emb_size)] returns a tensor of shape
    [(E, nb_emb, emb_size)] whose entry at [(e, n, c)] is the input of node
    [n] of example [e] times the entry [(n, c)] of the table. *)
Theorem EmbeddingLayer_forward_scales (self : EmbeddingLayer)
  (nb_emb size E : nat) (d : list R) :
  shape (emb_table self) = [nb_emb; size] ->
  let x := mkTensor [E; nb_emb; 1] d in
  exists y,
    EmbeddingLayer_forward self x = Ok y /\
    shape y = [E; nb_emb; size] /\
    forall e n c, e < E -> n < nb_emb -> c < size ->
      get y [e; n; c] = (get x [e; n; 0%nat] * get (emb_table self) [n; c])%R.
Proof.
  intros Htable x. unfold EmbeddingLayer_forward, mul, binop.
  rewrite Htable. cbn [x shape].
  rewrite broadcast_embedding by (right; reflexivity). cbn [bind].
  eexists. split; [reflexivity|]. split; [reflexivity|].
  intros e n c He Hn Hc.
  rewrite get_tabulate by (repeat constructor; assumption).
  unfold bidx. cbn [length Nat.sub skipn bidx_aligned Nat.eqb].
  assert (He' : (if E =? 1 then 0 else e) = e)
    by (destruct (Nat.eqb_spec E 1); lia).
  assert (Hn' : (if nb_emb =? 1 then 0 else n) = n)
    by (destruct (Nat.eqb_spec nb_emb 1); lia).
  assert (Hc' : (if size =? 1 then 0 else c) = c)
    by (destruct (Nat.eqb_spec size 1); lia).
  rewrite He', Hn', Hc'. reflexivity.
Qed.

Lemma EmbeddingLayer_forward_scales_witness :
  exists y,
    EmbeddingLayer_forward (EmbeddingLayer_init zero_init 4 8) input_2_4_1 = Ok y /\
    shape y = [2; 4; 8].
Proof.
  destruct (EmbeddingLayer_forward_scales (EmbeddingLayer_init zero_init 4 8)
              4 8 2 (data input_2_4_1) eq_refl) as [y [Hy [Hshape _]]].
  exists y. split; [exact Hy | exact Hshape].
Defined.

(** X9: an embedding layer whose table has shape [(nb_emb, emb_size)]
    returns on an input of shape [(E, N, C)] exactly when [C] and the
    embedding size are equal or one of them is 1, and [N] and the number of
    embeddings are equal or one of them is 1; otherwise the product
    raises. *)
Theorem EmbeddingLayer_forward_defined (self : EmbeddingLayer)
  (nb_emb size E N C : nat) (d : list R) :
  shape (emb_table self) = [nb_emb; size] ->
  is_ok (EmbeddingLayer_forward self (mkTensor [E; N; C] d))
  = ((C =? size) || (C =? 1) || (size =? 1))
    && ((N =? nb_emb) || (N =? 1) || (nb_emb =? 1)).
Proof.
  intros Htable. unfold EmbeddingLayer_forward, mul, binop, broadcast_shapes.
  rewrite Htable. cbn [shape rev app bshape_rev].
  destruct (C =? size), (C =? 1), (size =? 1),
    (N =? nb_emb), (N =? 1), (nb_emb =? 1); reflexivity.
Qed.

Lemma EmbeddingLayer_forward_defined_witness :
  is_ok (EmbeddingLayer_forward (EmbeddingLayer_init zero_init 4 8) input_2_4_3)
  = false.
Proof.
  exact (EmbeddingLayer_forward_defined (EmbeddingLayer_init zero_init 4 8)
           4 8 2 4 3 (data input_2_4_3) eq_refl).
Defined.

(** ** Attention pooling: the pooled vector *)

Section AttentionValues.

Local Open Scope R_scope.

Lemma Rsum_le n f g :
  (forall k, (k < n)%nat -> f k <= g k) -> Rsum n f <= Rsum n g.
Proof.
  intros H. induction n as [|n IH]; [unfold Rsum; simpl; lra|].
  rewrite !Rsum_S. pose proof (H n ltac:(lia)).
  assert (Rsum n f <= Rsum n g) by (apply IH; intros; apply H; lia). lra.
Qed.

(** A sum of values between two bounds, weighted by weights that are not
    negative and sum to 1, lies between the bounds. *)
Lemma weighted_mean_bounds n (v r : nat -> R) lo hi :
  (forall k, (k < n)%nat -> lo <= v k <= hi) ->
  (forall k, (k < n)%nat -> 0 <= r k) -> Rsum n r = 1 ->
  lo <= Rsum n (fun k => v k * r k) <= hi.
Proof.
  intros Hv Hr Hone. split.
  - replace lo with (Rsum n (fun k => lo * r k))
      by (rewrite Rsum_mult_l, Hone; lra).
    apply Rsum_le. intros k Hk.
    apply Rmult_le_compat_r; [apply Hr, Hk | apply Hv, Hk].
  - replace hi with (Rsum n (fun k => hi * r k))
      by (rewrite Rsum_mult_l, Hone; lra).
    apply Rsum_le. intros k Hk.
    apply Rmult_le_compat_r; [apply Hr, Hk | apply Hv, Hk].
Qed.

(** What a returning call says of the sizes. *)
Lemma AttentionLayer_forward_heads fmt (self : AttentionLayer) E N C d applied w :
  AttentionLayer_forward fmt self (mkTensor [E; N; C] d) = Ok (applied, w) ->
  (0 < N)%nat ->
  C = in_features (att_attn self) /\
  out_features (att_attn self) = nb_attention_head self.
Proof.
  intros Hfw HN.
  destruct (AttentionLayer_forward_inv fmt self E N C d applied w Hfw)
    as [_ [Hin [HE Hnum]]].
  split; [exact Hin|]. symmetry.
  apply (Nat.mul_cancel_l _ _ (E * N)); [nia | exact Hnum].
Qed.

End AttentionValues.

(** X10: when attention pooling returns, the pooled tensor has shape
    [(E, C * H)] and its entry for channel [c] and head [h], at column
    [c * H + h], is the sum over the nodes of the channel's value times the
    head's weight. *)
Theorem attention_pooled_is_weighted_sum (fmt : format) (self : AttentionLayer)
  (E N C : nat) (d : list R) (applied w : FTorch.tensor) :
  AttentionLayer_forward fmt self (mkTensor [E; N; C] d) = Ok (applied, w) ->
  FTorch.shape applied = [E; C * nb_attention_head self] /\
  forall e c h, e < E -> c < C -> h < nb_attention_head self ->
    FTorch.get applied [e; c * nb_attention_head self + h]
    = Float.sum N
        (fun n => Float.mul (Fin (get (mkTensor [E; N; C] d) [e; n; c]))
                    (FTorch.get w [e; n; h])).
Proof.
  intros Hfw.
  destruct (AttentionLayer_forward_eq fmt self E N C d)
    as [applied' [w' [Heq [_ [_ [Hshape [_ [_ Hentry]]]]]]]].
  rewrite Hfw in Heq.
  destruct (_ && _) in Heq; [|discriminate]. injection Heq as -> ->.
  split; assumption.
Qed.

Lemma attention_pooled_is_weighted_sum_witness :
  exists applied w,
    AttentionLayer_forward Float.binary32 attention0
      (mkTensor [1; 2; 1] attention_input0) = Ok (applied, w) /\
    FTorch.get applied [0; 0]
    = Float.sum 2
        (fun n => Float.mul
                    (Fin (get (mkTensor [1; 2; 1] attention_input0) [0; n; 0]))
                    (FTorch.get w [0; n; 0])).
Proof.
  assert (H01 : (0 < 1)%nat) by lia.
  destruct (AttentionLayer_forward_ok Float.binary32 attention0 1 2 1
              attention_input0 eq_refl eq_refl H01 H01)
    as [applied [w [Hfw _]]].
  exists applied, w. split; [exact Hfw|].
  destruct (attention_pooled_is_weighted_sum Float.binary32 attention0 1 2 1
              attention_input0 applied w Hfw) as [_ Hentry].
  exact (Hentry 0 0 0 H01 H01 H01).
Defined.



(** X12: attention pooling averages: for an example and a head whose
    exponentials stay within the format, when the values of a channel over
    the nodes lie between two bounds, the pooled entry of that channel is a
    finite number between the bounds. *)
Theorem attention_pooled_within_bounds (fmt : format) (self : AttentionLayer)
  (E N C : nat) (d : list R) (applied w : FTorch.tensor) (lo hi : R)
  (e c h : nat) :
  AttentionLayer_forward fmt self (mkTensor [E; N; C] d) = Ok (applied, w) ->
  e < E -> c < C -> h < nb_attention_head self ->
  exp_in_range fmt N
    (fun k => head_score (att_attn self) (temperature self)
                (mkTensor [E; N; C] d) e k h) ->
  (forall n, n < N -> (lo <= get (mkTensor [E; N; C] d) [e; n; c] <= hi)%R) ->
  exists r,
    FTorch.get applied [e; (c * nb_attention_head self + h)%nat] = Fin r /\
    (lo <= r <= hi)%R.
Proof.
  intros Hfw He Hc Hh Hrange Hbounds.
  assert (HN : 0 < N) by (destruct Hrange as [_ [n [Hn _]]]; lia).
  destruct (AttentionLayer_forward_heads fmt self E N C d applied w Hfw HN)
    as [Hin Hout].
  destruct (AttentionLayer_forward_eq fmt self E N C d)
    as [applied' [w' [Heq [_ [_ [_ [_ [Hw Hentry]]]]]]]].
  rewrite Hfw in Heq.
  destruct (_ && _) in Heq; [|discriminate]. injection Heq as -> ->.
  destruct (normalised_weights_real fmt N _ Hrange) as [r [Hr [Hunit Hone]]].
  exists (Rsum N (fun n => get (mkTensor [E; N; C] d) [e; n; c] * r n))%R.
  split.
  - rewrite Hentry by assumption. rewrite <- fsum_fin. apply fsum_ext.
    intros n Hn. rewrite Hw, Hr by assumption. reflexivity.
  - apply weighted_mean_bounds; [exact Hbounds | | exact Hone].
    intros n Hn. apply Hunit, Hn.
Qed.

Lemma attention_pooled_within_bounds_witness :
  exists applied w r,
    AttentionLayer_forward Float.binary32 attention0
      (mkTensor [1; 2; 1] attention_input0) = Ok (applied, w) /\
    FTorch.get applied [0; 0] = Fin r /\ (0 <= r <= 0)%R.
Proof.
  assert (H01 : (0 < 1)%nat) by lia.
  destruct (AttentionLayer_forward_ok Float.binary32 attention0 1 2 1
              attention_input0 eq_refl eq_refl H01 H01)
    as [applied [w [Hfw _]]].
  destruct (attention_pooled_within_bounds Float.binary32 attention0 1 2 1
              attention_input0 applied w 0%R 0%R 0 0 0 Hfw H01 H01 H01
              attention0_in_range) as [r [Hr Hb]].
  { intros n Hn. destruct n as [|[|n]]; [| |lia]; unfold get; simpl; lra. }
  exists applied, w, r. split; [exact Hfw | split; assumption].
Defined.

(** ** Soft pooling *)

Section SoftPooling.

Local Open Scope R_scope.

Lemma Rsum_const n c : Rsum n (fun _ => c) = INR n * c.
Proof.
  induction n as [|n IH]; [unfold Rsum; simpl; lra|].
  rewrite Rsum_S, IH, S_INR. lra.
Qed.

Lemma fadd_swap a b c d :
  Float.add (Float.add a b) (Float.add c d)
  = Float.add (Float.add a c) (Float.add b d).
Proof.
  rewrite <- fadd_assoc, (fadd_assoc b c d), (fadd_comm b c).
  rewrite <- (fadd_assoc c b d). apply fadd_assoc.
Qed.

Lemma fsum_add n f g :
  Float.sum n (fun k => Float.add (f k) (g k))
  = Float.add (Float.sum n f) (Float.sum n g).
Proof.
  induction n as [|n IH]; [symmetry; apply fadd_0_l|].
  rewrite !fsum_S, IH. apply fadd_swap.
Qed.

Lemma sum_along_heads E N H d :
  sum_along (FTorch.mkTensor [E; N; H] d) (-1)
  = Ok (FTorch.tabulate [E; N]
          (fun idx => Float.sum H
                        (fun k => FTorch.get (FTorch.mkTensor [E; N; H] d)
                                    (insert_at 2 k idx)))).
Proof. reflexivity. Qed.

Lemma unsqueeze_heads E N d :
  FTorch.unsqueeze (FTorch.mkTensor [E; N] d) (-1)
  = Ok (FTorch.mkTensor [E; N; 1%nat] d).
Proof. reflexivity. Qed.

Lemma get_unsqueezed_last E N f e n :
  (e < E)%nat -> (n < N)%nat ->
  FTorch.get (FTorch.mkTensor [E; N; 1%nat] (FTorch.data (FTorch.tabulate [E; N] f)))
    [e; n; 0%nat]
  = f [e; n].
Proof.
  intros He Hn. rewrite <- (fget_tabulate [E; N] f [e; n])
    by (repeat constructor; assumption).
  unfold FTorch.get, FTorch.tabulate.
  cbn [FTorch.shape FTorch.data ravel numel fold_right]. f_equal; lia.
Qed.

(** What soft pooling computes, and when. *)
Lemma SoftPoolingLayer_forward_eq fmt (self : SoftPoolingLayer) E N C d :
  let H := sp_nb_attention_head self in
  let l := sp_attn self in
  let x := mkTensor [E; N; C] d in
  exists out w,
    SoftPoolingLayer_forward fmt self x
    = (if (0 <? C)%nat && (C =? in_features l)%nat
          && (numel [E; N; H] =? numel [(E * N)%nat; out_features l])%nat
       then Ok out else Raise RuntimeError) /\
    FTorch.shape out = [E; N; 1%nat] /\
    (forall e n h, (e < E)%nat -> (n < N)%nat -> (h < H)%nat ->
       C = in_features l -> out_features l = H ->
       FTorch.get w [e; n; h]
       = Float.div
           (Float.exp fmt (Fin (head_score l (sp_temperature self) x e n h)))
           (Float.sum N
              (fun k => Float.exp fmt
                          (Fin (head_score l (sp_temperature self) x e k h))))) /\
    (forall e n, (e < E)%nat -> (n < N)%nat ->
       FTorch.get out [e; n; 0%nat]
       = Float.sum H (fun h => FTorch.get w [e; n; h])).
Proof.
  intros H l x.
  destruct (weights_prefix fmt l (sp_temperature self) E N C d H)
    as [W [Hprefix [HshapeW [HwfW HW]]]].
  destruct W as [sw dw]. cbn [FTorch.shape] in HshapeW. subst sw.
  set (S := FTorch.tabulate [E; N]
              (fun idx => Float.sum H
                            (fun k => FTorch.get (FTorch.mkTensor [E; N; H] dw)
                                        (insert_at 2 k idx)))).
  exists (FTorch.mkTensor [E; N; 1%nat] (FTorch.data S)),
         (FTorch.mkTensor [E; N; H] dw).
  split; [|split; [reflexivity|split; [exact HW|]]].
  - unfold SoftPoolingLayer_forward, size3. cbn [shape bind x].
    fold l H. cbv zeta. unfold x.
    rewrite (Hprefix _ (fun _ w => let* a := sum_along w (-1) in
                                   FTorch.unsqueeze a (-1))).
    destruct (_ && _); [|reflexivity].
    rewrite sum_along_heads. cbn [bind]. fold S.
    unfold S at 1. unfold FTorch.tabulate at 1. rewrite unsqueeze_heads.
    reflexivity.
  - intros e n He Hn. unfold S.
    rewrite (get_unsqueezed_last E N _ e n He Hn). reflexivity.
Qed.

End SoftPooling.

(** X13: when soft pooling returns, its result has shape [(E, N, 1)] and,
    for every example for which the exponentials of every head stay within
    the format, the values over the nodes are finite and sum to the number
    of heads. *)
Theorem soft_pooling_sums_to_heads (fmt : format) (self : SoftPoolingLayer)
  (E N C : nat) (d : list R) (out : FTorch.tensor) :
  SoftPoolingLayer_forward fmt self (mkTensor [E; N; C] d) = Ok out ->
  FTorch.shape out = [E; N; 1] /\
  forall e, e < E -> 1 <= sp_nb_attention_head self ->
    (forall h, h < sp_nb_attention_head self ->
       exp_in_range fmt N
         (fun k => head_score (sp_attn self) (sp_temperature self)
                     (mkTensor [E; N; C] d) e k h)) ->
    Float.sum N (fun n => FTorch.get out [e; n; 0])
    = Fin (INR (sp_nb_attention_head self)).
Proof.
  intros Hfw.
  destruct (SoftPoolingLayer_forward_eq fmt self E N C d)
    as [out' [w [Heq [Hshape [Hw Hout]]]]].
  rewrite Hfw in Heq.
  destruct (Nat.ltb_spec 0 C) as [HC|]; cbn [andb] in Heq; [|discriminate].
  destruct (Nat.eqb_spec C (in_features (sp_attn self))) as [Hin|];
    cbn [andb] in Heq; [|discriminate].
  destruct (Nat.eqb_spec (numel [E; N; sp_nb_attention_head self])
              (numel [E * N; out_features (sp_attn self)])) as [Hnum|];
    [|discriminate].
  injection Heq as ->. split; [exact Hshape|].
  intros e He HH Hrange. set (H := sp_nb_attention_head self) in *.
  assert (HN : 0 < N).
  { destruct (Hrange 0 ltac:(lia)) as [_ [n [Hn _]]]. lia. }
  assert (Hfeat : out_features (sp_attn self) = H).
  { rewrite numel3, numel2 in Hnum. symmetry.
    apply (Nat.mul_cancel_l _ _ (E * N)); [nia | exact Hnum]. }
  assert (Hreal : forall h, h < H ->
            exists r : nat -> R,
              (forall n, n < N -> FTorch.get w [e; n; h] = Fin (r n)) /\
              Rsum N r = 1%R).
  { intros h Hh.
    destruct (normalised_weights_real fmt N _ (Hrange h Hh)) as [r [Hr [_ Hone]]].
    exists r. split; [|exact Hone].
    intros n Hn. rewrite Hw by assumption. apply Hr, Hn. }
  assert (Hheads : forall k, k <= H ->
            Float.sum N (fun n => Float.sum k (fun h => FTorch.get w [e; n; h]))
            = Fin (INR k)).
  { induction k as [|k IH]; intros Hk.
    - rewrite (fsum_ext N _ (fun _ => Fin 0)) by reflexivity.
      rewrite fsum_fin, Rsum_zero. reflexivity.
    - destruct (Hreal k ltac:(lia)) as [r [Hr Hone]].
      rewrite (fsum_ext N _
                 (fun n => Float.add
                             (Float.sum k (fun h => FTorch.get w [e; n; h]))
                             (Fin (r n)))).
      2:{ intros n Hn. rewrite fsum_S, Hr by exact Hn. reflexivity. }
      rewrite fsum_add, IH, fsum_fin, Hone, S_INR by lia. reflexivity. }
  rewrite (fsum_ext N _ (fun n => Float.sum H (fun h => FTorch.get w [e; n; h])))
    by (intros n Hn; apply Hout; assumption).
  apply Hheads. lia.
Qed.

Lemma soft_pooling_sums_to_heads_witness :
  FTorch.shape softpool_output0 = [1; 2; 1] /\
  Float.sum 2 (fun n => FTorch.get softpool_output0 [0; n; 0]) = Fin (INR 3).
Proof.
  assert (H01 : (0 < 1)%nat) by lia. assert (H13 : (1 <= 3)%nat) by lia.
  destruct (soft_pooling_sums_to_heads Float.binary32 softpool0 1 2 1
              attention_input0 softpool_output0 eq_refl) as [Hshape Hsum].
  split; [exact Hshape|]. apply (Hsum 0 H01 H13).
  intros h Hh. apply softpool0_in_range.
Defined.

(** ** The content gate and the classifier heads *)

(** X14: when the content gate returns, the gate of node [n] of example
    [e] is the sigmoid of the affine score of that node's own channels:
    it depends on no other node and no other example. *)
Theorem ElementwiseGateLayer_forward_entry (self : ElementwiseGateLayer)
  (E N C : nat) (d : list R) (g : tensor) (e n : nat) :
  ElementwiseGateLayer_forward self (mkTensor [E; N; C] d) = Ok g ->
  e < E -> n < N ->
  shape g = [E; N; 1] /\
  get g [e; n; 0]
  = sigmoid (Rplus
               (Rsum (in_features (gate_attn self))
                  (fun k => Rmult (get (mkTensor [E; N; C] d) [e; n; k])
                              (get (weight (gate_attn self)) [0; k])))
               (get (bias (gate_attn self)) [0])).
Proof.
  intros Hfw He Hn. unfold ElementwiseGateLayer_forward, size3 in Hfw.
  cbn [shape bind] in Hfw.
  destruct C as [|c].
  { rewrite view_zero_channels in Hfw. discriminate. }
  rewrite view_rows in Hfw by lia. cbn [bind] in Hfw.
  unfold Linear_forward in Hfw. cbn [shape rev app removelast] in Hfw.
  destruct (Nat.eqb_spec (S c) (in_features (gate_attn self))) as [Hin|];
    cbn [bind] in Hfw; [|discriminate].
  unfold view in Hfw. cbn [shape map_t tabulate data] in Hfw.
  change [Z.of_nat E; Z.of_nat N; 1%Z] with (map Z.of_nat [E; N; 1]) in Hfw.
  rewrite view_shape_sizes in Hfw.
  destruct (Nat.eqb_spec (numel [E; N; 1])
              (numel [E * N; out_features (gate_attn self)])) as [Hnum|];
    cbn [bind] in Hfw; [|discriminate].
  injection Hfw as <-. split; [reflexivity|].
  rewrite numel3, numel2 in Hnum.
  assert (Hout : out_features (gate_attn self) = 1) by nia.
  rewrite Hout. unfold get at 1. cbn [shape data ravel numel fold_right].
  assert (Hb : in_bounds [E * N; 1] [e * N + n; 0])
    by (repeat constructor; nia).
  pose proof (get_map_t sigmoid
                (tabulate [E * N; 1]
                   (Linear_entry (gate_attn self) (mkTensor [E * N; S c] d)))
                [e * N + n; 0] (wf_tabulate _ _) Hb) as Hget.
  rewrite get_tabulate in Hget by exact Hb.
  unfold get at 1 in Hget. cbn [shape data map_t tabulate ravel numel fold_right] in Hget.
  replace (e * (N * (1 * 1)) + (n * (1 * 1) + (0 * 1 + 0)))
    with ((e * N + n) * (1 * 1) + (0 * 1 + 0)) by ring.
  etransitivity; [exact Hget|]. unfold Linear_entry.
  cbn [List.last removelast app].
  rewrite <- Hin. f_equal. f_equal. apply Rsum_ext. intros k Hk. f_equal.
  unfold get. cbn [shape data ravel numel fold_right]. f_equal. ring.
Qed.

Lemma ElementwiseGateLayer_forward_entry_witness :
  shape gate_output0 = [1; 1; 1] /\
  get gate_output0 [0; 0; 0]
  = sigmoid (Rplus
               (Rsum 1 (fun k => Rmult (get gate_input0 [0; 0; k])
                                   (get (weight (gate_attn gate0)) [0; k])))
               (get (bias (gate_attn gate0)) [0])).
Proof.
  assert (H01 : (0 < 1)%nat) by lia.
  exact (ElementwiseGateLayer_forward_entry gate0 1 1 1 [0%R] gate_output0 0 0
           eq_refl H01 H01).
Defined.

(** X15: a content gate built for [id_dim] channels returns on an input of
    shape [(E, N, C)] exactly when [C] is [id_dim] and is not zero;
    otherwise it raises. *)
Theorem ElementwiseGateLayer_forward_defined (init : list nat -> R)
  (id_dim E N C : nat) (d : list R) :
  is_ok (ElementwiseGateLayer_forward (ElementwiseGateLayer_init init id_dim)
           (mkTensor [E; N; C] d))
  = (0 <? C) && (C =? id_dim).
Proof.
  unfold ElementwiseGateLayer_forward, size3. cbn [shape bind].
  destruct C as [|c].
  { rewrite view_zero_channels. reflexivity. }
  rewrite view_rows by lia. cbn [bind Nat.ltb Nat.leb andb].
  unfold Linear_forward.
  cbn [shape rev app ElementwiseGateLayer_init gate_attn nn_Linear in_features
       out_features].
  destruct (S c =? id_dim); [|reflexivity].
  cbn [bind]. unfold map_t, tabulate. cbn [shape data removelast app].
  change [Z.of_nat E; Z.of_nat N; 1%Z] with (map Z.of_nat [E; N; 1]).
  rewrite view_sizes by (rewrite numel3, numel2; lia). reflexivity.
Qed.

Section Heads.

Lemma head_forward_defined (l : Linear) E N C d :
  is_ok (let* '(nb_examples, nb_nodes, nb_channels) := size3 (mkTensor [E; N; C] d) in
         let* x := view (mkTensor [E; N; C] d) [Z.of_nat nb_examples; -1]%Z in
         match rev [l] with
         | [] => Raise IndexError
         | l :: _ => Linear_forward l x
         end)
  = (0 <? E) && (N * C =? in_features l).
Proof.
  unfold size3. cbn [shape bind rev app].
  destruct E as [|E'].
  { rewrite view_no_rows. reflexivity. }
  rewrite (view_flatten (S E') (N * C)) by (try lia; cbn [numel fold_right]; lia).
  cbn [bind Nat.ltb Nat.leb andb]. unfold Linear_forward. cbn [shape rev app].
  destruct (N * C =? in_features l); reflexivity.
Qed.

Lemma head_forward_shape (l : Linear) E N C d y :
  (let* '(nb_examples, nb_nodes, nb_channels) := size3 (mkTensor [E; N; C] d) in
   let* x := view (mkTensor [E; N; C] d) [Z.of_nat nb_examples; -1]%Z in
   match rev [l] with
   | [] => Raise IndexError
   | l :: _ => Linear_forward l x
   end) = Ok y ->
  shape y = [E; out_features l].
Proof.
  unfold size3. cbn [shape bind rev app]. intros H.
  destruct E as [|E'].
  { rewrite view_no_rows in H. discriminate. }
  rewrite (view_flatten (S E') (N * C)) in H
    by (try lia; cbn [numel fold_right]; lia).
  cbn [bind] in H. unfold Linear_forward in H. cbn [shape rev app] in H.
  destruct (N * C =? in_features l); [|discriminate].
  injection H as <-. reflexivity.
Qed.

End Heads.

(** X16: both classifier heads return on an input of shape [(E, N, C)]
    exactly when there is at least one example and [N * C] is
    [nb_nodes * input_dim], whatever [N] and [C] are separately; the
    result then has shape [(E, out_dim)], with [out_dim] 2 when none is
    given. *)
Theorem classifier_heads_forward (init : list nat -> R)
  (nb_nodes input_dim : nat) (out_dim : option nat) (cuda : bool)
  (L : FTorch.tensor) (E N C : nat) (d : list R) :
  let od := match out_dim with Some o => o | None => 2 end in
  let plain := LogisticRegression_init init nb_nodes input_dim out_dim cuda in
  let sparse :=
    mkSparseLogisticRegression nb_nodes input_dim L od cuda
      [nn_Linear init (nb_nodes * input_dim) od] in
  let x := mkTensor [E; N; C] d in
  is_ok (LogisticRegression_forward plain x)
  = (0 <? E) && (N * C =? nb_nodes * input_dim) /\
  is_ok (SparseLogisticRegression_forward sparse x)
  = (0 <? E) && (N * C =? nb_nodes * input_dim) /\
  (forall y, LogisticRegression_forward plain x = Ok y -> shape y = [E; od]) /\
  (forall y, SparseLogisticRegression_forward sparse x = Ok y -> shape y = [E; od]).
Proof.
  intros od plain sparse x.
  split; [apply (head_forward_defined (nn_Linear init (nb_nodes * input_dim) od))|].
  split; [apply (head_forward_defined (nn_Linear init (nb_nodes * input_dim) od))|].
  split; intros y Hy;
    apply (head_forward_shape (nn_Linear init (nb_nodes * input_dim) od) E N C d y Hy).
Qed.

(** ** Construction of the network *)

Section Construction.


End Construction.



(** X18: a constructed network has [dims = input_dim :: channels]; one
    gate slot and one dropout slot per channel width, with or without the
    options; a convolution stack of [prepool_extralayers + 1] layers per
    channel width when [aggregate_adj] is set and one otherwise; and a
    single classifier, of [out_dim] outputs and of
    [attention_head * dims[-1]] inputs with attention and
    [nb_nodes * dims[-1]] without.  The loop of [forward] zips the three
    lists and so runs once per channel width. *)
Theorem GraphNetwork_init_invariants (init : string -> list nat -> R)
  (args : GraphNetwork_args) (self : GraphNetwork) :
  GraphNetwork_init init args = Ok self ->
  dims self = input_dim self :: a_channels args /\
  out_dim self = match a_out_dim args with Some o => o | None => 2 end /\
  length (gating_layers self) = length (a_channels args) /\
  length (dropout_layers self) = length (a_channels args) /\
  length (conv_layers self)
  = length (a_channels args)
    * (stage_extras (a_aggregate_adj args) (a_prepool_extralayers args) + 1) /\
  length (enumerate (combine (conv_layers self)
                       (combine (gating_layers self) (dropout_layers self))))
  = length (a_channels args) /\
  exists l,
    my_logistic_layers self = [l] /\
    out_features l = out_dim self /\
    in_features l
    = if (0 <? a_attention_head args)%Z
      then Z.to_nat (a_attention_head args) * List.last (dims self) 0
      else nb_nodes self * List.last (dims self) 0.
Proof.
  intros Hinit. unfold GraphNetwork_init in Hinit.
  destruct (shape (a_adj args)) as [|nb rest]; cbn [bind] in Hinit; [discriminate|].
  rewrite dropout_layers_as_map in Hinit. cbn [bind] in Hinit.
  match type of Hinit with
  | bind ?r _ = _ => destruct r as [att|]; cbn [bind] in Hinit; [|discriminate]
  end.
  injection Hinit as <-.
  set (self := mkGraphNetwork _ _ _ _ _ _ _ _ _ _ _ _ _ _ _ _ _ _ _ _ _ _).
  assert (Hdims : dims self = input_dim self :: a_channels args) by reflexivity.
  assert (Hod : out_dim self = match a_out_dim args with Some o => o | None => 2 end)
    by reflexivity.
  assert (Hg : gating_layers self
               = add_gating_layers init (a_gating args) (a_channels args)
                   (dims self)) by reflexivity.
  assert (Hd : dropout_layers self
               = map (fun k => if a_dropout args
                               then Some (dropout_p true k) else None)
                   (seq 0 (length (dims self) - 1))) by reflexivity.
  assert (Hc : conv_layers self
               = add_graph_convolutional_layers (a_adj args) (dims self)
                   (a_cuda args)
                   (match a_transform_adj args with Some l => l | None => [] end)
                   (a_aggregate_adj args) (a_prepool_extralayers args))
    by reflexivity.
  assert (Hl : my_logistic_layers self
               = add_logistic_layer init (a_attention_head args) (nb_nodes self)
                   (dims self) (out_dim self)) by reflexivity.
  clearbody self.
  assert (Hlen : length (dims self) - 1 = length (a_channels args))
    by (rewrite Hdims; cbn [length]; lia).
  assert (Hgates : length (gating_layers self) = length (a_channels args)).
  { rewrite Hg, gating_layers_as_map by exact Hlen.
    rewrite length_map, length_seq. reflexivity. }
  assert (Hdrops : length (dropout_layers self) = length (a_channels args)).
  { rewrite Hd, length_map, length_seq. exact Hlen. }
  assert (Hconvs : length (conv_layers self)
                   = length (a_channels args)
                     * (stage_extras (a_aggregate_adj args)
                          (a_prepool_extralayers args) + 1)).
  { rewrite Hc, conv_layers_blocks.
    rewrite (length_flat_map_uniform _
               (stage_extras (a_aggregate_adj args)
                  (a_prepool_extralayers args) + 1)).
    - rewrite length_seq, Hlen. reflexivity.
    - intros k. unfold stage_block. rewrite length_app, repeat_length.
      reflexivity. }
  split; [exact Hdims|]. split; [exact Hod|].
  split; [exact Hgates|]. split; [exact Hdrops|]. split; [exact Hconvs|].
  split.
  - unfold enumerate. rewrite length_combine, length_seq, Nat.min_id.
    rewrite !length_combine, Hgates, Hdrops, Hconvs. nia.
  - rewrite Hl. unfold add_logistic_layer.
    destruct (Z.ltb_spec 0 (a_attention_head args)); cbn [map];
      eexists; (split; [reflexivity|]); split; try reflexivity.
    cbn [nn_Linear in_features]. rewrite Z2Nat.inj_mul, Nat2Z.id by lia.
    reflexivity.
Qed.

Lemma GraphNetwork_init_invariants_witness :
  dims network_all = [3; 8] /\
  length (gating_layers network_all) = 1 /\
  length (dropout_layers network_all) = 1 /\
  exists l, my_logistic_layers network_all = [l] /\ in_features l = 16.
Proof.
  destruct (GraphNetwork_init_invariants zero_params args_all network_all eq_refl)
    as [Hdims [_ [Hgates [Hdrops [_ [_ [l [Hl [_ Hin]]]]]]]]].
  split; [exact Hdims|]. split; [exact Hgates|]. split; [exact Hdrops|].
  exists l. split; [exact Hl | exact Hin].
Defined.

(** ** The stages of the forward pass *)

Section StageValues.

Local Open Scope R_scope.

Lemma get_unsqueezed_channel E N dm e n :
  get (mkTensor [E; N; 1%nat] dm) [e; n; 0%nat] = get (mkTensor [E; N] dm) [e; n].
Proof.
  unfold get. cbn [shape data ravel numel fold_right].
  f_equal; try reflexivity; try lia.
Qed.

Lemma bidx_last_one E N e n c :
  (e < E)%nat -> (n < N)%nat ->
  bidx [E; N; 1%nat] [e; n; c] = [e; n; 0%nat].
Proof.
  intros He Hn. unfold bidx. cbn [length Nat.sub skipn bidx_aligned Nat.eqb].
  destruct (Nat.eqb_spec E 1), (Nat.eqb_spec N 1); repeat f_equal; lia.
Qed.

(** The mask of lines 295-299 on the ones of shape [(E, N)]. *)
Lemma get_dropout_mask p training keep E N e n :
  (e < E)%nat -> (n < N)%nat ->
  get (Dropout_forward p training keep (ones [E; N])) [e; n]
  = if training then (if keep [e; n] then 1 / (1 - Q2R p) else 0) else 1.
Proof.
  intros He Hn.
  assert (Hb : in_bounds [E; N] [e; n]) by (repeat constructor; assumption).
  unfold Dropout_forward, ones. destruct training.
  - cbn [shape tabulate]. rewrite get_tabulate by exact Hb.
    rewrite get_tabulate by exact Hb. reflexivity.
  - apply get_tabulate, Hb.
Qed.

End StageValues.

(** X19: in a stage without gating whose dropout slot holds [p]: when the
    rectified output of the graph layer does not require grad the stage
    raises, as no hook can be registered on it; when it does and the mask
    is on the device of the tensor, each output entry is the rectified
    output of the graph layer times a factor that is the same for all the
    channels of a node: [1 / (1 - p)] for a node the draw keeps and 0 for a
    node it drops in training mode, and 1 in evaluation mode. *)
Theorem stage_dropout_per_node (self : GraphNetwork) (rt : runtime)
  (training : bool) (keep : nat -> list nat -> bool) (x y : tensor)
  (rg : bool) (st : gmap string capture) (k : nat) (layer : GraphLayer)
  (gate : option ElementwiseGateLayer) (p : Q) (E N C : nat) :
  Qpositive (gating self) = false ->
  graph_layer_type self layer x = Ok y ->
  wf y -> shape y = [E; N; C] ->
  let requires_grad :=
    tracked rt (rg || trainable rt ("conv_layers." +:+ pretty k)) in
  let stage :=
    forward_stage self rt training keep (Ok (x, rg, st))
      (k, (layer, (gate, Some p))) in
  (requires_grad = false -> stage = Raise RuntimeError) /\
  (requires_grad = true ->
   same_device (device rt) (cuda self) = Ok tt ->
   exists x' st',
     stage = Ok (x', true, st') /\
     shape x' = [E; N; C] /\
     forall e n c, e < E -> n < N -> c < C ->
       get x' [e; n; c]
       = (Rmax 0 (get y [e; n; c])
          * (if training
             then (if keep k [e; n] then 1 / (1 - Q2R p) else 0)
             else 1))%R).
Proof.
  intros Hgating Hy Hwf Hshape requires_grad stage.
  subst stage. unfold forward_stage. cbn [bind].
  rewrite Hgating. unfold call_module. rewrite Hy. cbn [bind].
  fold requires_grad. split.
  - intros Hreq. rewrite Hreq. unfold tracked. rewrite andb_false_r.
    reflexivity.
  - intros Hreq Hdev. rewrite Hreq.
    assert (Hgrad : grad_enabled rt = true).
    { unfold requires_grad, tracked in Hreq.
      apply andb_true_iff in Hreq as [Hgrad _]. exact Hgrad. }
    rewrite !(tracked_true rt Hgrad). cbn [register_hook bind].
    cbn [map_t shape]. rewrite Hshape. cbn [bind].
    set (m := Dropout_forward p training (keep k) (ones [E; N])).
    assert (Hm : shape m = [E; N]) by apply shape_Dropout_forward.
    assert (Hmget : forall e n, e < E -> n < N ->
              get m [e; n]
              = if training then (if keep k [e; n] then (1 / (1 - Q2R p))%R else 0%R)
                else 1%R)
      by (intros e n He Hn; apply get_dropout_mask; assumption).
    clearbody m. destruct m as [sm dm]. cbn [shape] in Hm. subst sm.
    rewrite unsqueeze_channel. cbn [bind].
    rewrite (mask_placed self rt Hdev), Hdev. cbn [bind].
    unfold mul, binop. cbn [shape map_t]. rewrite Hshape, broadcast_last_one_r.
    cbn [bind]. eexists _, _. split; [reflexivity|]. split; [reflexivity|].
    intros e n c He Hn Hc.
    assert (Hb : in_bounds [E; N; C] [e; n; c]) by (repeat constructor; assumption).
    rewrite get_tabulate by exact Hb. rewrite bidx_same by exact Hb.
    rewrite bidx_last_one by assumption.
    rewrite get_unsqueezed_channel, Hmget by assumption.
    f_equal.
    change (mkTensor (shape y) (map relu (data y))) with (map_t relu y).
    rewrite get_map_t by (try assumption; rewrite Hshape; exact Hb).
    reflexivity.
Qed.

Lemma stage_dropout_per_node_witness :
  forward_stage network_embedding no_grad true keep_even
    (Ok (input_2_4_3, false, ∅)) (0, (layer_3_8, (None, Some (1 # 10)%Q)))
  = Raise RuntimeError /\
  exists x' st',
    forward_stage network_embedding recording true keep_even
      (Ok (input_2_4_3, false, ∅)) (0, (layer_3_8, (None, Some (1 # 10)%Q)))
    = Ok (x', true, st') /\
    get x' [0; 1; 5] = (Rmax 0 0 * 0)%R.
Proof.
  assert (H02 : (0 < 2)%nat) by lia. assert (H14 : (1 < 4)%nat) by lia.
  assert (H58 : (5 < 8)%nat) by lia.
  split.
  - destruct (stage_dropout_per_node network_embedding no_grad true keep_even
                input_2_4_3 (tabulate [2; 4; 8] (fun _ => 0%R)) false ∅ 0
                layer_3_8 None (1 # 10)%Q 2 4 8 eq_refl eq_refl
                (wf_tabulate _ _) eq_refl) as [Hraise _].
    exact (Hraise eq_refl).
  - destruct (stage_dropout_per_node network_embedding recording true keep_even
                input_2_4_3 (tabulate [2; 4; 8] (fun _ => 0%R)) false ∅ 0
                layer_3_8 None (1 # 10)%Q 2 4 8 eq_refl eq_refl
                (wf_tabulate _ _) eq_refl) as [_ Hreturns].
    destruct (Hreturns eq_refl eq_refl) as [x' [st' [Hstage [_ Hentry]]]].
    exists x', st'. split; [exact Hstage|].
    rewrite (Hentry 0 1 5 H02 H14 H58).
    rewrite get_tabulate by (repeat constructor; lia). reflexivity.
Defined.

(** X20: when [forward] returns, the capture the hook has left on the
    classifier holds the returned tensor as its output. *)
Theorem forward_captures_logits (self : GraphNetwork) (rt : runtime)
  (training : bool) (keep : nat -> list nat -> bool)
  (st st' : gmap string capture) (x : tensor) (y : FTorch.tensor) :
  forward self rt training keep st x = Ok (y, st') ->
  exists input,
    st' !! logistic_name self = Some (mkCapture input (OutTensor y)).
Proof.
  intros Hfw. unfold forward in Hfw.
  destruct (size3 x) as [[[nb_examples nb_nodes] nb_channels]|];
    cbn [bind] in Hfw; [|discriminate].
  repeat match type of Hfw with
         | bind ?r _ = _ =>
             destruct r as [[[? ?] ?]|]; cbn [bind] in Hfw; [|discriminate]
         end.
  destruct (rev (my_logistic_layers self)) as [|l ls]; [discriminate|].
  destruct (FTorch.view _ _) as [flat|]; cbn [bind] in Hfw; [|discriminate].
  destruct (FTorch.Linear_forward l flat) as [out|]; cbn [bind] in Hfw;
    [|discriminate].
  destruct (register_hook _); cbn [bind] in Hfw; [|discriminate].
  injection Hfw as <- <-. exists flat. apply lookup_insert_eq.
Qed.

Lemma forward_captures_logits_witness :
  exists y st' input,
    forward network_embedding recording false keep_all ∅ input_2_4_1
    = Ok (y, st') /\
    st' !! logistic_name network_embedding
    = Some (mkCapture input (OutTensor y)).
Proof.
  assert (H : exists y st',
            forward network_embedding recording false keep_all ∅ input_2_4_1
            = Ok (y, st'))
    by (eexists _, _; reflexivity).
  destruct H as [y [st' Hfw]].
  destruct (forward_captures_logits network_embedding recording false keep_all
              ∅ st' input_2_4_1 y Hfw) as [input Hinput].
  exists y, st', input. split; assumption.
Defined.

(** ** The perceptron *)

Section Perceptron.

Lemma get_flattened_tabulate E C H f e c h :
  e < E -> c < C -> h < H ->
  get (mkTensor [E; C * H] (data (tabulate [E; C; H] f))) [e; c * H + h]
  = f [e; c; h].
Proof.
  intros He Hc Hh. rewrite <- (get_tabulate [E; C; H] f [e; c; h])
    by (repeat constructor; assumption).
  unfold get, tabulate. cbn [shape data ravel numel fold_right]. f_equal. lia.
Qed.

Lemma last_dim_cons d c cs : last_dim d (c :: cs) = last_dim c cs.
Proof.
  unfold last_dim. cbn [rev]. destruct (rev cs) as [|r rs]; reflexivity.
Qed.

(** The layers of lines 380-383 are chained from the input width to the
    last entry of [channels]. *)
Lemma MLP_layers_chained (init : string -> list nat -> R)
  channels : forall d s,
  let ls := map (fun '(i, (c_in, c_out)) =>
                   nn_Linear (init ("layer_" +:+ pretty i)) c_in c_out)
                (combine (seq s (length (combine (removelast (d :: channels))
                                                 (tl (d :: channels)))))
                         (combine (removelast (d :: channels))
                                  (tl (d :: channels)))) in
  chained d ls /\ final_width d ls = last_dim d channels.
Proof.
  induction channels as [|c cs IH]; intros d s.
  - cbn. split; [exact I | reflexivity].
  - change (removelast (d :: c :: cs)) with (d :: removelast (c :: cs)).
    change (tl (d :: c :: cs)) with (tl (c :: c :: cs)).
    change (tl (c :: c :: cs)) with (c :: cs).
    cbn [combine length seq map chained final_width nn_Linear in_features out_features].
    destruct (IH c (S s)) as [Hc Hf].
    change (tl (c :: cs)) with cs in Hc, Hf.
    split; [split; [reflexivity | exact Hc]|].
    rewrite last_dim_cons. exact Hf.
Qed.

Lemma MLP_stage_raise self training keep E e items :
  fold_left (MLP_stage self training keep E) items (Raise e) = Raise e.
Proof. induction items as [|it items IH]; [reflexivity | exact IH]. Qed.

(** Line 400 and line 405: flattening and a linear layer. *)
Lemma flatten_linear_ok E d l t :
  0 < E -> numel (shape t) = E * d -> in_features l = d ->
  exists flat,
    view t [Z.of_nat E; -1]%Z = Ok flat /\
    flat = mkTensor [E; d] (data t) /\
    Linear_forward l flat = Ok (tabulate [E; out_features l] (Linear_entry l flat)).
Proof.
  intros HE Hn Hin. destruct t as [s dt]. cbn [shape data] in *.
  exists (mkTensor [E; d] dt). split; [apply view_flatten; assumption|].
  split; [reflexivity|]. apply Linear_forward_rows. symmetry. exact Hin.
Qed.

Lemma flatten_linear_fails E m l t :
  numel (shape t) = E * m -> E = 0 \/ m <> in_features l ->
  view t [Z.of_nat E; -1]%Z = Raise RuntimeError \/
  exists flat, view t [Z.of_nat E; -1]%Z = Ok flat /\
               Linear_forward l flat = Raise RuntimeError.
Proof.
  intros Hn H. destruct t as [s dt]. cbn [shape] in Hn.
  destruct (Nat.eq_dec E 0) as [->|HE].
  - left. apply view_no_rows.
  - right. destruct H as [H|H]; [contradiction|].
    exists (mkTensor [E; m] dt). split; [apply view_flatten; [lia | exact Hn]|].
    unfold Linear_forward. cbn [shape rev app].
    destruct (Nat.eqb_spec m (in_features l)); [contradiction | reflexivity].
Qed.

(** The loop of lines 399-403 on chained layers. *)
Lemma MLP_stages_ok self training keep E :
  0 < E ->
  (mlp_dropout self = true -> exists p, mlp_my_dropout self = Some p) ->
  forall ls s d t,
    chained d ls -> numel (shape t) = E * d ->
    exists t',
      fold_left (MLP_stage self training keep E)
        (combine (seq s (length ls)) ls) (Ok t) = Ok t' /\
      numel (shape t') = E * final_width d ls.
Proof.
  intros HE Hdrop. induction ls as [|l ls IH]; intros s d t Hch Hn.
  - exists t. split; [reflexivity | exact Hn].
  - destruct Hch as [Hin Hch]. cbn [length seq combine fold_left final_width].
    destruct (flatten_linear_ok E d l t HE Hn Hin) as [flat [Hview [_ Hlin]]].
    assert (Hstage : exists t1,
               MLP_stage self training keep E (Ok t) (s, l) = Ok t1 /\
               shape t1 = [E; out_features l]).
    { unfold MLP_stage. cbn [bind]. rewrite Hview. cbn [bind].
      rewrite Hlin. cbn [bind].
      destruct (mlp_dropout self) eqn:Hd.
      - destruct (Hdrop eq_refl) as [p ->]. eexists. split; [reflexivity|].
        rewrite shape_Dropout_forward. reflexivity.
      - eexists. split; reflexivity. }
    destruct Hstage as [t1 [-> Ht1]].
    apply IH; [exact Hch|]. rewrite Ht1. apply numel2.
Qed.

Lemma enumerate_length {A : Type} (l : list A) :
  enumerate l = combine (seq 0 (length l)) l.
Proof. reflexivity. Qed.

Lemma permute_021_shape E N C d :
  permute_021 (mkTensor [E; N; C] d)
  = Ok (tabulate [E; C; N]
          (fun idx => match idx with
                      | [i; j; k] => get (mkTensor [E; N; C] d) [i; k; j]
                      | _ => 0%R
                      end)).
Proof. reflexivity. Qed.

Lemma numel_permuted E N C f : numel (shape (tabulate [E; C; N] f)) = E * (N * C).
Proof. cbn [tabulate shape]. rewrite numel3. lia. Qed.

Lemma Rsum_app a b f :
  Rsum (a + b) f = (Rsum a f + Rsum b (fun i => f (a + i)%nat))%R.
Proof.
  induction b as [|b IH].
  - rewrite Nat.add_0_r. unfold Rsum at 3. cbn. lra.
  - rewrite Nat.add_succ_r, !Rsum_S, IH. lra.
Qed.

(** A sum over the flattened index is a sum over channels and nodes. *)
Lemma Rsum_blocks C N f :
  Rsum (C * N) f = Rsum C (fun c => Rsum N (fun n => f (c * N + n)%nat)).
Proof.
  induction C as [|C IH].
  - reflexivity.
  - rewrite Rsum_S, <- IH. replace (S C * N) with (C * N + N) by lia.
    apply Rsum_app.
Qed.

End Perceptron.

(** X21: a perceptron built by [MLP.__init__] accepts every input of shape
    [(E, N, C)] with at least one example and [N * C = input_dim], for any
    hidden widths and with or without dropout, and returns a tensor of shape
    [(E, out_dim)]; an absent [input_dim] or [out_dim] stands for 2. *)
Theorem MLP_forward_shape (init : string -> list nat -> R)
  (input_dim out_dim : option nat) (channels : list nat) (cuda dropout : bool)
  (training : bool) (keep : nat -> list nat -> bool) (x : tensor) (E N C : nat) :
  0 < E -> shape x = [E; N; C] -> N * C = or_two input_dim ->
  exists self y,
    MLP_init init input_dim channels out_dim cuda dropout = Ok self /\
    MLP_forward self training keep x = Ok y /\
    wf y /\ shape y = [E; or_two out_dim].
Proof.
  intros HE Hshape Hdim. destruct x as [s dx]. cbn [shape] in Hshape. subst s.
  set (d := or_two input_dim) in *. set (o := or_two out_dim).
  set (ls := map (fun '(i, (c_in, c_out)) =>
                    nn_Linear (init ("layer_" +:+ pretty i)) c_in c_out)
                 (enumerate (combine (removelast (d :: channels))
                                     (tl (d :: channels))))).
  set (ll := match rev channels with
             | c :: _ => nn_Linear (init "last_layer") c o
             | [] => nn_Linear (init "last_layer") d o
             end).
  set (self := mkMLP o cuda dropout ls ll (if dropout then Some (1 # 2)%Q else None)).
  assert (Hinit : MLP_init init input_dim channels out_dim cuda dropout = Ok self)
    by (unfold MLP_init; destruct dropout; reflexivity).
  assert (Hll : in_features ll = last_dim d channels /\ out_features ll = o)
    by (unfold ll, last_dim; destruct (rev channels); split; reflexivity).
  destruct Hll as [Hll_in Hll_out].
  destruct (MLP_layers_chained init channels d 0) as [Hch Hfw].
  fold (enumerate (combine (removelast (d :: channels)) (tl (d :: channels))))
    in Hch, Hfw.
  fold ls in Hch, Hfw.
  assert (Hdrop : mlp_dropout self = true -> exists p, mlp_my_dropout self = Some p)
    by (cbn [self mlp_dropout mlp_my_dropout]; intros ->; eexists; reflexivity).
  exists self. unfold MLP_forward.
  change (size3 (mkTensor [E; N; C] dx)) with (Ok (A := nat * nat * nat) (E, N, C)).
  cbn [bind]. rewrite permute_021_shape. cbn [bind].
  change (mlp_my_layers self) with ls. change (mlp_last_layer self) with ll.
  rewrite enumerate_length.
  match goal with
  | |- context [fold_left _ _ (Ok ?t)] => set (px := t)
  end.
  assert (Hpx : numel (shape px) = E * d)
    by (unfold px; rewrite numel_permuted, Hdim; reflexivity).
  destruct (MLP_stages_ok self training keep E HE Hdrop ls 0 d px Hch Hpx)
    as [t' [-> Ht']].
  cbn [bind]. rewrite Hfw in Ht'.
  destruct (flatten_linear_ok E _ ll t' HE Ht' Hll_in) as [flat [Hv [_ Hl]]].
  rewrite Hv. cbn [bind]. rewrite Hl. eexists. split; [exact Hinit|]. split; [reflexivity|].
  split; [apply wf_tabulate|]. rewrite Hll_out. reflexivity.
Qed.

Lemma MLP_forward_shape_witness :
  exists self y,
    mlp_12_5_3 = Ok self /\
    MLP_forward self true keep_all input_2_4_3 = Ok y /\
    wf y /\ shape y = [2; 2].
Proof.
  assert (H02 : 0 < 2) by lia.
  exact (MLP_forward_shape zero_params (Some 12) (Some 2) [5; 3] true true
           true keep_all input_2_4_3 2 4 3 H02 eq_refl eq_refl).
Defined.

(** X22: on an input of shape [(E, N, C)] without examples, or with
    [N * C] different from [input_dim], the forward pass of a perceptron
    built by [MLP.__init__] raises a RuntimeError. *)
Theorem MLP_forward_rejects (init : string -> list nat -> R)
  (input_dim out_dim : option nat) (channels : list nat) (cuda dropout : bool)
  (self : MLP) (training : bool) (keep : nat -> list nat -> bool)
  (x : tensor) (E N C : nat) :
  MLP_init init input_dim channels out_dim cuda dropout = Ok self ->
  shape x = [E; N; C] ->
  E = 0 \/ N * C <> or_two input_dim ->
  MLP_forward self training keep x = Raise RuntimeError.
Proof.
  intros Hinit Hshape Hbad. destruct x as [s dx]. cbn [shape] in Hshape. subst s.
  set (d := or_two input_dim) in *. set (o := or_two out_dim).
  assert (Hself : mlp_my_layers self
                  = map (fun '(i, (c_in, c_out)) =>
                           nn_Linear (init ("layer_" +:+ pretty i)) c_in c_out)
                        (enumerate (combine (removelast (d :: channels))
                                            (tl (d :: channels)))) /\
                  mlp_last_layer self
                  = match rev channels with
                    | c :: _ => nn_Linear (init "last_layer") c o
                    | [] => nn_Linear (init "last_layer") d o
                    end).
  { unfold MLP_init in Hinit. destruct dropout; cbn [nn_Dropout bind] in Hinit;
      injection Hinit as <-; split; reflexivity. }
  destruct Hself as [Hls Hll].
  unfold MLP_forward.
  change (size3 (mkTensor [E; N; C] dx)) with (Ok (A := nat * nat * nat) (E, N, C)).
  cbn [bind]. rewrite permute_021_shape. cbn [bind]. rewrite Hls, Hll.
  destruct channels as [|c cs].
  - cbn [removelast tl combine enumerate length seq map fold_left bind rev].
    match goal with
    | |- context [view ?t _] =>
        destruct (flatten_linear_fails E (N * C)
                    (nn_Linear (init "last_layer") d o) t
                    (numel_permuted E N C _) Hbad) as [Hv | [flat [Hv Hl]]]
    end; rewrite Hv; [reflexivity|]. cbn [bind]. exact Hl.
  - change (removelast (d :: c :: cs)) with (d :: removelast (c :: cs)).
    change (tl (d :: c :: cs)) with (c :: cs).
    unfold enumerate. cbn [combine length seq map fold_left].
    set (l := nn_Linear (init ("layer_" +:+ pretty 0)) d c).
    match goal with
    | |- context [MLP_stage _ _ _ _ (Ok ?t) _] => set (px := t)
    end.
    assert (Hstage : MLP_stage self training keep E (Ok px) (0, l)
                     = Raise RuntimeError).
    { unfold MLP_stage. cbn [bind].
      destruct (flatten_linear_fails E (N * C) l px (numel_permuted E N C _) Hbad)
        as [Hv | [flat [Hv Hl]]]; rewrite Hv; [reflexivity|].
      cbn [bind]. rewrite Hl. reflexivity. }
    rewrite Hstage, MLP_stage_raise. reflexivity.
Qed.

Lemma MLP_forward_rejects_witness :
  exists self,
    mlp_7 = Ok self /\
    MLP_forward self false keep_all input_2_4_3 = Raise RuntimeError.
Proof.
  assert (Hbad : 2 = 0 \/ 4 * 3 <> or_two (Some 7)) by (right; cbn; lia).
  eexists. split; [reflexivity|].
  exact (MLP_forward_rejects zero_params (Some 7) None [5; 3] true false _
           false keep_all input_2_4_3 2 4 3 eq_refl eq_refl Hbad).
Defined.

(** X23: a perceptron without hidden layers is an affine map of the input
    flattened channel by channel: feature [c * N + n] of an example is the
    value of channel [c] at node [n], the layout that the permutation of
    line 398 produces. *)
Theorem MLP_reads_channel_major (init : string -> list nat -> R)
  (input_dim out_dim : option nat) (cuda dropout : bool)
  (training : bool) (keep : nat -> list nat -> bool) (x : tensor) (E N C : nat) :
  0 < E -> shape x = [E; N; C] -> N * C = or_two input_dim ->
  exists self y,
    MLP_init init input_dim [] out_dim cuda dropout = Ok self /\
    MLP_forward self training keep x = Ok y /\
    forall e o, e < E -> o < or_two out_dim ->
      get y [e; o]
      = (Rsum C (fun c =>
           Rsum N (fun n =>
             get x [e; n; c]
             * get (weight (mlp_last_layer self)) [o; (c * N + n)%nat]))
         + get (bias (mlp_last_layer self)) [o])%R.
Proof.
  intros HE Hshape Hdim. destruct x as [s dx]. cbn [shape] in Hshape. subst s.
  set (d := or_two input_dim) in *. set (o := or_two out_dim).
  set (ll := nn_Linear (init "last_layer") d o).
  set (self := mkMLP o cuda dropout [] ll (if dropout then Some (1 # 2)%Q else None)).
  assert (Hinit : MLP_init init input_dim [] out_dim cuda dropout = Ok self)
    by (unfold MLP_init; destruct dropout; reflexivity).
  exists self. unfold MLP_forward.
  change (size3 (mkTensor [E; N; C] dx)) with (Ok (A := nat * nat * nat) (E, N, C)).
  cbn [bind]. rewrite permute_021_shape. cbn [bind].
  change (mlp_my_layers self) with (@nil Linear).
  change (mlp_last_layer self) with ll.
  cbn [enumerate length seq combine fold_left bind].
  set (f := fun idx : list nat =>
              match idx with
              | [i; j; k] => get (mkTensor [E; N; C] dx) [i; k; j]
              | _ => 0%R
              end).
  assert (Hview : view (tabulate [E; C; N] f) [Z.of_nat E; -1]%Z
                  = Ok (mkTensor [E; C * N] (data (tabulate [E; C; N] f)))).
  { unfold tabulate at 1. apply view_flatten; [exact HE|]. rewrite numel3. lia. }
  rewrite Hview. cbn [bind].
  rewrite Linear_forward_rows by (cbn [ll nn_Linear in_features]; lia).
  eexists. split; [exact Hinit|]. split; [reflexivity|].
  intros e oo He Ho.
  rewrite get_tabulate by (apply in_bounds2; assumption).
  unfold Linear_entry. cbn [removelast app List.last].
  change (in_features ll) with d. replace d with (C * N) by lia.
  rewrite Rsum_blocks. f_equal.
  apply Rsum_ext. intros c Hc. apply Rsum_ext. intros n Hn.
  rewrite get_flattened_tabulate by assumption. reflexivity.
Qed.

Lemma MLP_reads_channel_major_witness :
  exists self y,
    mlp_12 = Ok self /\
    MLP_forward self false keep_all input_2_4_3 = Ok y /\
    forall e o, e < 2 -> o < 2 ->
      get y [e; o]
      = (Rsum 3 (fun c =>
           Rsum 4 (fun n =>
             get input_2_4_3 [e; n; c]
             * get (weight (mlp_last_layer self)) [o; (c * 4 + n)%nat]))
         + get (bias (mlp_last_layer self)) [o])%R.
Proof.
  assert (H02 : 0 < 2) by lia.
  exact (MLP_reads_channel_major zero_params (Some 12) None true false
           false keep_all input_2_4_3 2 4 3 H02 eq_refl eq_refl).
Defined.
